(** * Document intelligence pipeline: text extraction, stamp and signature
      analysis, template classification and field extraction.

    The development embeds three services of the repository:
    - [OllamaService]  (text extraction, local confidence score),
    - [StampSignatureService] (stamp / signature analysis, stamp registry),
    - [OpenAIService]  (template matching, field extraction, fallbacks).

    Conventions of the embedding.
    - A JavaScript string is its sequence of UTF-16 code units, [list N].
    - A JavaScript number is a rational ([Q]); decimal literals of the source
      are read as the rationals they denote, the rounding of binary64
      arithmetic is not modelled, and equalities between numbers are stated
      with [==].
    - A value of static type [any] (whatever [JSON.parse] returns) is a
      [JSValue]; an object used as a dictionary is a [gmap] from property
      names to values.
    - Effects (audit log, clock, replies of the two HTTP services) are
      threaded through a state-and-exception monad over [World]. *)

From Stdlib Require Import QArith Qminmax Lqa SpecFloat.
From stdpp Require Import gmap strings list pretty.

Set Default Proof Using "Type".

(** ** Strings *)

Definition jsstring := list N.

(** An ASCII literal of the source as code units. *)
Definition u16 (s : string) : jsstring :=
  Ascii.N_of_ascii <$> String.list_ascii_of_string s.

(** A literal in which the apostrophe stands for the double quote, used to
    write down JSON texts. *)
Definition json_text (s : string) : jsstring :=
  (λ c, if (c =? 39)%N then 34%N else c) <$> u16 s.

Definition is_digit (c : N) : bool := (48 <=? c)%N && (c <=? 57)%N.
Definition is_upper (c : N) : bool := (65 <=? c)%N && (c <=? 90)%N.
Definition is_lower (c : N) : bool := (97 <=? c)%N && (c <=? 122)%N.
Definition is_letter (c : N) : bool := is_upper c || is_lower c.

(** ECMAScript LineTerminator: LF, CR, LS, PS. *)
Definition is_line_terminator (c : N) : bool :=
  (c =? 10)%N || (c =? 13)%N || (c =? 8232)%N || (c =? 8233)%N.

(** ECMAScript WhiteSpace together with LineTerminator: what [\s] matches
    and what [String.prototype.trim] strips. *)
Definition is_space (c : N) : bool :=
  (c =? 9)%N || (c =? 11)%N || (c =? 12)%N || (c =? 32)%N || (c =? 160)%N
  || (c =? 5760)%N || ((8192 <=? c)%N && (c <=? 8202)%N) || (c =? 8239)%N
  || (c =? 8287)%N || (c =? 12288)%N || (c =? 65279)%N
  || is_line_terminator c.

(** [toLowerCase] and the regular-expression canonicalisation of the [i]
    flag, on the Basic Latin letters; every other code unit is left as it
    is.  For the [i] flag that is what a pattern without the [u] flag does
    to the patterns of the services: a code unit outside ASCII is never
    identified with one of ASCII, and Devanagari, used by some patterns,
    has no case.  For [String.prototype.toLowerCase] the definition is
    exact on strings of ASCII; the method also lowers the letters outside
    ASCII, which the definition leaves as they are.  Statements that depend
    on the lowering of a string that need not be of ASCII take it to be of
    ASCII ([Shape.ascii]). *)
Definition lower_unit (c : N) : N := if is_upper c then (c + 32)%N else c.
Definition upper_unit (c : N) : N := if is_lower c then (c - 32)%N else c.

Definition toLowerCase (s : jsstring) : jsstring := lower_unit <$> s.

Fixpoint starts_with (p s : jsstring) : bool :=
  match p, s with
  | [], _ => true
  | a :: p', b :: s' => (a =? b)%N && starts_with p' s'
  | _ :: _, [] => false
  end.

(** [s.includes(p)] *)
Fixpoint includes (s p : jsstring) : bool :=
  starts_with p s ||
  match s with
  | [] => false
  | _ :: s' => includes s' p
  end.

(** [s.split(sep)] for a one-unit separator: never empty, and empty pieces
    are kept. *)
Fixpoint split (sep : N) (s : jsstring) : list jsstring :=
  match s with
  | [] => [[]]
  | c :: s' =>
      if (c =? sep)%N then [] :: split sep s'
      else match split sep s' with
           | w :: ws => (c :: w) :: ws
           | [] => [[c]]
           end
  end.

Fixpoint trim_start (s : jsstring) : jsstring :=
  match s with
  | c :: s' => if is_space c then trim_start s' else s
  | [] => []
  end.

Definition trim (s : jsstring) : jsstring :=
  reverse (trim_start (reverse (trim_start s))).

(** [s.indexOf(c)] and [s.lastIndexOf(c)] for one code unit; [None] is -1. *)
Fixpoint indexOf (c : N) (s : jsstring) : option nat :=
  match s with
  | [] => None
  | d :: s' => if (d =? c)%N then Some 0 else S <$> indexOf c s'
  end.

Definition lastIndexOf (c : N) (s : jsstring) : option nat :=
  (λ i, length s - 1 - i) <$> indexOf c (reverse s).

(** [s.substring(i, j)] for [i <= j]. *)
Definition substring (i j : nat) (s : jsstring) : jsstring :=
  take (j - i) (drop i s).

(** [[...new Set(l)]]: duplicates removed, first occurrences kept in order. *)
Fixpoint set_of (l : list jsstring) : list jsstring :=
  match l with
  | [] => []
  | x :: l' => x :: filter (λ y, y ≠ x) (set_of l')
  end.

(** ** Regular expressions

    The fragment the services use: character classes, greedy bounded or
    unbounded repetition of a class, concatenation, alternation and one
    capture group.  Matching is the backtracking search of ECMAScript:
    a greedy quantifier first takes one more character and gives it back
    only when the rest fails, alternatives are tried left to right, and the
    start position moves left to right. *)

Definition charset := N → bool.

Inductive regex :=
| Eps
| Cls (cs : charset)
| Rep (cs : charset) (lo : nat) (hi : option nat)
| Seq (r1 r2 : regex)
| Alt (r1 r2 : regex)
| Grp (r : regex).

Definition hi_allows (hi : option nat) : bool :=
  match hi with Some 0 => false | _ => true end.

Fixpoint rep_greedy {A} (cs : charset) (lo : nat) (hi : option nat)
    (s : jsstring) (k : jsstring → option A) : option A :=
  let stop := match lo with 0 => k s | S _ => None end in
  match s with
  | c :: s' =>
      if cs c && hi_allows hi then
        match rep_greedy cs (pred lo) (pred <$> hi) s' k with
        | Some r => Some r
        | None => stop
        end
      else stop
  | [] => stop
  end.

Fixpoint run {A} (r : regex) (s : jsstring) (cap : option jsstring)
    (k : jsstring → option jsstring → option A) : option A :=
  match r with
  | Eps => k s cap
  | Cls cs =>
      match s with
      | c :: s' => if cs c then k s' cap else None
      | [] => None
      end
  | Rep cs lo hi => rep_greedy cs lo hi s (λ s', k s' cap)
  | Seq r1 r2 => run r1 s cap (λ s' cap', run r2 s' cap' k)
  | Alt r1 r2 =>
      match run r1 s cap k with
      | Some x => Some x
      | None => run r2 s cap k
      end
  | Grp r1 =>
      run r1 s cap (λ s' _, k s' (Some (take (length s - length s') s)))
  end.

(** The array a successful match returns: [m[0]] and [m[1]]. *)
Record MatchResult := { whole : jsstring; group1 : option jsstring }.

Definition match_at (r : regex) (s : jsstring) : option MatchResult :=
  run r s None
    (λ s' cap, Some {| whole := take (length s - length s') s; group1 := cap |}).

(** [s.match(r)] for a regular expression without the [g] flag. *)
Fixpoint regex_match (r : regex) (s : jsstring) : option MatchResult :=
  match match_at r s with
  | Some m => Some m
  | None =>
      match s with
      | [] => None
      | _ :: s' => regex_match r s'
      end
  end.

(** [r.test(s)] *)
Definition regex_test (r : regex) (s : jsstring) : bool :=
  bool_decide (is_Some (regex_match r s)).

(** [s.replace(r, '')] with the [g] flag: every match is deleted, scanning
    left to right; an empty match keeps the current code unit. *)
Fixpoint remove_all (fuel : nat) (r : regex) (s : jsstring) : jsstring :=
  match fuel with
  | 0 => s
  | S fuel' =>
      match match_at r s, s with
      | Some m, c :: s' =>
          match whole m with
          | [] => c :: remove_all fuel' r s'
          | _ :: _ => remove_all fuel' r (drop (length (whole m)) s)
          end
      | None, c :: s' => c :: remove_all fuel' r s'
      | _, [] => []
      end
  end.

Definition replace_all_empty (r : regex) (s : jsstring) : jsstring :=
  remove_all (S (length s)) r s.

(** Pattern syntax. *)
Definition chr (c : N) : charset := λ x, (x =? c)%N.
Definition chr_i (c : N) : charset := λ x, (upper_unit x =? upper_unit c)%N.
Definition one_of (l : jsstring) : charset := λ x, bool_decide (x ∈ l).
Definition dot : charset := λ x, negb (is_line_terminator x).
Definition any_unit : charset := λ _, true.

Definition cat (l : list regex) : regex := foldr Seq Eps l.
Definition alt (l : list regex) : regex :=
  match l with
  | [] => Eps
  | r :: l' => foldl Alt r l'
  end.
Definition lit (s : jsstring) : regex := cat (Cls ∘ chr <$> s).
Definition lit_i (s : jsstring) : regex := cat (Cls ∘ chr_i <$> s).
Definition star (cs : charset) : regex := Rep cs 0 None.
Definition plus (cs : charset) : regex := Rep cs 1 None.
Definition opt (cs : charset) : regex := Rep cs 0 (Some 1).

(** What can be read off a pattern: it cannot match without consuming a
    code unit; it contains a group; every match of it leaves a non-empty
    group. *)
Fixpoint consuming (r : regex) : bool :=
  match r with
  | Eps => false
  | Cls _ => true
  | Rep _ lo _ => bool_decide (0 < lo)
  | Seq r1 r2 => consuming r1 || consuming r2
  | Alt r1 r2 => consuming r1 && consuming r2
  | Grp r1 => consuming r1
  end.

Fixpoint has_group (r : regex) : bool :=
  match r with
  | Eps | Cls _ | Rep _ _ _ => false
  | Seq r1 r2 | Alt r1 r2 => has_group r1 || has_group r2
  | Grp _ => true
  end.

Fixpoint sets_group (r : regex) : bool :=
  match r with
  | Eps | Cls _ | Rep _ _ _ => false
  | Seq r1 r2 => sets_group r2 || (sets_group r1 && negb (has_group r2))
  | Alt r1 r2 => sets_group r1 && sets_group r2
  | Grp r1 => consuming r1
  end.

(** The strings a pattern matches, with the capture before and after:
    [matches r u c c'] when [r] matches exactly [u] and turns the capture
    [c] into [c'].  This is the reading of a pattern the backtracking
    search is compared with. *)
Inductive matches : regex → jsstring → option jsstring → option jsstring → Prop :=
| matches_eps c : matches Eps [] c c
| matches_cls cs x c : cs x = true → matches (Cls cs) [x] c c
| matches_rep cs lo hi u c :
    Forall (λ x, cs x = true) u →
    lo ≤ length u →
    (∀ h, hi = Some h → length u ≤ h) →
    matches (Rep cs lo hi) u c c
| matches_seq r1 r2 u1 u2 c c1 c2 :
    matches r1 u1 c c1 → matches r2 u2 c1 c2 → matches (Seq r1 r2) (u1 ++ u2) c c2
| matches_alt_l r1 r2 u c c' : matches r1 u c c' → matches (Alt r1 r2) u c c'
| matches_alt_r r1 r2 u c c' : matches r2 u c c' → matches (Alt r1 r2) u c c'
| matches_grp r u c c1 : matches r u c c1 → matches (Grp r) u c (Some u).

(** Every class of the pattern treats a letter and its lower case alike. *)
Fixpoint case_blind (r : regex) : Prop :=
  match r with
  | Eps => True
  | Cls cs | Rep cs _ _ => ∀ x, cs (lower_unit x) = cs x
  | Seq r1 r2 | Alt r1 r2 => case_blind r1 ∧ case_blind r2
  | Grp r1 => case_blind r1
  end.

(** Every class of the pattern lies within [P]; every group of the pattern
    is made of such classes. *)
Fixpoint classes_within (P : N → Prop) (r : regex) : Prop :=
  match r with
  | Eps => True
  | Cls cs | Rep cs _ _ => ∀ x, cs x = true → P x
  | Seq r1 r2 | Alt r1 r2 => classes_within P r1 ∧ classes_within P r2
  | Grp r1 => classes_within P r1
  end.

Fixpoint groups_within (P : N → Prop) (r : regex) : Prop :=
  match r with
  | Eps | Cls _ | Rep _ _ _ => True
  | Seq r1 r2 | Alt r1 r2 => groups_within P r1 ∧ groups_within P r2
  | Grp r1 => classes_within P r1
  end.

(** ** JavaScript values *)

(** A number is given by the rational it stands for.  The constants of the
    source are written as the decimals they are read from; the arithmetic
    of the extraction confidence, where rounding shows in the result, is
    carried out in doubles ([Double]). *)
#[warnings="-register-all"]
Inductive JSValue :=
| JUndefined
| JNull
| JBool (b : bool)
| JNum (q : Q)
| JStr (s : jsstring)
| JArr (l : list JSValue)
| JObj (m : gmap jsstring JSValue).

(** ToBoolean *)
Definition truthy (v : JSValue) : bool :=
  match v with
  | JUndefined | JNull => false
  | JBool b => b
  | JNum q => negb (Qeq_bool q 0)
  | JStr s => match s with [] => false | _ => true end
  | JArr _ | JObj _ => true
  end.

(** [a || b] *)
Definition js_or (a b : JSValue) : JSValue := if truthy a then a else b.

(** [v === s] for a string [s] *)
Definition is_string (v : JSValue) (s : jsstring) : bool :=
  match v with JStr s' => bool_decide (s' = s) | _ => false end.

(** An optional string as a value ([undefined] when absent). *)
Definition of_opt_string (o : option jsstring) : JSValue :=
  match o with Some s => JStr s | None => JUndefined end.

Definition js_nat (n : nat) : JSValue := JNum (inject_Z (Z.of_nat n)).

(** The own enumerable properties an object spread [{...v}] copies. *)
Definition indexed {A} (f : A → JSValue) (l : list A) : gmap jsstring JSValue :=
  list_to_map (imap (λ i x, (u16 (pretty i), f x)) l).

Definition spread (v : JSValue) : gmap jsstring JSValue :=
  match v with
  | JObj m => m
  | JArr l => indexed id l
  | JStr s => indexed (λ c, JStr [c]) s
  | _ => ∅
  end.

(** The property names an object made by a literal or a spread inherits
    from [Object.prototype]. *)
Definition object_prototype_names : list jsstring :=
  [u16 "constructor"; u16 "hasOwnProperty"; u16 "isPrototypeOf";
   u16 "propertyIsEnumerable"; u16 "toLocaleString"; u16 "toString";
   u16 "valueOf"; u16 "__proto__"; u16 "__defineGetter__";
   u16 "__defineSetter__"; u16 "__lookupGetter__"; u16 "__lookupSetter__"].

(** [k in o] for an object [o] made by a literal or a spread: an own
    property or an inherited one. *)
Definition has_property (o : gmap jsstring JSValue) (k : jsstring) : bool :=
  bool_decide (is_Some (o !! k)) || bool_decide (k ∈ object_prototype_names).

(** An object made by a literal, as assignments find it: its own
    properties and its prototype, which is [Object.prototype] until an
    assignment to [__proto__] replaces it. *)
Inductive Prototype :=
| ObjectPrototype
| NoPrototype
| ProtoValue (v : JSValue).

Record PlainObject := {
  own : gmap jsstring JSValue;
  proto : Prototype
}.

Definition new_object : PlainObject := {| own := ∅; proto := ObjectPrototype |}.

(** Whether the accessor [__proto__] of [Object.prototype] is what an
    assignment to that name reaches: not without a prototype, and not
    behind an own property of that name on the prototype (which a parsed
    object can have). *)
Definition accessor_inherited (p : Prototype) : bool :=
  match p with
  | ObjectPrototype => true
  | NoPrototype => false
  | ProtoValue (JObj m) => bool_decide (m !! u16 "__proto__" = None)
  | ProtoValue _ => true
  end.

(** [o[k] = v]: an own property is written, except where [k] is
    [__proto__] and the accessor is inherited: the accessor makes a null
    or an object the prototype and ignores every other value, and no own
    property comes to be. *)
Definition assign (o : PlainObject) (k : jsstring) (v : JSValue) : PlainObject :=
  if bool_decide (k = u16 "__proto__") && accessor_inherited (proto o) then
    match v with
    | JNull => {| own := own o; proto := NoPrototype |}
    | JObj _ | JArr _ => {| own := own o; proto := ProtoValue v |}
    | _ => o
    end
  else {| own := <[k := v]> (own o); proto := proto o |}.

(** ** Exceptions, the world, the monad *)

(** What a [catch] clause can receive: an [Error] instance with its message
    (also the runtime's own TypeError and SyntaxError), or a rejection value
    that is not an [Error] (the event of a failed [FileReader]). *)
Inductive Exn :=
| Err (message : jsstring)
| NotAnError.

Definition type_error : Exn := Err (u16 "TypeError").
Definition syntax_error : Exn := Err (u16 "SyntaxError").

(** [error instanceof Error ? error.message : dflt] *)
Definition message_or (dflt : jsstring) (e : Exn) : jsstring :=
  match e with Err m => m | NotAnError => dflt end.

(** What one [fetch] followed by [response.json()] can come to: [fetch]
    rejects with an error of the given message, the status is not ok, the
    body is not JSON, or the body parses to [data]. *)
Inductive HttpReply :=
| NetworkFailure (reason : jsstring)
| HttpStatus (status : N) (statusText : jsstring)
| BodyNotJson
| Body (data : JSValue).

Record AuditEntry := {
  a_user : jsstring;
  a_action : jsstring;
  a_resourceType : jsstring;
  a_resourceId : jsstring;
  a_details : gmap jsstring JSValue
}.

(** The part of the environment the services touch: the audit log of
    [securityService], the readings [Date.now()] will give, and the replies
    the Ollama and OpenAI endpoints will give to the coming requests.  A
    request finds its reply at the head of the list; with no reply left the
    service is unreachable.  Request bodies are not modelled: the reply is
    arbitrary whatever the prompt was. *)
Record World := {
  audit : list AuditEntry;
  clock : list Z;
  ollama : list HttpReply;
  openai : list HttpReply
}.

Inductive Outcome (A : Type) :=
| Returned (a : A)
| Thrown (e : Exn).
Arguments Returned {A} a.
Arguments Thrown {A} e.

Definition M (A : Type) : Type := World → Outcome A * World.

Definition ret {A} (a : A) : M A := λ w, (Returned a, w).
Definition throw {A} (e : Exn) : M A := λ w, (Thrown e, w).
Definition bind {A B} (m : M A) (f : A → M B) : M B :=
  λ w, match m w with
       | (Returned a, w') => f a w'
       | (Thrown e, w') => (Thrown e, w')
       end.
Definition try_catch {A} (body : M A) (handler : Exn → M A) : M A :=
  λ w, match body w with
       | (Returned a, w') => (Returned a, w')
       | (Thrown e, w') => handler e w'
       end.

Notation "'let*' x ':=' m 'in' k" := (bind m (λ x, k))
  (at level 10, x name, m at level 100, k at level 200, only parsing).
Notation "'exec' m 'in' k" := (bind m (λ _, k))
  (at level 10, m at level 100, k at level 200, only parsing).

(** A synchronous computation that may throw. *)
Definition lift {A} (o : Exn + A) : M A :=
  match o with inl e => throw e | inr a => ret a end.

(** Modelled from the spec: [securityService.logAction] is not among the
    sources; the audit log is an external collaborator that records the
    action and does not fail. *)
Definition logAction (userId action resourceType resourceId : jsstring)
    (details : gmap jsstring JSValue) : M unit :=
  λ w, (Returned tt,
        {| audit := audit w ++ [{| a_user := userId; a_action := action;
                                   a_resourceType := resourceType;
                                   a_resourceId := resourceId;
                                   a_details := details |}];
           clock := clock w; ollama := ollama w; openai := openai w |}).

(** [Date.now()] *)
Definition now : M Z :=
  λ w, (Returned (hd 0%Z (clock w)),
        {| audit := audit w; clock := tl (clock w);
           ollama := ollama w; openai := openai w |}).

Definition next_reply (l : list HttpReply) : HttpReply :=
  hd (NetworkFailure (u16 "Failed to fetch")) l.

Definition fetch_ollama : M HttpReply :=
  λ w, (Returned (next_reply (ollama w)),
        {| audit := audit w; clock := clock w;
           ollama := tl (ollama w); openai := openai w |}).

Definition fetch_openai : M HttpReply :=
  λ w, (Returned (next_reply (openai w)),
        {| audit := audit w; clock := clock w;
           ollama := ollama w; openai := tl (openai w) |}).

(** [fetch], the [response.ok] test with the error the services build from
    the status line, and [response.json()]. *)
Definition api_error (service : jsstring) (status : N) (statusText : jsstring) : Exn :=
  Err (service ++ u16 " API error: " ++ u16 (pretty status) ++ u16 " " ++ statusText).

Definition json_body (service : jsstring) (r : HttpReply) : M JSValue :=
  match r with
  | NetworkFailure reason => throw (Err reason)
  | HttpStatus st txt => throw (api_error service st txt)
  | BodyNotJson => throw syntax_error
  | Body data => ret data
  end.

(** [response.ok] once [fetch] has resolved, and [response.json()] of a
    response that is ok (the services never read the body of another). *)
Definition response_ok (r : HttpReply) : M bool :=
  match r with
  | NetworkFailure reason => throw (Err reason)
  | HttpStatus _ _ => ret false
  | BodyNotJson | Body _ => ret true
  end.

Definition response_json (r : HttpReply) : M JSValue :=
  match r with
  | Body data => ret data
  | _ => throw syntax_error
  end.

(** Property read [v.k]: a TypeError on [null] and [undefined], the own
    property of an object, [undefined] elsewhere (none of the names read
    here is a built-in property of a primitive or an array). *)
Definition get (v : JSValue) (k : jsstring) : Exn + JSValue :=
  match v with
  | JUndefined | JNull => inl type_error
  | JObj m => inr (default JUndefined (m !! k))
  | _ => inr JUndefined
  end.

(** The same read where it cannot throw. *)
Definition prop_of (v : JSValue) (k : jsstring) : JSValue :=
  match get v k with inr x => x | inl _ => JUndefined end.

(** Element read [v[0]]. *)
Definition get0 (v : JSValue) : Exn + JSValue :=
  match v with
  | JUndefined | JNull => inl type_error
  | JObj m => inr (default JUndefined (m !! u16 "0"))
  | JArr l => inr (hd JUndefined l)
  | JStr s => inr (match s with c :: _ => JStr [c] | [] => JUndefined end)
  | _ => inr JUndefined
  end.

(** Method call [v.trim()]. *)
Definition call_trim (v : JSValue) : Exn + jsstring :=
  match v with
  | JStr s => inr (trim s)
  | _ => inl type_error
  end.

(** A file handed to the services, as the coming read finds it: every
    [fileToBase64] reads the file anew with a [FileReader] of its own, and
    one read can fail where another succeeded.  [contents] is the data URL
    the coming read produces, [None] when that read fails; [later] holds
    the outcomes of the reads after it.  A file with no outcome left reads
    the same every time. *)
Record File := {
  file_name : jsstring;
  file_size : N;
  file_type : jsstring;
  contents : option jsstring;
  later : list (option jsstring)
}.

(** The file as the read after the coming one finds it. *)
Definition next_read (file : File) : File :=
  match later file with
  | [] => file
  | outcome :: outcomes =>
      {| file_name := file_name file; file_size := file_size file;
         file_type := file_type file;
         contents := outcome; later := outcomes |}
  end.

(** [fileToBase64]: the part of the data URL after the first comma
    ([undefined] when there is none); the read error rejects. *)
Definition fileToBase64 (file : File) : M JSValue :=
  match contents file with
  | Some url => ret (of_opt_string (split 44 url !! 1))
  | None => throw NotAnError
  end.

(** [JSON.parse] of the runtime: [None] is a SyntaxError.  The services are
    stated over any parser. *)
Class Runtime := { JSON_parse : jsstring → option JSValue }.

(** A parser that knows finitely many texts and rejects the others. *)
Fixpoint table_lookup (tbl : list (jsstring * JSValue)) (s : jsstring)
    : option JSValue :=
  match tbl with
  | [] => None
  | (k, v) :: tbl' => if decide (k = s) then Some v else table_lookup tbl' s
  end.

Definition table_parser (tbl : list (jsstring * JSValue)) : Runtime :=
  {| JSON_parse := table_lookup tbl |}.


(** ** Numbers: binary64 *)

(** The arithmetic of the confidence score is that of IEEE 754 doubles:
    every operation gives the double nearest to the exact result, ties to
    even.  A decimal literal stands for the double nearest to it, which is
    the rounded quotient of its digits by the power of ten.  [Math.max] and
    [Math.min] are given for numbers that are no NaN, up to the sign of a
    zero.  A double is read back as the rational it stands for. *)
Module Double.

Definition prec : Z := 53.
Definition emax : Z := 1024.

Definition of_Z (z : Z) : spec_float := binary_normalize prec emax z 0 false.
Definition add : spec_float → spec_float → spec_float := SFadd prec emax.
Definition sub : spec_float → spec_float → spec_float := SFsub prec emax.
Definition mul : spec_float → spec_float → spec_float := SFmul prec emax.
Definition div : spec_float → spec_float → spec_float := SFdiv prec emax.

Definition literal (digits power_of_ten : Z) : spec_float :=
  div (of_Z digits) (of_Z power_of_ten).

Definition max (x y : spec_float) : spec_float := if SFltb x y then y else x.
Definition min (x y : spec_float) : spec_float := if SFltb y x then y else x.

Definition to_Q (x : spec_float) : Q :=
  match x with
  | S754_finite s m e =>
      let v := match e with
               | Z0 => inject_Z (Zpos m)
               | Zpos p => inject_Z (Zpos m * 2 ^ Zpos p)
               | Zneg p => Qmake (Zpos m) (2 ^ p)
               end in
      Qred (if s then Qopp v else v)
  | _ => 0%Q
  end.

End Double.

(** ** OllamaService *)

Module Ollama.

Record PageResult := {
  pageNumber : nat;
  width : nat;
  height : nat;
  page_extractedText : jsstring;
  page_confidence : Q
}.

Record OllamaTextExtractionResult := {
  extractedText : jsstring;
  confidence : Q;
  pages : list PageResult;
  processingTime : Z;
  model : jsstring
}.

Definition baseUrl : jsstring := u16 "http://localhost:11434".
Definition model_name : jsstring := u16 "gemma3".

Definition processWithGemma3 (base64Data : JSValue) : M jsstring :=
  try_catch
    (let* r := fetch_ollama in
     let* data := json_body (u16 "Ollama") r in
     let* response := lift (get data (u16 "response")) in
     if negb (truthy response)
     then throw (Err (u16 "No response from Ollama model"))
     else lift (call_trim response))
    (λ error, throw error).

Definition documentKeywords : list jsstring :=
  [u16 "date"; u16 "name"; u16 "address"; u16 "phone"; u16 "email";
   u16 "officer"; u16 "department"; u16 "police"].

Definition keywordMatches (text : jsstring) : nat :=
  length (filter (λ keyword, includes (toLowerCase text) keyword = true)
                 documentKeywords).

Definition hasNumbers (text : jsstring) : bool := regex_test (Cls is_digit) text.
Definition hasLetters (text : jsstring) : bool := regex_test (Cls is_letter) text.
Definition hasPunctuation (text : jsstring) : bool :=
  regex_test (Cls (one_of (u16 ".,;:!?"))) text.

(** The score is computed in doubles and returned as the rational the
    resulting double stands for. *)
Definition calculateConfidence (text : jsstring) : Q :=
  if bool_decide (length text = 0) then 0%Q
  else
    let confidence := Double.literal 7 10 in
    let confidence :=
      if bool_decide (100 < length text)
      then Double.add confidence (Double.literal 1 10) else confidence in
    let confidence :=
      if bool_decide (500 < length text)
      then Double.add confidence (Double.literal 1 10) else confidence in
    let confidence :=
      if bool_decide (length text < 20)
      then Double.sub confidence (Double.literal 2 10) else confidence in
    let confidence :=
      if hasNumbers text && hasLetters text
      then Double.add confidence (Double.literal 5 100) else confidence in
    let confidence :=
      if hasPunctuation text
      then Double.add confidence (Double.literal 5 100) else confidence in
    let confidence :=
      if bool_decide (0 < keywordMatches text)
      then Double.add confidence
             (Double.mul (Double.of_Z (Z.of_nat (keywordMatches text)))
                         (Double.literal 2 100))
      else confidence in
    Double.to_Q (Double.min (Double.max confidence (Double.of_Z 0)) (Double.of_Z 1)).

Definition extractTextFromDocument (file : File) (userId : jsstring)
    : M OllamaTextExtractionResult :=
  let* startTime := now in
  try_catch
    (exec logAction userId (u16 "ollama_processing_start") (u16 "document")
            (file_name file)
            (list_to_map
               [(u16 "fileSize", JNum (inject_Z (Z.of_N (file_size file))));
                (u16 "fileType", JStr (file_type file));
                (u16 "model", JStr model_name);
                (u16 "endpoint", JStr baseUrl)]) in
     let* base64Data := fileToBase64 file in
     let* text := processWithGemma3 base64Data in
     let* t := now in
     let time := (t - startTime)%Z in
     let conf := calculateConfidence text in
     let result :=
       {| extractedText := text;
          confidence := conf;
          pages := [{| pageNumber := 1; width := 0; height := 0;
                       page_extractedText := text;
                       page_confidence := conf |}];
          processingTime := time;
          model := model_name |} in
     exec logAction userId (u16 "ollama_processing_complete") (u16 "document")
            (file_name file)
            (list_to_map
               [(u16 "model", JStr model_name);
                (u16 "confidence", JNum conf);
                (u16 "textLength", js_nat (length text));
                (u16 "processingTime", JNum (inject_Z time))]) in
     ret result)
    (λ error,
       let errorMessage := message_or (u16 "Ollama processing failed") error in
       exec logAction userId (u16 "ollama_processing_error") (u16 "document")
              (file_name file)
              (list_to_map
                 [(u16 "error", JStr errorMessage);
                  (u16 "model", JStr model_name)]) in
       throw (Err (u16 "Ollama text extraction failed: " ++ errorMessage))).

(** [model.name && model.name.includes('gemma3')]: strings and arrays have
    an [includes] method, any other truthy name has none. *)
Definition names_gemma3 (model : JSValue) : Exn + JSValue :=
  match get model (u16 "name") with
  | inl e => inl e
  | inr n =>
      if truthy n then
        match n with
        | JStr s => inr (JBool (includes s (u16 "gemma3")))
        | JArr a => inr (JBool (existsb (λ v, is_string v (u16 "gemma3")) a))
        | _ => inl type_error
        end
      else inr n
  end.

(** [models.some(...)]: the entries are visited in order up to the first
    one the callback accepts. *)
Fixpoint some_gemma3 (models : list JSValue) : Exn + bool :=
  match models with
  | [] => inr false
  | model :: models' =>
      match names_gemma3 model with
      | inl e => inl e
      | inr v => if truthy v then inr true else some_gemma3 models'
      end
  end.

(** [data.models?.some(...)] *)
Definition hasModel (models : JSValue) : Exn + JSValue :=
  match models with
  | JUndefined | JNull => inr JUndefined
  | JArr l =>
      match some_gemma3 l with
      | inl e => inl e
      | inr b => inr (JBool b)
      end
  | _ => inl type_error
  end.

(** The request goes to [/api/tags]; the value returned is [hasModel] as it
    is, which is [undefined] when the reply has no [models]. *)
Definition checkServiceHealth : M JSValue :=
  try_catch
    (let* r := fetch_ollama in
     let* ok := response_ok r in
     if negb ok then ret (JBool false)
     else
       let* data := response_json r in
       let* models := lift (get data (u16 "models")) in
       lift (hasModel models))
    (λ error, ret (JBool false)).


Definition getModelInfo : M JSValue :=
  try_catch
    (let* r := fetch_ollama in
     let* ok := response_ok r in
     if negb ok then ret JNull else response_json r)
    (λ error, ret JNull).

End Ollama.

(** ** StampSignatureService *)

Module Stamp.

Inductive Status := Present | Absent.

(** ['Y' | 'N'] *)
Inductive Validation := Y_ | N_.

Definition status_js (s : Status) : JSValue :=
  JStr (match s with Present => u16 "Present" | Absent => u16 "Absent" end).
Definition validation_js (v : Validation) : JSValue :=
  JStr (match v with Y_ => u16 "Y" | N_ => u16 "N" end).

(** Optional members hold [JUndefined] when absent. *)
Module StampDetectionResult.
Record t := {
  Status : Status;
  Coordinates : JSValue;
  Type_ : JSValue;
  Confidence : JSValue;
  ExtractedText : JSValue;
  PersonName : JSValue;
  Date : JSValue
}.
Definition to_js (r : t) : JSValue :=
  JObj (list_to_map
    [(u16 "Status", status_js (Status r)); (u16 "Coordinates", Coordinates r);
     (u16 "Type", Type_ r); (u16 "Confidence", Confidence r);
     (u16 "PersonName", PersonName r); (u16 "Date", Date r)]).
End StampDetectionResult.

Module SignatureDetectionResult.
Record t := {
  Status : Status;
  Coordinates : JSValue;
  Confidence : JSValue;
  PersonName : JSValue;
  Date : JSValue
}.
Definition to_js (r : t) : JSValue :=
  JObj (list_to_map
    [(u16 "Status", status_js (Status r)); (u16 "Coordinates", Coordinates r);
     (u16 "Confidence", Confidence r);
     (u16 "PersonName", PersonName r); (u16 "Date", Date r)]).
End SignatureDetectionResult.

(** What [analyzeWithOllama] and [fallbackTextAnalysis] return. *)
Module Analysis.
Record t := {
  Stamp : StampDetectionResult.t;
  Signature : SignatureDetectionResult.t;
  StampValidation : Validation;
  MatchedStampType : JSValue;
  PersonName : JSValue;
  Date : JSValue
}.
(** The object as the program sees it when it reads properties of it. *)
Definition to_js (r : t) : JSValue :=
  JObj (list_to_map
    [(u16 "Stamp", StampDetectionResult.to_js (Stamp r));
     (u16 "Signature", SignatureDetectionResult.to_js (Signature r));
     (u16 "StampValidation", validation_js (StampValidation r));
     (u16 "MatchedStampType", MatchedStampType r);
     (u16 "PersonName", PersonName r); (u16 "Date", Date r)]).
End Analysis.

Module StampSignatureAnalysisResult.
Record t := {
  Stamp : StampDetectionResult.t;
  Signature : SignatureDetectionResult.t;
  StampValidation : Validation;
  MatchedStampType : JSValue;
  ProcessingTime : Z;
  ExtractedText : JSValue;
  PersonName : JSValue;
  Date : JSValue
}.
End StampSignatureAnalysisResult.

Record StampRecord := {
  id : jsstring;
  name : jsstring;
  keywords : list jsstring;
  pattern : regex
}.

Definition dots : regex := star dot.
Definition spaces1 : regex := plus is_space.

(** Master list of official stamps *)
Definition OFFICIAL_STAMP_MASTER_LIST : list StampRecord :=
  [ {| id := u16 "stamp_1";
       name := u16 "OFFICER COMMANDING 14th BN A.P.S.P. ANANTHAPURAMU";
       keywords := [u16 "OFFICER COMMANDING"; u16 "14TH BN"; u16 "A.P.S.P";
                    u16 "ANANTHAPURAMU"];
       pattern := cat [lit_i (u16 "OFFICER"); spaces1; lit_i (u16 "COMMANDING");
                       dots; lit_i (u16 "14"); dots; lit_i (u16 "BN"); dots;
                       lit_i (u16 "A.P.S.P"); dots; lit_i (u16 "ANANTHAPURAMU")] |};
    {| id := u16 "stamp_2";
       name := u16 "STATE OFFICER TO ADGP APSP HEAD OFFICE MANGALAGIRI";
       keywords := [u16 "STATE OFFICER"; u16 "ADGP"; u16 "APSP"; u16 "HEAD OFFICE";
                    u16 "MANGALAGIRI"];
       pattern := cat [lit_i (u16 "STATE"); spaces1; lit_i (u16 "OFFICER"); dots;
                       lit_i (u16 "ADGP"); dots; lit_i (u16 "APSP"); dots;
                       lit_i (u16 "HEAD"); spaces1; lit_i (u16 "OFFICE"); dots;
                       lit_i (u16 "MANGALAGIRI")] |};
    {| id := u16 "stamp_3";
       name := u16 "Inspector General of Police APSP Bns, Amaravathi";
       keywords := [u16 "INSPECTOR GENERAL"; u16 "POLICE"; u16 "APSP"; u16 "BNS";
                    u16 "AMARAVATHI"];
       pattern := cat [lit_i (u16 "INSPECTOR"); spaces1; lit_i (u16 "GENERAL"); dots;
                       lit_i (u16 "POLICE"); dots; lit_i (u16 "APSP"); dots;
                       lit_i (u16 "BNS"); dots; lit_i (u16 "AMARAVATHI")] |};
    {| id := u16 "stamp_4";
       name :=
         u16 "Dy. Inspector General of Police-IV APSP Battalions, Mangalagiri";
       keywords := [u16 "DY"; u16 "INSPECTOR GENERAL"; u16 "POLICE"; u16 "APSP";
                    u16 "BATTALIONS"; u16 "MANGALAGIRI"];
       pattern := cat [lit_i (u16 "DY"); dots; lit_i (u16 "INSPECTOR"); spaces1;
                       lit_i (u16 "GENERAL"); dots; lit_i (u16 "POLICE"); dots;
                       lit_i (u16 "APSP"); dots; lit_i (u16 "BATTALIONS"); dots;
                       lit_i (u16 "MANGALAGIRI")] |};
    {| id := u16 "stamp_5";
       name :=
         u16 "Sd/- B. Sreenivasulu, IPS., Addl. Commissioner of Police, Vijayawada City";
       keywords := [u16 "SD"; u16 "SREENIVASULU"; u16 "IPS"; u16 "COMMISSIONER";
                    u16 "POLICE"; u16 "VIJAYAWADA"];
       pattern := cat [lit_i (u16 "SD"); dots; lit_i (u16 "SREENIVASULU"); dots;
                       lit_i (u16 "IPS"); dots; lit_i (u16 "COMMISSIONER"); dots;
                       lit_i (u16 "POLICE"); dots; lit_i (u16 "VIJAYAWADA")] |};
    {| id := u16 "stamp_6";
       name :=
         u16 "Dr. SHANKHABRATA BAGCHI IPS., Addl. Director General of Police, APSP Battalions";
       keywords := [u16 "SHANKHABRATA"; u16 "BAGCHI"; u16 "IPS";
                    u16 "DIRECTOR GENERAL"; u16 "POLICE"; u16 "APSP";
                    u16 "BATTALIONS"];
       pattern := cat [lit_i (u16 "SHANKHABRATA"); dots; lit_i (u16 "BAGCHI"); dots;
                       lit_i (u16 "IPS"); dots; lit_i (u16 "DIRECTOR"); spaces1;
                       lit_i (u16 "GENERAL"); dots; lit_i (u16 "POLICE"); dots;
                       lit_i (u16 "APSP"); dots; lit_i (u16 "BATTALIONS")] |} ].

Definition name_class : charset := λ c, is_letter c || is_space c || (c =? 46)%N.

(** [/sd\/?\s*-?\s*([a-z\s\.]+)/i], [/signed\s+by\s+([a-z\s\.]+)/i],
    [/([a-z]+\s+[a-z]+),?\s+ips/i] *)
Definition namePatterns : list regex :=
  [ cat [lit_i (u16 "sd"); opt (chr 47); star is_space; opt (chr 45);
         star is_space; Grp (plus name_class)];
    cat [lit_i (u16 "signed"); spaces1; lit_i (u16 "by"); spaces1;
         Grp (plus name_class)];
    cat [Grp (cat [plus is_letter; spaces1; plus is_letter]); opt (chr 44);
         spaces1; lit_i (u16 "ips")] ].

(** [/(\d{1,2}[-\/]\d{1,2}[-\/]\d{2,4})/] *)
Definition datePattern : regex :=
  Grp (cat [Rep is_digit 1 (Some 2); Cls (one_of (u16 "-/"));
            Rep is_digit 1 (Some 2); Cls (one_of (u16 "-/"));
            Rep is_digit 2 (Some 4)]).

(** The loop over [namePatterns]: the first pattern that matches with a
    non-empty group gives the name, trimmed. *)
Fixpoint first_name (patterns : list regex) (text : jsstring) : option jsstring :=
  match patterns with
  | [] => None
  | p :: patterns' =>
      match regex_match p text with
      | Some {| group1 := Some (c :: g) |} => Some (trim (c :: g))
      | _ => first_name patterns' text
      end
  end.

(** The loop over the master list: the first stamp whose pattern tests
    true. *)
Definition first_stamp (text : jsstring) : option StampRecord :=
  snd <$> list_find (λ stamp, regex_test (pattern stamp) text = true)
                    OFFICIAL_STAMP_MASTER_LIST.

Definition coordinates (x y w h : Z) : JSValue :=
  JArr [JNum (inject_Z x); JNum (inject_Z y); JNum (inject_Z w); JNum (inject_Z h)].

Definition fallbackTextAnalysis (extractedText : jsstring) : Analysis.t :=
  let textLower := toLowerCase extractedText in
  let hasStampKeywords :=
    existsb (includes textLower)
      [u16 "stamp"; u16 "seal"; u16 "officer"; u16 "police"; u16 "commanding";
       u16 "commissioner"] in
  let hasSignatureKeywords :=
    existsb (includes textLower)
      [u16 "signature"; u16 "signed"; u16 "sd/"; u16 "sign"] in
  let personName := of_opt_string (first_name namePatterns extractedText) in
  let date :=
    match regex_match datePattern extractedText with
    | Some dateMatch => of_opt_string (group1 dateMatch)
    | None => JUndefined
    end in
  let matched := first_stamp extractedText in
  {| Analysis.Stamp :=
       {| StampDetectionResult.Status :=
            if hasStampKeywords then Present else Absent;
          StampDetectionResult.Coordinates :=
            if hasStampKeywords then coordinates 100 100 200 100 else JNull;
          StampDetectionResult.Type_ :=
            if hasStampKeywords then JStr (u16 "official_stamp") else JUndefined;
          StampDetectionResult.Confidence :=
            JNum (if hasStampKeywords then 0.6 else 0.3)%Q;
          StampDetectionResult.ExtractedText := JUndefined;
          StampDetectionResult.PersonName := personName;
          StampDetectionResult.Date := date |};
     Analysis.Signature :=
       {| SignatureDetectionResult.Status :=
            if hasSignatureKeywords then Present else Absent;
          SignatureDetectionResult.Coordinates :=
            if hasSignatureKeywords then coordinates 300 400 150 50 else JNull;
          SignatureDetectionResult.Confidence :=
            JNum (if hasSignatureKeywords then 0.6 else 0.3)%Q;
          SignatureDetectionResult.PersonName := personName;
          SignatureDetectionResult.Date := date |};
     Analysis.StampValidation :=
       match matched with Some _ => Y_ | None => N_ end;
     Analysis.MatchedStampType := of_opt_string (name <$> matched);
     Analysis.PersonName := personName;
     Analysis.Date := date |}.

(** [value || undefined] *)
Definition or_undefined (v : JSValue) : JSValue := js_or v JUndefined.

(** The conversion of the parsed reply to the result format. *)
Definition convert (prop : jsstring → JSValue) : Analysis.t :=
  {| Analysis.Stamp :=
       {| StampDetectionResult.Status :=
            if truthy (prop (u16 "stamp_detected")) then Present else Absent;
          StampDetectionResult.Coordinates :=
            js_or (prop (u16 "stamp_coordinates")) JNull;
          StampDetectionResult.Type_ :=
            if truthy (prop (u16 "stamp_text"))
            then JStr (u16 "official_stamp") else JUndefined;
          StampDetectionResult.Confidence :=
            js_or (prop (u16 "confidence_score")) (JNum 0.7);
          StampDetectionResult.ExtractedText := or_undefined (prop (u16 "stamp_text"));
          StampDetectionResult.PersonName := or_undefined (prop (u16 "person_name"));
          StampDetectionResult.Date := or_undefined (prop (u16 "date_found")) |};
     Analysis.Signature :=
       {| SignatureDetectionResult.Status :=
            if truthy (prop (u16 "signature_detected")) then Present else Absent;
          SignatureDetectionResult.Coordinates :=
            js_or (prop (u16 "signature_coordinates")) JNull;
          SignatureDetectionResult.Confidence :=
            js_or (prop (u16 "confidence_score")) (JNum 0.7);
          SignatureDetectionResult.PersonName :=
            or_undefined (prop (u16 "person_name"));
          SignatureDetectionResult.Date := or_undefined (prop (u16 "date_found")) |};
     Analysis.StampValidation :=
       if truthy (prop (u16 "official_stamp_match")) then Y_ else N_;
     Analysis.MatchedStampType := or_undefined (prop (u16 "matched_stamp_type"));
     Analysis.PersonName := or_undefined (prop (u16 "person_name"));
     Analysis.Date := or_undefined (prop (u16 "date_found")) |}.

(** [/\{[\s\S]*\}/] *)
Definition jsonPattern : regex :=
  cat [Cls (chr 123); star any_unit; Cls (chr 125)].

(** [data.response?.trim()] *)
Definition optional_trim (v : JSValue) : Exn + JSValue :=
  match v with
  | JUndefined | JNull => inr JUndefined
  | JStr s => inr (JStr (trim s))
  | _ => inl type_error
  end.

(** The inner [try]: the reply parsed, or the fallback analysis in its
    place when no JSON is found in the reply or it does not parse. *)
Definition parse_reply `{Runtime} (analysisText extractedText : jsstring) : JSValue :=
  match regex_match jsonPattern analysisText with
  | Some jsonMatch =>
      match JSON_parse (whole jsonMatch) with
      | Some v => v
      | None => Analysis.to_js (fallbackTextAnalysis extractedText)
      end
  | None => Analysis.to_js (fallbackTextAnalysis extractedText)
  end.

Definition analyzeWithOllama `{Runtime} (file : File) (extractedText userId : jsstring)
    : M Analysis.t :=
  let* base64Data := fileToBase64 file in
  try_catch
    (let* r := fetch_ollama in
     let* data := json_body (u16 "Ollama") r in
     let* response := lift (get data (u16 "response")) in
     let* analysisText := lift (optional_trim response) in
     match analysisText with
     | JStr (c :: t) =>
         let analysisResult := parse_reply (c :: t) extractedText in
         exec lift (get analysisResult (u16 "stamp_detected")) in
         ret (convert (prop_of analysisResult))
     | _ => throw (Err (u16 "No response from Ollama model"))
     end)
    (λ error, ret (fallbackTextAnalysis extractedText)).

Definition defaulted (time : Z) : StampSignatureAnalysisResult.t :=
  {| StampSignatureAnalysisResult.Stamp :=
       {| StampDetectionResult.Status := Absent;
          StampDetectionResult.Coordinates := JNull;
          StampDetectionResult.Type_ := JUndefined;
          StampDetectionResult.Confidence := JUndefined;
          StampDetectionResult.ExtractedText := JUndefined;
          StampDetectionResult.PersonName := JUndefined;
          StampDetectionResult.Date := JUndefined |};
     StampSignatureAnalysisResult.Signature :=
       {| SignatureDetectionResult.Status := Absent;
          SignatureDetectionResult.Coordinates := JNull;
          SignatureDetectionResult.Confidence := JUndefined;
          SignatureDetectionResult.PersonName := JUndefined;
          SignatureDetectionResult.Date := JUndefined |};
     StampSignatureAnalysisResult.StampValidation := N_;
     StampSignatureAnalysisResult.MatchedStampType := JUndefined;
     StampSignatureAnalysisResult.ProcessingTime := time;
     StampSignatureAnalysisResult.ExtractedText := JUndefined;
     StampSignatureAnalysisResult.PersonName := JUndefined;
     StampSignatureAnalysisResult.Date := JUndefined |}.

(** The file is read twice: by the text extraction, and again by
    [analyzeWithOllama], before its [try]. *)
Definition analyzeStampsAndSignatures `{Runtime} (file : File) (userId : jsstring)
    : M StampSignatureAnalysisResult.t :=
  let* startTime := now in
  try_catch
    (exec logAction userId (u16 "stamp_signature_analysis_start") (u16 "document")
            (file_name file)
            (list_to_map
               [(u16 "fileSize", JNum (inject_Z (Z.of_N (file_size file))));
                (u16 "fileType", JStr (file_type file));
                (u16 "processor", JStr (u16 "ollama_gemma3"))]) in
     let* textExtractionResult := Ollama.extractTextFromDocument file userId in
     let extractedText := Ollama.extractedText textExtractionResult in
     let* analysisResult :=
       analyzeWithOllama (next_read file) extractedText userId in
     let* t := now in
     let processingTime := (t - startTime)%Z in
     let result :=
       {| StampSignatureAnalysisResult.Stamp := Analysis.Stamp analysisResult;
          StampSignatureAnalysisResult.Signature := Analysis.Signature analysisResult;
          StampSignatureAnalysisResult.StampValidation :=
            Analysis.StampValidation analysisResult;
          StampSignatureAnalysisResult.MatchedStampType :=
            Analysis.MatchedStampType analysisResult;
          StampSignatureAnalysisResult.ProcessingTime := processingTime;
          StampSignatureAnalysisResult.ExtractedText := JStr extractedText;
          StampSignatureAnalysisResult.PersonName := Analysis.PersonName analysisResult;
          StampSignatureAnalysisResult.Date := Analysis.Date analysisResult |} in
     exec logAction userId (u16 "stamp_signature_analysis_complete") (u16 "document")
            (file_name file)
            (list_to_map
               [(u16 "stampStatus",
                 status_js (StampDetectionResult.Status (Analysis.Stamp analysisResult)));
                (u16 "signatureStatus",
                 status_js (SignatureDetectionResult.Status
                              (Analysis.Signature analysisResult)));
                (u16 "stampValidation",
                 validation_js (Analysis.StampValidation analysisResult));
                (u16 "personName", Analysis.PersonName analysisResult);
                (u16 "date", Analysis.Date analysisResult);
                (u16 "processingTime", JNum (inject_Z processingTime))]) in
     ret result)
    (λ error,
       let errorMessage := message_or (u16 "Analysis failed") error in
       exec logAction userId (u16 "stamp_signature_analysis_error") (u16 "document")
              (file_name file)
              (list_to_map [(u16 "error", JStr errorMessage)]) in
       let* t := now in
       ret (defaulted (t - startTime)%Z)).

(** Get the master list of official stamps: the [id] and the [name] of each
    record. *)
Definition getMasterStampList : list (jsstring * jsstring) :=
  (λ stamp, (id stamp, name stamp)) <$> OFFICIAL_STAMP_MASTER_LIST.

Definition checkServiceHealth : M JSValue :=
  try_catch Ollama.checkServiceHealth (λ error, ret (JBool false)).

End Stamp.

(** ** OpenAIService *)

Module OpenAI.

(** The field types the services switch on; [other] stands for any type
    that reaches the [default] branch. *)
Inductive FieldType :=
| text | textarea | number | date | select | other (name : jsstring).

(** [field_id] is the [id] of the field ([DocumentType] has an [id] of its
    own). *)
Record TemplateField := {
  field_id : jsstring;
  label : jsstring;
  type : FieldType;
  required : bool;
  options : option (list jsstring)
}.

Record DocumentType := {
  id : jsstring;
  name : jsstring;
  category : jsstring;
  template : list TemplateField
}.

Record FieldExtraction := {
  fe_documentType : JSValue;
  fe_confidence : JSValue;
  fe_reasoning : JSValue;
  fe_extractedFields : gmap jsstring JSValue;
  fe_fieldMappingDetails : JSValue
}.

Record OpenAIAnalysisResult := {
  documentType : JSValue;
  confidence : JSValue;
  reasoning : JSValue;
  extractedFields : gmap jsstring JSValue;
  templateMatch : option DocumentType;
  fieldMappingDetails : JSValue
}.

(** The [switch (field.type)] that [extractFieldsBasic] and
    [ensureAllFieldsPresent] both carry; for [select] it is
    [field.options?.[0] || '']. *)
Definition type_default (field : TemplateField) : JSValue :=
  match type field with
  | text | textarea => JStr []
  | number => JNull
  | date => JNull
  | select =>
      js_or (of_opt_string (options field ≫= λ o, o !! 0)) (JStr [])
  | other _ => JStr []
  end.

Definition name_value_class : charset := λ c, is_letter c || is_space c.

(** The tail [\s*:?\s*([a-z\s]+)] three of the patterns share. *)
Definition labelled (heads : list regex) : regex :=
  cat [alt heads; star is_space; opt (chr 58); star is_space;
       Grp (plus name_value_class)].

(** [patterns], in the order [Object.entries] lists them. *)
Definition patterns : list (jsstring * regex) :=
  [ (u16 "name",
     labelled [lit_i (u16 "name"); lit_i (u16 "officer"); lit_i (u16 "recipient");
               lit_i [2358; 2381; 2352; 2368]%N; lit_i (u16 "sri")]);
    (u16 "date",
     Grp (cat [Rep is_digit 1 (Some 2); Cls (one_of (u16 "-/"));
               Rep is_digit 1 (Some 2); Cls (one_of (u16 "-/"));
               Rep is_digit 2 (Some 4)]));
    (u16 "station",
     labelled [lit_i (u16 "station"); lit_i (u16 "police");
               lit_i [2341; 2366; 2344; 2366]%N]);
    (u16 "rank",
     labelled [lit_i (u16 "rank"); lit_i [2346; 2342]%N]) ].

(** The field a pattern key is mapped to: the first one whose label or id
    contains the key. *)
Definition matchingField (key : jsstring) (template : DocumentType)
    : option TemplateField :=
  snd <$> list_find
    (λ field, includes (toLowerCase (label field)) key
              || includes (toLowerCase (field_id field)) key = true)
    (OpenAI.template template).

Definition initial_fields (template : DocumentType) : PlainObject :=
  foldl (λ fields field, assign fields (field_id field) (type_default field))
        new_object (OpenAI.template template).

Definition apply_pattern (text : jsstring) (template : DocumentType)
    (fields : PlainObject) (entry : jsstring * regex) : PlainObject :=
  match regex_match entry.2 text with
  | Some {| group1 := Some (c :: g) |} =>
      match matchingField entry.1 template with
      | Some field => assign fields (field_id field) (JStr (trim (c :: g)))
      | None => fields
      end
  | _ => fields
  end.

(** The object returned, by its own properties. *)
Definition extractFieldsBasic (text : jsstring) (template : DocumentType)
    : gmap jsstring JSValue :=
  own (foldl (apply_pattern text template) (initial_fields template) patterns).

Definition getTemplateKeywords (template : DocumentType) : list jsstring :=
  let keywords := split 32 (toLowerCase (name template)) in
  let keywords := keywords ++ [toLowerCase (category template)] in
  let keywords :=
    foldl (λ keywords field, keywords ++ split 32 (toLowerCase (label field)))
          keywords (OpenAI.template template) in
  let keywords :=
    if decide (id template = u16 "transfer")
    then keywords ++ [u16 "transfer"; u16 "posting"; u16 "station"; u16 "order"]
    else if decide (id template = u16 "award")
    then keywords ++ [u16 "award"; u16 "certificate"; u16 "recognition"; u16 "medal"]
    else if decide (id template = u16 "complaint")
    then keywords ++ [u16 "complaint"; u16 "grievance"; u16 "disciplinary"]
    else keywords in
  set_of keywords.

(** [completeFields] is a fresh object, and [field.id in completeFields]
    is true of the names it inherits too: these are never written. *)
Definition ensureAllFieldsPresent (extractedFields : JSValue)
    (template : DocumentType) : gmap jsstring JSValue :=
  foldl (λ completeFields field,
           if has_property completeFields (field_id field)
           then completeFields
           else <[field_id field := type_default field]> completeFields)
        (spread extractedFields) (OpenAI.template template).

Definition fence_json : regex := cat [lit (u16 "```json"); star is_space].
Definition fence : regex := cat [lit (u16 "```"); star is_space].

Definition cleanJsonResponse (content : jsstring) : jsstring :=
  let content := replace_all_empty fence (replace_all_empty fence_json content) in
  let content := trim content in
  match indexOf 123 content, lastIndexOf 125 content with
  | Some firstBrace, Some lastBrace =>
      if decide (firstBrace < lastBrace)
      then substring firstBrace (lastBrace + 1) content
      else content
  | _, _ => content
  end.

(** The number of keywords of a template the lowered text contains. *)
Definition matchCount (textLower : jsstring) (template : DocumentType) : nat :=
  length (filter (λ keyword, includes textLower (toLowerCase keyword) = true)
                 (getTemplateKeywords template)).

(** The loop of [createFallbackAnalysis]: the template it ends with
    ([None] is [undefined], the first element of an empty list) and the
    confidence. *)
Definition keywordMatching (text : jsstring) (templates : list DocumentType)
    : option DocumentType * Q :=
  let textLower := toLowerCase text in
  match list_find (λ template, 0 < matchCount textLower template) templates with
  | Some (_, template) =>
      (Some template,
       Qmin 0.8 (0.5 + inject_Z (Z.of_nat (matchCount textLower template)) * 0.1)%Q)
  | None => (templates !! 0, 0.5%Q)
  end.

Definition createFallbackAnalysis (text : jsstring) (templates : list DocumentType)
    (userId : jsstring) : M OpenAIAnalysisResult :=
  let (best, conf) := keywordMatching text templates in
  match best with
  | None => throw type_error
  | Some bestTemplate =>
      let fields := extractFieldsBasic text bestTemplate in
      exec logAction userId (u16 "openai_fallback_analysis") (u16 "document")
             (u16 "text_analysis")
             (list_to_map [(u16 "templateUsed", JStr (name bestTemplate));
                           (u16 "confidence", JNum conf)]) in
      ret {| documentType := JStr (name bestTemplate);
             confidence := JNum conf;
             reasoning :=
               JStr (u16 "Fallback analysis using keyword matching and pattern recognition");
             extractedFields := fields;
             templateMatch := Some bestTemplate;
             fieldMappingDetails := JArr [] |}
  end.

Definition createFallbackFieldExtraction (text : jsstring) (template : DocumentType)
    : FieldExtraction :=
  let fields := extractFieldsBasic text template in
  {| fe_documentType := JStr (name template);
     fe_confidence := JNum 0.6;
     fe_reasoning := JStr (u16 "Fallback field extraction using pattern matching");
     fe_extractedFields := fields;
     fe_fieldMappingDetails := JArr [] |}.

(** The chat completion request up to the parsed reply:
    [data.choices[0].message.content.trim()], [cleanJsonResponse],
    [JSON.parse]. *)
Definition completion `{Runtime} : M JSValue :=
  let* r := fetch_openai in
  let* data := json_body (u16 "OpenAI") r in
  let* choices := lift (get data (u16 "choices")) in
  let* choice := lift (get0 choices) in
  let* message := lift (get choice (u16 "message")) in
  let* content := lift (get message (u16 "content")) in
  let* content := lift (call_trim content) in
  match JSON_parse (cleanJsonResponse content) with
  | Some v => ret v
  | None => throw syntax_error
  end.

Definition findBestTemplate `{Runtime} (text : jsstring) (templates : list DocumentType)
    : M (option DocumentType) :=
  try_catch
    (let* analysis := completion in
     let* bestTemplateId := lift (get analysis (u16 "bestTemplateId")) in
     ret (snd <$> list_find (λ t, is_string bestTemplateId (id t) = true) templates))
    (λ error, ret (templates !! 0)).

Definition extractFieldsForTemplate `{Runtime} (text : jsstring)
    (template : DocumentType) (allTemplates : list DocumentType)
    : M FieldExtraction :=
  try_catch
    (let* extraction := completion in
     let* fields := lift (get extraction (u16 "extractedFields")) in
     let completeFields := ensureAllFieldsPresent fields template in
     ret {| fe_documentType :=
              js_or (prop_of extraction (u16 "documentType"))
                    (JStr (name template));
            fe_confidence :=
              js_or (prop_of extraction (u16 "confidence")) (JNum 0.7);
            fe_reasoning :=
              js_or (prop_of extraction (u16 "reasoning"))
                    (JStr (u16 "Automated field extraction completed"));
            fe_extractedFields := completeFields;
            fe_fieldMappingDetails :=
              js_or (prop_of extraction (u16 "fieldMappingDetails")) (JArr []) |})
    (λ error, ret (createFallbackFieldExtraction text template)).

(** The first statement of [analyzeDocument]: the start of the analysis is
    logged. *)
Definition log_start (extractedText : jsstring)
    (availableTemplates : list DocumentType) (userId : jsstring) : M unit :=
  logAction userId (u16 "openai_analysis_start") (u16 "document")
    (u16 "text_analysis")
    (list_to_map
       [(u16 "textLength", js_nat (length extractedText));
        (u16 "templatesCount", js_nat (length availableTemplates))]).

Definition analyzeDocument `{Runtime} (extractedText : jsstring)
    (availableTemplates : list DocumentType) (userId : jsstring)
    : M OpenAIAnalysisResult :=
  try_catch
    (exec log_start extractedText availableTemplates userId in
     let* found := findBestTemplate extractedText availableTemplates in
     match found with
     | None => createFallbackAnalysis extractedText availableTemplates userId
     | Some matched =>
         let* fieldExtractionResult :=
           extractFieldsForTemplate extractedText matched availableTemplates in
         let result :=
           {| documentType := fe_documentType fieldExtractionResult;
              confidence := fe_confidence fieldExtractionResult;
              reasoning := fe_reasoning fieldExtractionResult;
              extractedFields := fe_extractedFields fieldExtractionResult;
              templateMatch := Some matched;
              fieldMappingDetails :=
                js_or (fe_fieldMappingDetails fieldExtractionResult) (JArr []) |} in
         exec logAction userId (u16 "openai_analysis_complete") (u16 "document")
                (u16 "text_analysis")
                (list_to_map
                   [(u16 "documentType", documentType result);
                    (u16 "confidence", confidence result);
                    (u16 "templateMatched", JStr (name matched));
                    (u16 "fieldsExtracted", js_nat (size (extractedFields result)))]) in
         ret result
     end)
    (λ error,
       exec logAction userId (u16 "openai_analysis_error") (u16 "document")
              (u16 "text_analysis")
              (list_to_map
                 [(u16 "error", JStr (message_or (u16 "Unknown error") error))]) in
       createFallbackAnalysis extractedText availableTemplates userId).

Definition type_name (t : FieldType) : jsstring :=
  match t with
  | text => u16 "text"
  | textarea => u16 "textarea"
  | number => u16 "number"
  | date => u16 "date"
  | select => u16 "select"
  | other name => name
  end.

(** [l.join(sep)] *)
Fixpoint join (sep : jsstring) (l : list jsstring) : jsstring :=
  match l with
  | [] => []
  | [x] => x
  | x :: l' => x ++ sep ++ join sep l'
  end.

Definition getTemplateDescription (template : DocumentType) : jsstring :=
  let fieldDescriptions :=
    join (u16 ", ")
      ((λ field,
          label field ++ u16 " (" ++ type_name (type field)
          ++ (if required field then u16 ", required" else []) ++ u16 ")")
         <$> OpenAI.template template) in
  category template ++ u16 " document with fields: " ++ fieldDescriptions.

(** The request goes to [/models]; the body is not read. *)
Definition checkServiceHealth : M bool :=
  try_catch
    (let* r := fetch_openai in response_ok r)
    (λ error, ret false).

End OpenAI.

(** ** The wording of the specification

    The definitions the theorems are stated with: those that follow the
    sentences of the specification, to be compared with the code above, and
    a reading of what a reply of the vision service carries. *)

Module Spec.

(** Section 4.1: start at 0.7; +0.1 if length > 100; +0.1 if length > 500;
    -0.2 if length < 20; +0.05 if the text contains both a digit and a
    letter; +0.05 if it contains punctuation; +0.02 per distinct domain
    keyword matched; clamped to [0,1].  Punctuation is read as the marks
    the code tests for, the domain keywords as the code's list. *)
Definition is_punctuation (c : N) : bool := bool_decide (c ∈ u16 ".,;:!?").

Definition bonus (b : bool) (q : Q) : Q := if b then q else 0%Q.

Definition keyword_bonus (text : jsstring) : Q :=
  foldr (λ keyword acc,
           (bonus (includes (toLowerCase text) keyword) 0.02 + acc)%Q)
        0%Q Ollama.documentKeywords.

Definition total (over100 over500 under20 digit_and_letter punctuation : bool)
    (keywords : Q) : Q :=
  0.7 + bonus over100 0.1 + bonus over500 0.1 - bonus under20 0.2
      + bonus digit_and_letter 0.05 + bonus punctuation 0.05 + keywords.

Definition confidence (text : jsstring) : Q :=
  let len := length text in
  Qmax 0 (Qmin 1
    (total (bool_decide (100 < len)) (bool_decide (500 < len))
           (bool_decide (len < 20))
           (existsb is_digit text && existsb is_letter text)
           (existsb is_punctuation text)
           (keyword_bonus text))).

(** The same formula carried out in doubles, step by step in the order of
    the sentence: a step that does not apply adds zero, and every sum is
    rounded to the nearest double. *)
Definition double_bonus (b : bool) (x : spec_float) : spec_float :=
  if b then x else Double.of_Z 0.

Definition keyword_count (text : jsstring) : nat :=
  foldr (λ keyword n, if includes (toLowerCase text) keyword then S n else n)
        0 Ollama.documentKeywords.

Definition double_total (over100 over500 under20 digit_and_letter punctuation : bool)
    (keywords : nat) : spec_float :=
  Double.add
    (Double.add
       (Double.add
          (Double.sub
             (Double.add
                (Double.add (Double.literal 7 10)
                            (double_bonus over100 (Double.literal 1 10)))
                (double_bonus over500 (Double.literal 1 10)))
             (double_bonus under20 (Double.literal 2 10)))
          (double_bonus digit_and_letter (Double.literal 5 100)))
       (double_bonus punctuation (Double.literal 5 100)))
    (Double.mul (Double.of_Z (Z.of_nat keywords)) (Double.literal 2 100)).

Definition double_clamp (x : spec_float) : spec_float :=
  Double.max (Double.of_Z 0) (Double.min (Double.of_Z 1) x).

Definition double_confidence (text : jsstring) : Q :=
  let len := length text in
  Double.to_Q
    (double_clamp
       (double_total (bool_decide (100 < len)) (bool_decide (500 < len))
          (bool_decide (len < 20))
          (existsb is_digit text && existsb is_letter text)
          (existsb is_punctuation text)
          (keyword_count text))).

(** What the vision service's reply gives stage 1: the trimmed [response]
    text, when the body is an object whose [response] is a non-empty
    string. *)
Definition vision_text (r : HttpReply) : option jsstring :=
  match r with
  | Body (JObj m) =>
      match m !! u16 "response" with
      | Some (JStr (c :: s)) => Some (trim (c :: s))
      | _ => None
      end
  | _ => None
  end.

(** What the reply to the analysis request gives the stamp analyzer: the
    trimmed [response] text, when there is one and it is not empty. *)
Definition analysis_text (r : HttpReply) : option jsstring :=
  match r with
  | Body (JObj m) =>
      match m !! u16 "response" with
      | Some (JStr s) =>
          match trim s with
          | [] => None
          | c :: t => Some (c :: t)
          end
      | _ => None
      end
  | _ => None
  end.

(** The world once the next reply of the vision service has been
    consumed. *)
Definition after_ollama (w : World) : World :=
  {| audit := audit w; clock := clock w;
     ollama := tl (ollama w); openai := openai w |}.

(** A confidence that is a number of [0,1]. *)
Definition in_unit_interval (v : JSValue) : Prop :=
  ∃ q, v = JNum q ∧ (0 <= q)%Q ∧ (q <= 1)%Q.

(** The ids of the fields of a template. *)
Definition field_ids (template : OpenAI.DocumentType) : gset jsstring :=
  list_to_set (OpenAI.field_id <$> OpenAI.template template).

(** Sections 3 and 4.4: the type default of a field is the empty string
    for text and textarea, null for number and date, the first option or
    the empty string for select. *)
Definition type_default (field : OpenAI.TemplateField) : JSValue :=
  match OpenAI.type field with
  | OpenAI.text | OpenAI.textarea => JStr []
  | OpenAI.number | OpenAI.date => JNull
  | OpenAI.select => JStr (hd [] (default [] (OpenAI.options field)))
  | OpenAI.other _ => JStr []
  end.

Definition fields_with_id (template : OpenAI.DocumentType) (k : jsstring)
    : list OpenAI.TemplateField :=
  filter (λ field, OpenAI.field_id field = k) (OpenAI.template template).

(** The default a key is initialised to (the last field of that id decides
    when an id occurs twice), and the default a missing key is completed
    with (the first field of that id). *)
Definition initial_default (template : OpenAI.DocumentType) (k : jsstring)
    : option JSValue :=
  type_default <$> last (fields_with_id template k).

Definition completion_default (template : OpenAI.DocumentType) (k : jsstring)
    : option JSValue :=
  type_default <$> head (fields_with_id template k).

(** A value that conforms to a field type. *)
Definition conforms (t : OpenAI.FieldType) (v : JSValue) : Prop :=
  match t, v with
  | (OpenAI.text | OpenAI.textarea | OpenAI.select | OpenAI.other _), JStr _ => True
  | OpenAI.number, (JNum _ | JNull) => True
  | OpenAI.date, (JStr _ | JNull) => True
  | _, _ => False
  end.

End Spec.

(** ** The assignments of the fallback extraction *)

(** [extractFieldsBasic] read as the list of the assignments it makes, for
    the proofs about it. *)
Module Fallback.

(** The test of [extractFieldsBasic] for the field of a pattern: the
    lowered label or the lowered id contains the key. *)
Definition contains_key (key : jsstring) (field : OpenAI.TemplateField) : bool :=
  includes (toLowerCase (OpenAI.label field)) key
  || includes (toLowerCase (OpenAI.field_id field)) key.

Fixpoint first_field (key : jsstring) (fields : list OpenAI.TemplateField)
    : option OpenAI.TemplateField :=
  match fields with
  | [] => None
  | field :: fields' =>
      if contains_key key field then Some field else first_field key fields'
  end.

Definition captured (pattern : regex) (text : jsstring) : option jsstring :=
  regex_match pattern text ≫= λ m, trim <$> group1 m.

(** The assignment a pattern makes, if any: the id of its field and the
    value. *)
Definition assignment (text : jsstring) (template : OpenAI.DocumentType)
    (entry : jsstring * regex) : option (jsstring * JSValue) :=
  match captured entry.2 text, first_field entry.1 (OpenAI.template template) with
  | Some value, Some field => Some (OpenAI.field_id field, JStr value)
  | _, _ => None
  end.

(** The assignments the fallback extraction makes, in order: the type
    default of every field, then what the patterns captured. *)
Definition writes (text : jsstring) (template : OpenAI.DocumentType)
    : list (jsstring * JSValue) :=
  ((λ field, (OpenAI.field_id field, OpenAI.type_default field))
     <$> OpenAI.template template)
  ++ omap (assignment text template) OpenAI.patterns.

(** The value of a key after the fallback extraction: the value of the
    last pattern (in the order name, date, station, rank) assigned to it,
    else the default it was initialised to. *)
Definition fallback_field (text : jsstring) (template : OpenAI.DocumentType)
    (k : jsstring) : option JSValue :=
  match last (filter (λ a, a.1 = k) (omap (assignment text template) OpenAI.patterns)) with
  | Some a => Some a.2
  | None => Spec.initial_default template k
  end.

End Fallback.

(** ** Shapes of strings the further properties speak of *)

Module Shape.

Definition whitespace (s : jsstring) : Prop := Forall (λ c, is_space c = true) s.

(** No whitespace at either end. *)
Definition trimmed (s : jsstring) : Prop :=
  (∀ c, head s = Some c → is_space c = false)
  ∧ (∀ c, last s = Some c → is_space c = false).

(** The text of a JSON object as a model writes it: from an opening to a
    closing brace, with no backtick inside. *)
Definition object_text (j : jsstring) : Prop :=
  (∃ body, j = [123%N] ++ body ++ [125%N]) ∧ 96%N ∉ j.

Definition digits (s : jsstring) : Prop := Forall (λ c, is_digit c = true) s.

Definition separator (c : N) : Prop := c = 45%N ∨ c = 47%N.

(** One or two digits, a hyphen or a slash, one or two digits, a hyphen or
    a slash, two to four digits. *)
Definition date_shape (d : jsstring) : Prop :=
  ∃ dd s1 mm s2 yy,
    d = dd ++ [s1] ++ mm ++ [s2] ++ yy
    ∧ digits dd ∧ 1 ≤ length dd ≤ 2 ∧ separator s1
    ∧ digits mm ∧ 1 ≤ length mm ≤ 2 ∧ separator s2
    ∧ digits yy ∧ 2 ≤ length yy ≤ 4.

(** [s] occurs in [t]. *)
Definition occurs_in (s t : jsstring) : Prop := ∃ a b, t = a ++ s ++ b.

(** A string of ASCII characters, and a template whose name, category and
    field labels are such strings. *)
Definition ascii (s : jsstring) : Prop := Forall (λ c, (c < 128)%N) s.

Definition ascii_template (template : OpenAI.DocumentType) : Prop :=
  ascii (OpenAI.name template) ∧ ascii (OpenAI.category template)
  ∧ Forall (λ field, ascii (OpenAI.label field)) (OpenAI.template template).

End Shape.

(** ** Concrete inputs used by the examples *)

(** The text a chat completion carries: [data.choices[0].message.content],
    when every step of the path is there and the content is a string. *)
Module Chat.

Definition content (r : HttpReply) : option jsstring :=
  match r with
  | Body data =>
      match get data (u16 "choices") with
      | inr choices =>
          match get0 choices with
          | inr choice =>
              match get choice (u16 "message") with
              | inr message =>
                  match get message (u16 "content") with
                  | inr (JStr s) => Some s
                  | _ => None
                  end
              | inl _ => None
              end
          | inl _ => None
          end
      | inl _ => None
      end
  | _ => None
  end.

End Chat.

(** How a call moved the world: the entries it added to the audit log and
    the number of replies of the vision and of the chat service it
    consumed. *)
Module Trace.

Definition advanced (w w' : World) (entries : list AuditEntry)
    (vision chat : nat) : Prop :=
  audit w' = audit w ++ entries
  ∧ ollama w' = drop vision (ollama w)
  ∧ openai w' = drop chat (openai w).

(** Entries logged for one user about one resource. *)
Definition about (userId resourceId : jsstring) (entries : list AuditEntry) : Prop :=
  Forall (λ e, a_user e = userId ∧ a_resourceId e = resourceId) entries.

Definition actions (entries : list AuditEntry) : list jsstring :=
  a_action <$> entries.

End Trace.

Module Examples.

Definition user : jsstring := u16 "admin1".

Definition scan : File :=
  {| file_name := u16 "order.png"; file_size := 2048;
     file_type := u16 "image/png";
     contents := Some (u16 "data:image/png;base64,iVBORw0KGgo=");
     later := [] |}.

(** The same file when its second read fails. *)
Definition fading_scan : File :=
  {| file_name := u16 "order.png"; file_size := 2048;
     file_type := u16 "image/png";
     contents := Some (u16 "data:image/png;base64,iVBORw0KGgo=");
     later := [None] |}.

(** A text of 523 code units with a digit, letters, punctuation and the
    three domain keywords officer, name and police. *)
Definition long_text : jsstring :=
  u16 "Officer name: 12, police." ++ replicate 498 120%N.

Definition stamp_text : jsstring :=
  u16 "OFFICER COMMANDING 14th BN A.P.S.P. ANANTHAPURAMU".

(** A reply of the vision model that reports a stamp but no official
    match, and one that reports a confidence of 1.5. *)
Definition reply_no_match : jsstring :=
  json_text "{'stamp_detected': true, 'official_stamp_match': false}".

Definition reply_overconfident : jsstring :=
  json_text "{'stamp_detected': true, 'confidence_score': 1.5}".

(** An extraction reply of the language model with a key that is no field
    of the template and a text where a number is expected. *)
Definition reply_extra_key : jsstring :=
  json_text "{'extractedFields': {'remarks': 'urgent', 'days': 'three'}}".

Definition leave_letter : OpenAI.DocumentType :=
  {| OpenAI.id := u16 "leave"; OpenAI.name := u16 "Leave Letter";
     OpenAI.category := u16 "personnel";
     OpenAI.template :=
       [ {| OpenAI.field_id := u16 "officer_name"; OpenAI.label := u16 "Officer Name";
            OpenAI.type := OpenAI.text; OpenAI.required := true;
            OpenAI.options := None |};
         {| OpenAI.field_id := u16 "days"; OpenAI.label := u16 "Days";
            OpenAI.type := OpenAI.number; OpenAI.required := false;
            OpenAI.options := None |} ] |}.

Definition award : OpenAI.DocumentType :=
  {| OpenAI.id := u16 "award"; OpenAI.name := u16 "Award";
     OpenAI.category := u16 "reward"; OpenAI.template := [] |}.

(** A template with a field whose id is the name of the accessor every
    object inherits. *)
Definition proto_template : OpenAI.DocumentType :=
  {| OpenAI.id := u16 "memo"; OpenAI.name := u16 "Memo";
     OpenAI.category := u16 "general";
     OpenAI.template :=
       [ {| OpenAI.field_id := u16 "__proto__"; OpenAI.label := u16 "Prototype";
            OpenAI.type := OpenAI.text; OpenAI.required := false;
            OpenAI.options := None |};
         {| OpenAI.field_id := u16 "days"; OpenAI.label := u16 "Days";
            OpenAI.type := OpenAI.number; OpenAI.required := false;
            OpenAI.options := None |} ] |}.

(** A template with a field whose id is a method every object inherits. *)
Definition constructor_template : OpenAI.DocumentType :=
  {| OpenAI.id := u16 "works"; OpenAI.name := u16 "Works";
     OpenAI.category := u16 "general";
     OpenAI.template :=
       [ {| OpenAI.field_id := u16 "constructor"; OpenAI.label := u16 "Constructor";
            OpenAI.type := OpenAI.text; OpenAI.required := false;
            OpenAI.options := None |};
         {| OpenAI.field_id := u16 "days"; OpenAI.label := u16 "Days";
            OpenAI.type := OpenAI.number; OpenAI.required := false;
            OpenAI.options := None |} ] |}.

(** A template whose name was entered with a space at its end. *)
Definition circular : OpenAI.DocumentType :=
  {| OpenAI.id := u16 "circular"; OpenAI.name := u16 "Circular ";
     OpenAI.category := u16 "general"; OpenAI.template := [] |}.

(** [JSON.parse] on the texts the examples use. *)
Definition runtime : Runtime :=
  table_parser
    [ (reply_extra_key,
       JObj {[ u16 "extractedFields" :=
                 JObj (list_to_map [(u16 "remarks", JStr (u16 "urgent"));
                                    (u16 "days", JStr (u16 "three"))]) ]});
      (reply_no_match,
       JObj (list_to_map [(u16 "stamp_detected", JBool true);
                          (u16 "official_stamp_match", JBool false)]));
      (reply_overconfident,
       JObj (list_to_map [(u16 "stamp_detected", JBool true);
                          (u16 "confidence_score", JNum 1.5)])) ].

(** A chat completion whose message content is the given text. *)
Definition chat_reply (content : jsstring) : HttpReply :=
  Body (JObj {[ u16 "choices" :=
    JArr [JObj {[ u16 "message" := JObj {[ u16 "content" := JStr content ]} ]}] ]}).

Definition generate_reply (response : jsstring) : HttpReply :=
  Body (JObj {[ u16 "response" := JStr response ]}).

Definition world (ollama_replies openai_replies : list HttpReply) : World :=
  {| audit := []; clock := [1000; 1750; 2500]%Z;
     ollama := ollama_replies; openai := openai_replies |}.

End Examples.

(** ** Strings and regular expressions: basic facts *)

Lemma includes_nil_r (s : jsstring) : includes s [] = true.
Proof. destruct s; reflexivity. Qed.

Lemma includes_nil_l (p : jsstring) : includes [] p = true ↔ p = [].
Proof. destruct p; simpl; split; congruence. Qed.

Lemma split_nonempty (sep : N) (s : jsstring) : split sep s ≠ [].
Proof.
  induction s as [|c s IH]; simpl; [done|].
  destruct (c =? sep)%N; [done|]. destruct (split sep s); done.
Qed.

(** A one-class pattern tests true exactly when some code unit is in the
    class. *)
Lemma regex_match_cls (cs : charset) (s : jsstring) :
  is_Some (regex_match (Cls cs) s) ↔ existsb cs s = true.
Proof.
  induction s as [|c s IH]; simpl.
  - unfold match_at; simpl. split; [intros [? ?]; done | done].
  - unfold match_at; simpl. destruct (cs c); simpl.
    + split; [done | eauto].
    + exact IH.
Qed.

Lemma regex_test_cls (cs : charset) (s : jsstring) :
  regex_test (Cls cs) s = existsb cs s.
Proof.
  unfold regex_test. destruct (existsb cs s) eqn:E.
  - apply bool_decide_eq_true. by apply regex_match_cls.
  - apply bool_decide_eq_false. rewrite regex_match_cls. congruence.
Qed.

Lemma rep_greedy_cont {A} (cs : charset) (s : jsstring) :
  ∀ lo hi (k : jsstring → option A) x,
    rep_greedy cs lo hi s k = Some x →
    ∃ s', k s' = Some x ∧ length s' ≤ length s ∧ (0 < lo → length s' < length s).
Proof.
  induction s as [|c s IH]; intros lo hi k x; simpl.
  - destruct lo; [|done]. intros Hk. exists []. split_and!; first [done | simpl; lia].
  - assert (match lo with 0 => k (c :: s) | S _ => None end = Some x →
            ∃ s', k s' = Some x ∧ length s' ≤ S (length s)
                  ∧ (0 < lo → length s' < S (length s))) as Hstop.
    { destruct lo; [|done]. intros Hk. exists (c :: s). simpl.
      split_and!; first [done | simpl; lia]. }
    destruct (cs c && hi_allows hi); [|exact Hstop].
    destruct (rep_greedy cs (pred lo) (pred <$> hi) s k) as [y|] eqn:E; [|exact Hstop].
    intros [= ->]. destruct (IH _ _ _ _ E) as (s' & Hk & Hle & _).
    exists s'. split_and!; first [done | simpl; lia].
Qed.

(** A successful run ends in its continuation, on a suffix of the input
    that is proper when the pattern is consuming, with the capture
    unchanged when the pattern has no group and non-empty when the pattern
    sets its group. *)
Lemma run_cont {A} (r : regex) :
  ∀ s cap (k : jsstring → option jsstring → option A) x,
    run r s cap k = Some x →
    ∃ s' cap',
      k s' cap' = Some x
      ∧ length s' ≤ length s
      ∧ (consuming r = true → length s' < length s)
      ∧ (has_group r = false → cap' = cap)
      ∧ (sets_group r = true → ∃ c g, cap' = Some (c :: g)).
Proof.
  induction r as [|cs|cs lo hi|r1 IH1 r2 IH2|r1 IH1 r2 IH2|r1 IH1];
    intros s cap k x; simpl.
  - intros Hk. exists s, cap. split_and!; first [done | simpl; lia].
  - destruct s as [|c s]; [done|]. destruct (cs c); [|done]. intros Hk.
    exists s, cap. split_and!; first [done | simpl; lia].
  - intros Hr. destruct (rep_greedy_cont cs s lo hi _ x Hr) as (s' & Hk & Hle & Hlt).
    exists s', cap. split_and!; try done.
    intros Hlo. apply Hlt. by apply bool_decide_eq_true in Hlo.
  - intros Hr.
    destruct (IH1 _ _ _ _ Hr) as (s1 & cap1 & Hr2 & Hle1 & Hlt1 & Hcap1 & Hset1).
    destruct (IH2 _ _ _ _ Hr2) as (s2 & cap2 & Hk & Hle2 & Hlt2 & Hcap2 & Hset2).
    exists s2, cap2. split; [done|]. split; [lia|]. split; [|split].
    + intros [Hc|Hc]%orb_true_iff; [specialize (Hlt1 Hc) | specialize (Hlt2 Hc)]; lia.
    + intros [Hg1 Hg2]%orb_false_iff. rewrite (Hcap2 Hg2). by apply Hcap1.
    + intros [Hs|[Hs Hg]%andb_true_iff]%orb_true_iff; [by apply Hset2|].
      apply negb_true_iff in Hg. rewrite (Hcap2 Hg). by apply Hset1.
  - intros Hr.
    destruct (run r1 s cap k) as [y|] eqn:E.
    + injection Hr as ->.
      destruct (IH1 _ _ _ _ E) as (s' & cap' & Hk & Hle & Hlt & Hcap & Hset).
      exists s', cap'. split; [done|]. split; [done|]. split; [|split].
      * intros [Hc _]%andb_true_iff. by apply Hlt.
      * intros [Hg _]%orb_false_iff. by apply Hcap.
      * intros [Hs _]%andb_true_iff. by apply Hset.
    + destruct (IH2 _ _ _ _ Hr) as (s' & cap' & Hk & Hle & Hlt & Hcap & Hset).
      exists s', cap'. split; [done|]. split; [done|]. split; [|split].
      * intros [_ Hc]%andb_true_iff. by apply Hlt.
      * intros [_ Hg]%orb_false_iff. by apply Hcap.
      * intros [_ Hs]%andb_true_iff. by apply Hset.
  - intros Hr.
    destruct (IH1 _ _ _ _ Hr) as (s' & cap' & Hk & Hle & Hlt & _ & _).
    eexists s', _. split; [exact Hk|]. split; [done|]. split; [done|].
    split; [done|]. intros Hc. specialize (Hlt Hc).
    destruct s as [|c s]; [simpl in Hlt; lia|].
    destruct (length (c :: s) - length s') as [|n] eqn:En; [lia|].
    simpl. eauto.
Qed.

(** A pattern that sets its group never matches with an empty or absent
    group: the test [match[1]] of the services never rejects a match. *)
Lemma regex_match_group (r : regex) (s : jsstring) (m : MatchResult) :
  sets_group r = true →
  regex_match r s = Some m → ∃ c g, group1 m = Some (c :: g).
Proof.
  intros Hset. induction s as [|c s IH]; simpl.
  - destruct (match_at r []) as [m'|] eqn:E; [|done]. intros [= ->].
    unfold match_at in E.
    destruct (run_cont r _ _ _ _ E) as (s' & cap' & [= <-] & _ & _ & _ & Hg).
    by apply Hg.
  - destruct (match_at r (c :: s)) as [m'|] eqn:E; [|exact IH]. intros [= ->].
    unfold match_at in E.
    destruct (run_cont r _ _ _ _ E) as (s' & cap' & [= <-] & _ & _ & _ & Hg).
    by apply Hg.
Qed.

(** ** Text extraction: the local confidence score *)

Lemma keyword_bonus_count (text : jsstring) :
  (Spec.keyword_bonus text
   == inject_Z (Z.of_nat (Ollama.keywordMatches text)) * 0.02)%Q.
Proof.
  unfold Spec.keyword_bonus, Ollama.keywordMatches.
  induction Ollama.documentKeywords as [|k l IH]; simpl.
  - reflexivity.
  - rewrite filter_cons. rewrite IH.
    destruct (decide (includes (toLowerCase text) k = true)) as [E|E].
    + rewrite E. simpl length. rewrite Nat2Z.inj_succ, <- Z.add_1_r, inject_Z_plus.
      unfold Spec.bonus. simpl inject_Z at 2. ring.
    + apply not_true_is_false in E. rewrite E. unfold Spec.bonus. ring.
Qed.

Lemma keywordMatches_le (text : jsstring) : Ollama.keywordMatches text ≤ 8.
Proof.
  unfold Ollama.keywordMatches.
  etrans; [apply length_filter|]. reflexivity.
Qed.

Lemma calculateConfidence_empty : Ollama.calculateConfidence [] = 0%Q.
Proof. reflexivity. Qed.

Lemma keyword_count_matches (text : jsstring) :
  Spec.keyword_count text = Ollama.keywordMatches text.
Proof.
  unfold Spec.keyword_count, Ollama.keywordMatches.
  induction Ollama.documentKeywords as [|k l IH]; [done|].
  cbn [foldr]. rewrite filter_cons, IH.
  destruct (decide (includes (toLowerCase text) k = true)) as [E|E].
  - by rewrite E.
  - apply not_true_is_false in E. by rewrite E.
Qed.

(** The exact formula with the tests and the keyword count of the code. *)
Lemma confidence_total (text : jsstring) :
  Qeq (Spec.confidence text)
    (Qmax 0 (Qmin 1
       (Spec.total (bool_decide (100 < length text)) (bool_decide (500 < length text))
          (bool_decide (length text < 20))
          (Ollama.hasNumbers text && Ollama.hasLetters text)
          (Ollama.hasPunctuation text)
          (inject_Z (Z.of_nat (Ollama.keywordMatches text)) * 0.02)))).
Proof.
  unfold Spec.confidence.
  unfold Ollama.hasNumbers, Ollama.hasLetters, Ollama.hasPunctuation.
  rewrite !regex_test_cls. unfold Spec.total.
  rewrite keyword_bonus_count. reflexivity.
Qed.

(** The code's chain of updates as one expression in doubles. *)
Lemma calculateConfidence_total (text : jsstring) :
  text ≠ [] →
  Ollama.calculateConfidence text
  = Double.to_Q
      (Spec.double_clamp
         (Spec.double_total (bool_decide (100 < length text))
            (bool_decide (500 < length text)) (bool_decide (length text < 20))
            (Ollama.hasNumbers text && Ollama.hasLetters text)
            (Ollama.hasPunctuation text)
            (Ollama.keywordMatches text))).
Proof.
  intros Hne. unfold Ollama.calculateConfidence.
  rewrite bool_decide_eq_false_2 by (destruct text; [done | simpl; lia]).
  pose proof (keywordMatches_le text) as Hk.
  set (k := Ollama.keywordMatches text) in *.
  set (b1 := bool_decide (100 < length text)).
  set (b2 := bool_decide (500 < length text)).
  set (b3 := bool_decide (length text < 20)).
  set (b4 := Ollama.hasNumbers text && Ollama.hasLetters text).
  set (b5 := Ollama.hasPunctuation text).
  clearbody k b1 b2 b3 b4 b5.
  destruct b1, b2, b3, b4, b5;
    (do 9 (destruct k as [|k]; [vm_compute; reflexivity|])); lia.
Qed.

(** Every value of the rounded formula lies between a quarter and one. *)
Lemma double_total_range (b1 b2 b3 b4 b5 : bool) (k : nat) :
  k ≤ 8 →
  (1 # 4 <= Double.to_Q (Spec.double_clamp (Spec.double_total b1 b2 b3 b4 b5 k)))%Q
  ∧ (Double.to_Q (Spec.double_clamp (Spec.double_total b1 b2 b3 b4 b5 k)) <= 1)%Q.
Proof.
  intros Hk.
  destruct b1, b2, b3, b4, b5;
    (do 9 (destruct k as [|k];
           [split; apply Qle_bool_imp_le; vm_compute; reflexivity|])); lia.
Qed.

(** Every value of the rounded formula is within 10^-15 of the exact
    one. *)
Lemma double_total_close (b1 b2 b3 b4 b5 : bool) (k : nat) :
  k ≤ 8 →
  (Qmax 0 (Qmin 1 (Spec.total b1 b2 b3 b4 b5 (inject_Z (Z.of_nat k) * 0.02)))
     - (1 # 1000000000000000)
   <= Double.to_Q (Spec.double_clamp (Spec.double_total b1 b2 b3 b4 b5 k)))%Q
  ∧ (Double.to_Q (Spec.double_clamp (Spec.double_total b1 b2 b3 b4 b5 k))
     <= Qmax 0 (Qmin 1 (Spec.total b1 b2 b3 b4 b5 (inject_Z (Z.of_nat k) * 0.02)))
        + (1 # 1000000000000000))%Q.
Proof.
  intros Hk.
  destruct b1, b2, b3, b4, b5;
    (do 9 (destruct k as [|k];
           [split; apply Qle_bool_imp_le; vm_compute; reflexivity|])); lia.
Qed.

(** With all but the short-text step applied and three keywords or more
    the rounded formula gives one. *)
Lemma double_total_top (k : nat) :
  3 ≤ k → k ≤ 8 →
  Double.to_Q (Spec.double_clamp (Spec.double_total true true false true true k))
  = 1%Q.
Proof.
  intros Hlo Hhi.
  do 3 (destruct k as [|k]; [lia|]).
  (do 6 (destruct k as [|k]; [vm_compute; reflexivity|])); lia.
Qed.

Lemma calculateConfidence_bounds (text : jsstring) :
  (0 <= Ollama.calculateConfidence text)%Q ∧ (Ollama.calculateConfidence text <= 1)%Q.
Proof.
  destruct text as [|c t].
  - rewrite calculateConfidence_empty. split; lra.
  - rewrite calculateConfidence_total by done.
    match goal with |- (_ <= Double.to_Q (Spec.double_clamp
                                (Spec.double_total ?b1 ?b2 ?b3 ?b4 ?b5 ?k)))%Q ∧ _ =>
      destruct (double_total_range b1 b2 b3 b4 b5 k) as [Hlo Hhi];
        [apply keywordMatches_le|] end.
    split; [|done]. eapply Qle_trans; [|exact Hlo]. by vm_compute.
Qed.

(** A non-empty text scores at least a quarter. *)
Lemma calculateConfidence_nonempty_ge (text : jsstring) :
  text ≠ [] → (1 # 4 <= Ollama.calculateConfidence text)%Q.
Proof.
  intros Hne. rewrite calculateConfidence_total by done.
  apply double_total_range, keywordMatches_le.
Qed.

Lemma calculateConfidence_zero_iff (text : jsstring) :
  (Ollama.calculateConfidence text == 0)%Q ↔ text = [].
Proof.
  split.
  - intros Hz. destruct text as [|c t]; [done|].
    pose proof (calculateConfidence_nonempty_ge (c :: t)) as Hge.
    rewrite Hz in Hge. assert (1 # 4 <= 0)%Q as Habs by (by apply Hge). lra.
  - intros ->. reflexivity.
Qed.

Lemma calculateConfidence_spec (text : jsstring) :
  text ≠ [] → Ollama.calculateConfidence text = Spec.double_confidence text.
Proof.
  intros Hne. rewrite calculateConfidence_total by done.
  unfold Spec.double_confidence.
  unfold Ollama.hasNumbers, Ollama.hasLetters, Ollama.hasPunctuation.
  rewrite !regex_test_cls. by rewrite keyword_count_matches.
Qed.

Lemma calculateConfidence_close (text : jsstring) :
  text ≠ [] →
  (Spec.confidence text - (1 # 1000000000000000) <= Ollama.calculateConfidence text)%Q
  ∧ (Ollama.calculateConfidence text <= Spec.confidence text + (1 # 1000000000000000))%Q.
Proof.
  intros Hne. rewrite calculateConfidence_total by done.
  rewrite confidence_total.
  apply double_total_close, keywordMatches_le.
Qed.

(** C6 (as amended).  For every non-empty text the extraction confidence is
    the value of the specification's formula carried out in doubles, every
    step rounded (0.7, +0.1 over 100 code units, +0.1 over 500, -0.2 under
    20, +0.05 for a digit together with a letter, +0.05 for punctuation,
    +0.02 per domain keyword, clamped to [0,1]); it is within 10^-15 of the
    exact value of the formula; for the empty text it is 0; and a text of
    more than 500 code units with a digit, a letter, punctuation and exactly
    three domain keywords scores exactly 1. *)
Theorem C6_confidence_formula :
  (∀ text, text ≠ [] →
     Ollama.calculateConfidence text = Spec.double_confidence text) ∧
  (∀ text, text ≠ [] →
     (Spec.confidence text - (1 # 1000000000000000)
      <= Ollama.calculateConfidence text)%Q
     ∧ (Ollama.calculateConfidence text
        <= Spec.confidence text + (1 # 1000000000000000))%Q) ∧
  Qeq (Ollama.calculateConfidence []) 0 ∧
  (∀ text, 500 < length text →
     existsb is_digit text = true → existsb is_letter text = true →
     existsb Spec.is_punctuation text = true →
     Ollama.keywordMatches text = 3 →
     Qeq (Ollama.calculateConfidence text) 1).
Proof.
  split; [exact calculateConfidence_spec|].
  split; [exact calculateConfidence_close|]. split; [reflexivity|].
  intros text Hlen Hd Hl Hp Hk.
  rewrite calculateConfidence_total by (destruct text; [simpl in Hlen; lia | done]).
  unfold Ollama.hasNumbers, Ollama.hasLetters, Ollama.hasPunctuation.
  rewrite !regex_test_cls, Hd, Hl, Hk.
  change (existsb (one_of (u16 ".,;:!?")) text) with (existsb Spec.is_punctuation text).
  rewrite Hp.
  rewrite (bool_decide_eq_true_2 (100 < length text)) by lia.
  rewrite (bool_decide_eq_true_2 (500 < length text)) by lia.
  rewrite (bool_decide_eq_false_2 (length text < 20)) by lia.
  cbn [andb]. rewrite double_total_top by lia. reflexivity.
Qed.

Lemma C6_confidence_formula_witness :
  Ollama.calculateConfidence (u16 "Name: Ravi")
  = Spec.double_confidence (u16 "Name: Ravi") ∧
  (Spec.confidence (u16 "Ref 12") - (1 # 1000000000000000)
   <= Ollama.calculateConfidence (u16 "Ref 12"))%Q ∧
  Qeq (Ollama.calculateConfidence Examples.long_text) 1.
Proof.
  split_and!.
  - apply (proj1 C6_confidence_formula). discriminate.
  - refine (proj1 (proj1 (proj2 C6_confidence_formula) (u16 "Ref 12") _)).
    discriminate.
  - apply (proj2 (proj2 (proj2 C6_confidence_formula)));
      vm_compute; first [reflexivity | lia].
Defined.

(** C6 as stated fails in two ways.  At the empty text the code returns 0
    where the formula gives 0.7 - 0.2 = 0.5.  And the code computes in
    doubles: at the text "Ref 12" (six code units, a digit and a letter)
    it returns 4953959590107545 / 2^53, the double below 0.55, where the
    formula gives 0.55. *)
Lemma C6_counterexample :
  Qeq (Ollama.calculateConfidence []) 0 ∧ Qeq (Spec.confidence []) 0.5 ∧
  ¬ Qeq (Ollama.calculateConfidence []) (Spec.confidence []) ∧
  Ollama.calculateConfidence (u16 "Ref 12") = 4953959590107545 # 9007199254740992 ∧
  Qeq (Spec.confidence (u16 "Ref 12")) 0.55 ∧
  ¬ Qeq (Ollama.calculateConfidence (u16 "Ref 12")) (Spec.confidence (u16 "Ref 12")).
Proof. repeat split; vm_compute; congruence. Qed.

(** ** Stamp and signature analysis *)

Section StampAnalysis.
Context `{Runtime}.

Lemma analyzeWithOllama_unreadable file text uid w :
  contents file = None →
  Stamp.analyzeWithOllama file text uid w = (Thrown NotAnError, w).
Proof.
  intros Hc. unfold Stamp.analyzeWithOllama, bind, fileToBase64.
  rewrite Hc. reflexivity.
Qed.

(** The analysis request fails, or its reply carries no text: the local
    heuristic analysis is returned. *)
Lemma analyzeWithOllama_call_fails file text uid w :
  is_Some (contents file) →
  Spec.analysis_text (next_reply (ollama w)) = None →
  Stamp.analyzeWithOllama file text uid w
  = (Returned (Stamp.fallbackTextAnalysis text), Spec.after_ollama w).
Proof.
  intros [url Hc] Hr.
  unfold Stamp.analyzeWithOllama, bind, try_catch, fileToBase64, fetch_ollama.
  rewrite Hc. cbn -[Stamp.fallbackTextAnalysis u16].
  destruct (next_reply (ollama w)) as [reason | st txt | | data];
    cbn -[Stamp.fallbackTextAnalysis u16]; try reflexivity.
  destruct data as [| | b | q | s | l | m];
    cbn -[Stamp.fallbackTextAnalysis u16]; try reflexivity.
  cbn -[u16] in Hr.
  destruct (m !! u16 "response") as [[| | b | q | s | l | m']|];
    cbn -[Stamp.fallbackTextAnalysis u16] in *; try reflexivity.
  destruct (trim s); [reflexivity | discriminate].
Qed.

(** The reply carries a text: the result is the conversion of what the
    inner [try] made of it. *)
Lemma analyzeWithOllama_reply file text uid w t :
  is_Some (contents file) →
  Spec.analysis_text (next_reply (ollama w)) = Some t →
  Stamp.analyzeWithOllama file text uid w
  = (Returned
       (match get (Stamp.parse_reply t text) (u16 "stamp_detected") with
        | inr _ => Stamp.convert (prop_of (Stamp.parse_reply t text))
        | inl _ => Stamp.fallbackTextAnalysis text
        end),
     Spec.after_ollama w).
Proof.
  intros [url Hc] Hr.
  unfold Stamp.analyzeWithOllama, bind, try_catch, fileToBase64, fetch_ollama.
  rewrite Hc.
  cbn -[Stamp.fallbackTextAnalysis Stamp.parse_reply Stamp.convert u16].
  destruct (next_reply (ollama w)) as [reason | st txt | | data]; try discriminate.
  destruct data as [| | b | q | s | l | m]; try discriminate.
  cbn -[Stamp.fallbackTextAnalysis Stamp.parse_reply Stamp.convert u16] in *.
  destruct (m !! u16 "response") as [[| | b | q | s | l | m']|]; try discriminate.
  cbn -[Stamp.fallbackTextAnalysis Stamp.parse_reply Stamp.convert u16] in *.
  destruct (trim s) as [|c t']; [discriminate|]. injection Hr as <-.
  destruct (get (Stamp.parse_reply (c :: t') text) (u16 "stamp_detected"));
    reflexivity.
Qed.

End StampAnalysis.



(** The properties of the reply the conversion reads, when the reply
    parsed to an object. *)
Lemma parse_reply_object `{Runtime} (t text : jsstring) m o :
  regex_match Stamp.jsonPattern t = Some m →
  JSON_parse (whole m) = Some (JObj o) →
  Stamp.parse_reply t text = JObj o.
Proof. intros Hm Hp. unfold Stamp.parse_reply. by rewrite Hm, Hp. Qed.

(** The inner [catch] of [analyzeWithOllama]: when the reply holds no JSON
    or its JSON does not parse, the fallback analysis is stored where the
    parsed reply is expected, and none of the properties read from it
    exists; the result reports nothing, whatever the fallback found. *)
Lemma analyzeWithOllama_unparsable `{Runtime} file text uid w t :
  is_Some (contents file) →
  Spec.analysis_text (next_reply (ollama w)) = Some t →
  (regex_match Stamp.jsonPattern t = None
   ∨ ∃ m, regex_match Stamp.jsonPattern t = Some m ∧ JSON_parse (whole m) = None) →
  ∃ r, Stamp.analyzeWithOllama file text uid w = (Returned r, Spec.after_ollama w)
       ∧ Stamp.Analysis.StampValidation r = Stamp.N_
       ∧ Stamp.Analysis.MatchedStampType r = JUndefined
       ∧ Stamp.StampDetectionResult.Status (Stamp.Analysis.Stamp r) = Stamp.Absent
       ∧ Stamp.SignatureDetectionResult.Status (Stamp.Analysis.Signature r)
         = Stamp.Absent.
Proof.
  intros Hc Hr Hfail. eexists. split; [by apply analyzeWithOllama_reply|].
  assert (Stamp.parse_reply t text
          = Stamp.Analysis.to_js (Stamp.fallbackTextAnalysis text)) as ->.
  { unfold Stamp.parse_reply. destruct Hfail as [->|(m & -> & ->)]; reflexivity. }
  generalize (Stamp.fallbackTextAnalysis text). intros [st sg v mt pn d].
  unfold Stamp.Analysis.to_js. cbn [get].
  cbn [Stamp.Analysis.Stamp Stamp.Analysis.Signature Stamp.Analysis.StampValidation
       Stamp.Analysis.MatchedStampType Stamp.Analysis.PersonName Stamp.Analysis.Date].
  generalize (Stamp.StampDetectionResult.to_js st)
             (Stamp.SignatureDetectionResult.to_js sg) (Stamp.validation_js v).
  intros x1 x2 x3. vm_compute. repeat split; reflexivity.
Qed.




(** ** Text extraction: failure and success *)

Lemma processWithGemma3_fails (base64Data : JSValue) (w : World) :
  Spec.vision_text (next_reply (ollama w)) = None →
  ∃ message,
    Ollama.processWithGemma3 base64Data w = (Thrown message, Spec.after_ollama w).
Proof.
  intros Hr. unfold Ollama.processWithGemma3, bind, try_catch, fetch_ollama.
  cbn -[u16].
  destruct (next_reply (ollama w)) as [reason | st txt | | data];
    cbn -[u16]; eauto.
  destruct data as [| | b | q | s | l | m]; cbn -[u16]; eauto.
  cbn -[u16] in Hr.
  destruct (m !! u16 "response") as [[| | b | q | s | l | m']|];
    cbn -[u16] in *; eauto.
  - destruct b; cbn -[u16]; eauto.
  - destruct (Qeq_bool q 0); cbn -[u16]; eauto.
  - destruct s; [cbn -[u16]; eauto | discriminate].
Qed.

Lemma processWithGemma3_ok (base64Data : JSValue) (w : World) (text : jsstring) :
  Spec.vision_text (next_reply (ollama w)) = Some text →
  Ollama.processWithGemma3 base64Data w = (Returned text, Spec.after_ollama w).
Proof.
  intros Hr. unfold Ollama.processWithGemma3, bind, try_catch, fetch_ollama.
  cbn -[u16 trim].
  destruct (next_reply (ollama w)) as [reason | st txt | | data]; try discriminate.
  destruct data as [| | b | q | s | l | m]; try discriminate.
  cbn -[u16 trim] in *.
  destruct (m !! u16 "response") as [[| | b | q | s | l | m']|]; try discriminate.
  destruct s as [|c s]; [discriminate|]. cbn -[u16 trim] in *.
  injection Hr as ->. reflexivity.
Qed.

(** Stage 1 throws when the file cannot be read or the reply has no text;
    when it throws, the error is the one it builds in its handler. *)
Lemma extractText_fails (file : File) (uid : jsstring) (w : World) :
  contents file = None ∨ Spec.vision_text (next_reply (ollama w)) = None →
  ∃ cause w',
    Ollama.extractTextFromDocument file uid w
    = (Thrown (Err (u16 "Ollama text extraction failed: " ++ cause)), w').
Proof.
  intros Hfail.
  unfold Ollama.extractTextFromDocument, bind, try_catch, now, logAction, fileToBase64.
  cbn -[u16 Ollama.processWithGemma3 list_to_map].
  destruct (contents file) as [url|] eqn:Hc.
  - destruct Hfail as [?|Hr]; [discriminate|].
    cbn -[u16 Ollama.processWithGemma3 list_to_map].
    match goal with |- context [Ollama.processWithGemma3 ?b ?w0] =>
      destruct (processWithGemma3_fails b w0 Hr) as [e ->] end.
    cbn -[u16 list_to_map]. eauto.
  - cbn -[u16 list_to_map]. eauto.
Qed.

Lemma extractText_ok (file : File) (uid : jsstring) (w : World) (text : jsstring) :
  is_Some (contents file) →
  Spec.vision_text (next_reply (ollama w)) = Some text →
  ∃ r w',
    Ollama.extractTextFromDocument file uid w = (Returned r, w')
    ∧ Ollama.extractedText r = text
    ∧ Ollama.confidence r = Ollama.calculateConfidence text
    ∧ ollama w' = tl (ollama w).
Proof.
  intros [url Hc] Hr.
  unfold Ollama.extractTextFromDocument, bind, try_catch, now, logAction, fileToBase64.
  cbn -[u16 Ollama.processWithGemma3 list_to_map Ollama.calculateConfidence].
  rewrite Hc.
  cbn -[u16 Ollama.processWithGemma3 list_to_map Ollama.calculateConfidence].
  match goal with |- context [Ollama.processWithGemma3 ?b ?w0] =>
    rewrite (processWithGemma3_ok b w0 text Hr) end.
  cbn -[u16 list_to_map Ollama.calculateConfidence]. eauto 10.
Qed.

(** The failure of the request, where the service words the cause itself. *)
Lemma processWithGemma3_cause (base64Data : JSValue) (w : World) :
  match next_reply (ollama w) with
  | NetworkFailure reason =>
      Ollama.processWithGemma3 base64Data w
      = (Thrown (Err reason), Spec.after_ollama w)
  | HttpStatus st txt =>
      Ollama.processWithGemma3 base64Data w
      = (Thrown (Err (u16 "Ollama API error: " ++ u16 (pretty st) ++ u16 " " ++ txt)),
         Spec.after_ollama w)
  | BodyNotJson => True
  | Body data =>
      ∀ v, get data (u16 "response") = inr v → truthy v = false →
           Ollama.processWithGemma3 base64Data w
           = (Thrown (Err (u16 "No response from Ollama model")), Spec.after_ollama w)
  end.
Proof.
  unfold Ollama.processWithGemma3, bind, try_catch, fetch_ollama.
  cbn -[u16 get pretty]. fold (Spec.after_ollama w).
  destruct (next_reply (ollama w)) as [reason | st txt | | data];
    cbn -[u16 get pretty]; try done.
  intros v Hv Ht. rewrite Hv. cbn -[u16]. rewrite Ht. reflexivity.
Qed.

(** Whatever the request throws, text extraction throws its own error with
    the message of that cause. *)
Lemma extractText_rethrows (file : File) (uid : jsstring) (w : World) :
  ∃ w0, ollama w0 = ollama w
    ∧ (contents file = None →
       ∃ w', Ollama.extractTextFromDocument file uid w
             = (Thrown (Err (u16 "Ollama text extraction failed: "
                             ++ u16 "Ollama processing failed")), w'))
    ∧ (∀ url e w1,
         contents file = Some url →
         Ollama.processWithGemma3 (of_opt_string (split 44 url !! 1)) w0
         = (Thrown e, w1) →
         ∃ w', Ollama.extractTextFromDocument file uid w
               = (Thrown (Err (u16 "Ollama text extraction failed: "
                               ++ message_or (u16 "Ollama processing failed") e)),
                  w')).
Proof.
  unfold Ollama.extractTextFromDocument, bind, try_catch, now, logAction, fileToBase64.
  cbn -[u16 Ollama.processWithGemma3 list_to_map Ollama.calculateConfidence split].
  eexists {| audit := _; clock := _; ollama := ollama w; openai := _ |}.
  split; [reflexivity|]. split.
  - intros ->. cbn -[u16 list_to_map]. eauto.
  - intros url e w1 -> Hp.
    cbn -[u16 Ollama.processWithGemma3 list_to_map Ollama.calculateConfidence split].
    rewrite Hp. cbn -[u16 list_to_map]. eauto.
Qed.

(** C4 (as amended).  When the vision service cannot be reached, answers
    with an error status, or its reply has no [response] text, stage 1
    raises an [Error] to its caller and returns no result, so no empty text
    with zero confidence.  The message is "Ollama text extraction failed: "
    followed by the message of the cause: the message of the failed request
    when the service cannot be reached, "Ollama API error: " with the
    status and the status text on an error status, "No response from Ollama
    model" when the reply has no [response] or a falsy one (empty, null),
    and "Ollama processing failed" when the file cannot be read. *)
Theorem C4_extraction_failure_raises (file : File) (uid : jsstring) (w : World) :
  (contents file = None ∨ Spec.vision_text (next_reply (ollama w)) = None →
   ∃ cause w',
     Ollama.extractTextFromDocument file uid w
     = (Thrown (Err (u16 "Ollama text extraction failed: " ++ cause)), w'))
  ∧ (contents file = None →
     ∃ w',
       Ollama.extractTextFromDocument file uid w
       = (Thrown (Err (u16 "Ollama text extraction failed: "
                       ++ u16 "Ollama processing failed")), w'))
  ∧ (∀ reason,
       is_Some (contents file) →
       next_reply (ollama w) = NetworkFailure reason →
       ∃ w',
         Ollama.extractTextFromDocument file uid w
         = (Thrown (Err (u16 "Ollama text extraction failed: " ++ reason)), w'))
  ∧ (∀ st txt,
       is_Some (contents file) →
       next_reply (ollama w) = HttpStatus st txt →
       ∃ w',
         Ollama.extractTextFromDocument file uid w
         = (Thrown (Err (u16 "Ollama text extraction failed: "
                         ++ u16 "Ollama API error: " ++ u16 (pretty st)
                         ++ u16 " " ++ txt)), w'))
  ∧ (∀ data v,
       is_Some (contents file) →
       next_reply (ollama w) = Body data →
       get data (u16 "response") = inr v → truthy v = false →
       ∃ w',
         Ollama.extractTextFromDocument file uid w
         = (Thrown (Err (u16 "Ollama text extraction failed: "
                         ++ u16 "No response from Ollama model")), w')).
Proof.
  destruct (extractText_rethrows file uid w) as (w0 & Hw0 & Hread & Hthrow).
  pose proof (processWithGemma3_cause) as Hcause.
  split_and!.
  - apply extractText_fails.
  - exact Hread.
  - intros reason [url Hc] Hr.
    specialize (Hcause (of_opt_string (split 44 url !! 1)) w0).
    rewrite Hw0, Hr in Hcause. apply (Hthrow url _ _ Hc Hcause).
  - intros st txt [url Hc] Hr.
    specialize (Hcause (of_opt_string (split 44 url !! 1)) w0).
    rewrite Hw0, Hr in Hcause. apply (Hthrow url _ _ Hc Hcause).
  - intros data v [url Hc] Hr Hv Ht.
    specialize (Hcause (of_opt_string (split 44 url !! 1)) w0).
    rewrite Hw0, Hr in Hcause. apply (Hthrow url _ _ Hc (Hcause v Hv Ht)).
Qed.

Lemma C4_extraction_failure_raises_witness :
  (∃ w',
     Ollama.extractTextFromDocument Examples.scan Examples.user
       (Examples.world [Body (JObj {[ u16 "response" := JStr [] ]})] [])
     = (Thrown (Err (u16 "Ollama text extraction failed: "
                     ++ u16 "No response from Ollama model")), w'))
  ∧ (∃ w',
       Ollama.extractTextFromDocument Examples.scan Examples.user
         (Examples.world [HttpStatus 503 (u16 "Service Unavailable")] [])
       = (Thrown (Err (u16 "Ollama text extraction failed: "
                       ++ u16 "Ollama API error: " ++ u16 (pretty 503%N)
                       ++ u16 " " ++ u16 "Service Unavailable")), w')).
Proof.
  split.
  - apply (proj2 (proj2 (proj2 (proj2
             (C4_extraction_failure_raises Examples.scan Examples.user
                (Examples.world [Body (JObj {[ u16 "response" := JStr [] ]})] []))))))
      with (data := JObj {[ u16 "response" := JStr [] ]}) (v := JStr []).
    + eexists. reflexivity.
    + reflexivity.
    + vm_compute. reflexivity.
    + reflexivity.
  - apply (proj1 (proj2 (proj2 (proj2
             (C4_extraction_failure_raises Examples.scan Examples.user
                (Examples.world [HttpStatus 503 (u16 "Service Unavailable")] [])))))).
    + eexists. reflexivity.
    + reflexivity.
Defined.

(** C4 as stated fails: with the service unreachable, and with a reply
    that has no text, stage 1 throws instead of returning an empty text with
    zero confidence. *)
Lemma C4_counterexample :
  fst (Ollama.extractTextFromDocument Examples.scan Examples.user
         (Examples.world [] []))
  = Thrown (Err (u16 "Ollama text extraction failed: Failed to fetch"))
  ∧ fst (Ollama.extractTextFromDocument Examples.scan Examples.user
           (Examples.world [Body (JObj ∅)] []))
    = Thrown (Err (u16 "Ollama text extraction failed: No response from Ollama model")).
Proof. split; vm_compute; reflexivity. Qed.

(** ** The stamp and signature analyzer as a whole *)

Lemma try_catch_total {A} (body : M A) (handler : Exn → M A) :
  (∀ e w, ∃ a w', handler e w = (Returned a, w')) →
  ∀ w, ∃ a w', try_catch body handler w = (Returned a, w').
Proof.
  intros Hh w. unfold try_catch. destruct (body w) as [[a|e] w1]; eauto.
Qed.

Section StampAnalyzer.
Context `{Runtime}.

Lemma analyzeStampsAndSignatures_total file uid w :
  ∃ r w', Stamp.analyzeStampsAndSignatures file uid w = (Returned r, w').
Proof.
  unfold Stamp.analyzeStampsAndSignatures. unfold bind at 1. unfold now at 1.
  apply try_catch_total. intros e w1.
  unfold bind, logAction, now, ret. eauto.
Qed.

Lemma analyzeStampsAndSignatures_defaulted file uid w :
  contents file = None ∨ Spec.vision_text (next_reply (ollama w)) = None →
  ∃ time w',
    Stamp.analyzeStampsAndSignatures file uid w
    = (Returned (Stamp.defaulted time), w').
Proof.
  intros Hfail.
  unfold Stamp.analyzeStampsAndSignatures, bind, try_catch, now, logAction.
  cbn -[u16 list_to_map Ollama.extractTextFromDocument Stamp.analyzeWithOllama].
  match goal with |- context [Ollama.extractTextFromDocument ?f ?u ?w0] =>
    destruct (extractText_fails f u w0 Hfail) as (cause & w1 & ->) end.
  cbn -[u16 list_to_map]. eauto.
Qed.

(** The text was extracted and the second read of the file fails: the
    rejection reaches the outer handler. *)
Lemma analyzeStampsAndSignatures_reread_fails file uid w text :
  is_Some (contents file) →
  Spec.vision_text (next_reply (ollama w)) = Some text →
  contents (next_read file) = None →
  ∃ time w',
    Stamp.analyzeStampsAndSignatures file uid w
    = (Returned (Stamp.defaulted time), w').
Proof.
  intros Hc Hr Hn.
  unfold Stamp.analyzeStampsAndSignatures, bind, try_catch, now, logAction.
  cbn -[u16 list_to_map Ollama.extractTextFromDocument Stamp.analyzeWithOllama].
  match goal with |- context [Ollama.extractTextFromDocument ?f ?u ?w0] =>
    destruct (extractText_ok f u w0 text Hc Hr) as (r & w1 & -> & _) end.
  rewrite (analyzeWithOllama_unreadable _ _ uid w1 Hn).
  cbn -[u16 list_to_map]. eauto.
Qed.

Lemma analyzeStampsAndSignatures_heuristic file uid w text :
  is_Some (contents file) →
  Spec.vision_text (next_reply (ollama w)) = Some text →
  is_Some (contents (next_read file)) →
  Spec.analysis_text (next_reply (tl (ollama w))) = None →
  ∃ r w',
    Stamp.analyzeStampsAndSignatures file uid w = (Returned r, w')
    ∧ Stamp.StampSignatureAnalysisResult.Stamp r
      = Stamp.Analysis.Stamp (Stamp.fallbackTextAnalysis text)
    ∧ Stamp.StampSignatureAnalysisResult.Signature r
      = Stamp.Analysis.Signature (Stamp.fallbackTextAnalysis text)
    ∧ Stamp.StampSignatureAnalysisResult.StampValidation r
      = Stamp.Analysis.StampValidation (Stamp.fallbackTextAnalysis text)
    ∧ Stamp.StampSignatureAnalysisResult.MatchedStampType r
      = Stamp.Analysis.MatchedStampType (Stamp.fallbackTextAnalysis text).
Proof.
  intros Hc Hr Hn Ha.
  unfold Stamp.analyzeStampsAndSignatures, bind, try_catch, now, logAction.
  cbn -[u16 list_to_map Ollama.extractTextFromDocument Stamp.analyzeWithOllama
        Stamp.fallbackTextAnalysis].
  match goal with |- context [Ollama.extractTextFromDocument ?f ?u ?w0] =>
    destruct (extractText_ok f u w0 text Hc Hr) as (r & w1 & -> & <- & _ & Hw1) end.
  cbn -[u16 list_to_map Stamp.analyzeWithOllama Stamp.fallbackTextAnalysis] in Hw1.
  rewrite <- Hw1 in Ha.
  rewrite (analyzeWithOllama_call_fails (next_read file) _ uid w1 Hn Ha).
  cbn -[u16 list_to_map Stamp.fallbackTextAnalysis]. eauto 10.
Qed.

End StampAnalyzer.

(** C9 (as amended).  The stamp and signature analyzer never raises to its
    caller.  When the file cannot be read or text extraction fails, it
    returns the fully defaulted result: stamp absent, signature absent,
    validated = N; so it does when the text was extracted and the second
    read of the file fails.  When the text was extracted, the file was read
    again and only the analysis request fails or brings no text, it returns
    the local heuristic analysis of the extracted text instead. *)
Theorem C9_analyzer_never_raises `{Runtime} (file : File) (uid : jsstring) (w : World) :
  (∃ r w', Stamp.analyzeStampsAndSignatures file uid w = (Returned r, w'))
  ∧ (contents file = None ∨ Spec.vision_text (next_reply (ollama w)) = None →
     ∃ r w',
       Stamp.analyzeStampsAndSignatures file uid w = (Returned r, w')
       ∧ r = Stamp.defaulted (Stamp.StampSignatureAnalysisResult.ProcessingTime r)
       ∧ Stamp.StampDetectionResult.Status (Stamp.StampSignatureAnalysisResult.Stamp r)
         = Stamp.Absent
       ∧ Stamp.SignatureDetectionResult.Status
           (Stamp.StampSignatureAnalysisResult.Signature r) = Stamp.Absent
       ∧ Stamp.StampSignatureAnalysisResult.StampValidation r = Stamp.N_)
  ∧ (∀ text,
       is_Some (contents file) →
       Spec.vision_text (next_reply (ollama w)) = Some text →
       contents (next_read file) = None →
       ∃ r w',
         Stamp.analyzeStampsAndSignatures file uid w = (Returned r, w')
         ∧ r = Stamp.defaulted (Stamp.StampSignatureAnalysisResult.ProcessingTime r)
         ∧ Stamp.StampDetectionResult.Status
             (Stamp.StampSignatureAnalysisResult.Stamp r) = Stamp.Absent
         ∧ Stamp.SignatureDetectionResult.Status
             (Stamp.StampSignatureAnalysisResult.Signature r) = Stamp.Absent
         ∧ Stamp.StampSignatureAnalysisResult.StampValidation r = Stamp.N_)
  ∧ (∀ text,
       is_Some (contents file) →
       Spec.vision_text (next_reply (ollama w)) = Some text →
       is_Some (contents (next_read file)) →
       Spec.analysis_text (next_reply (tl (ollama w))) = None →
       ∃ r w',
         Stamp.analyzeStampsAndSignatures file uid w = (Returned r, w')
         ∧ Stamp.StampSignatureAnalysisResult.Stamp r
           = Stamp.Analysis.Stamp (Stamp.fallbackTextAnalysis text)
         ∧ Stamp.StampSignatureAnalysisResult.Signature r
           = Stamp.Analysis.Signature (Stamp.fallbackTextAnalysis text)
         ∧ Stamp.StampSignatureAnalysisResult.StampValidation r
           = Stamp.Analysis.StampValidation (Stamp.fallbackTextAnalysis text)
         ∧ Stamp.StampSignatureAnalysisResult.MatchedStampType r
           = Stamp.Analysis.MatchedStampType (Stamp.fallbackTextAnalysis text)).
Proof.
  split; [apply analyzeStampsAndSignatures_total|]. split_and!.
  - intros Hfail.
    destruct (analyzeStampsAndSignatures_defaulted file uid w Hfail) as (t & w' & ->).
    eexists _, _. split; [reflexivity|]. done.
  - intros text Hc Hr Hn.
    destruct (analyzeStampsAndSignatures_reread_fails file uid w text Hc Hr Hn)
      as (t & w' & ->).
    eexists _, _. split; [reflexivity|]. done.
  - intros text. apply analyzeStampsAndSignatures_heuristic.
Qed.

Lemma C9_analyzer_never_raises_witness :
  (∃ r w',
     @Stamp.analyzeStampsAndSignatures Examples.runtime Examples.scan Examples.user
       (Examples.world [] []) = (Returned r, w')
     ∧ r = Stamp.defaulted (Stamp.StampSignatureAnalysisResult.ProcessingTime r)
     ∧ Stamp.StampDetectionResult.Status (Stamp.StampSignatureAnalysisResult.Stamp r)
       = Stamp.Absent
     ∧ Stamp.SignatureDetectionResult.Status
         (Stamp.StampSignatureAnalysisResult.Signature r) = Stamp.Absent
     ∧ Stamp.StampSignatureAnalysisResult.StampValidation r = Stamp.N_)
  ∧ (∃ r w',
       @Stamp.analyzeStampsAndSignatures Examples.runtime Examples.scan Examples.user
         (Examples.world [Examples.generate_reply Examples.stamp_text] [])
       = (Returned r, w')
       ∧ Stamp.StampSignatureAnalysisResult.Stamp r
         = Stamp.Analysis.Stamp (Stamp.fallbackTextAnalysis Examples.stamp_text)
       ∧ Stamp.StampSignatureAnalysisResult.Signature r
         = Stamp.Analysis.Signature (Stamp.fallbackTextAnalysis Examples.stamp_text)
       ∧ Stamp.StampSignatureAnalysisResult.StampValidation r
         = Stamp.Analysis.StampValidation (Stamp.fallbackTextAnalysis Examples.stamp_text)
       ∧ Stamp.StampSignatureAnalysisResult.MatchedStampType r
         = Stamp.Analysis.MatchedStampType
             (Stamp.fallbackTextAnalysis Examples.stamp_text))
  ∧ (∃ r w',
       @Stamp.analyzeStampsAndSignatures Examples.runtime Examples.fading_scan
         Examples.user
         (Examples.world [Examples.generate_reply Examples.stamp_text] [])
       = (Returned r, w')
       ∧ r = Stamp.defaulted (Stamp.StampSignatureAnalysisResult.ProcessingTime r)
       ∧ Stamp.StampDetectionResult.Status
           (Stamp.StampSignatureAnalysisResult.Stamp r) = Stamp.Absent
       ∧ Stamp.SignatureDetectionResult.Status
           (Stamp.StampSignatureAnalysisResult.Signature r) = Stamp.Absent
       ∧ Stamp.StampSignatureAnalysisResult.StampValidation r = Stamp.N_).
Proof.
  split_and!.
  - apply (proj1 (proj2 (@C9_analyzer_never_raises Examples.runtime Examples.scan
                           Examples.user (Examples.world [] [])))).
    right. reflexivity.
  - apply (proj2 (proj2 (proj2
             (@C9_analyzer_never_raises Examples.runtime Examples.scan
                Examples.user
                (Examples.world [Examples.generate_reply Examples.stamp_text] []))))).
    + eexists. reflexivity.
    + vm_compute. reflexivity.
    + eexists. reflexivity.
    + reflexivity.
  - apply (proj1 (proj2 (proj2
             (@C9_analyzer_never_raises Examples.runtime Examples.fading_scan
                Examples.user
                (Examples.world [Examples.generate_reply Examples.stamp_text] []))))
             Examples.stamp_text).
    + eexists. reflexivity.
    + vm_compute. reflexivity.
    + reflexivity.
Defined.

(** C9 as stated fails when the text was extracted and only the analysis
    request fails: the result is not the defaulted one, it reports the stamp
    present and validated. *)
Lemma C9_counterexample :
  ∃ r w',
    @Stamp.analyzeStampsAndSignatures Examples.runtime Examples.scan Examples.user
      (Examples.world [Examples.generate_reply Examples.stamp_text] [])
    = (Returned r, w')
    ∧ Stamp.StampDetectionResult.Status (Stamp.StampSignatureAnalysisResult.Stamp r)
      = Stamp.Present
    ∧ Stamp.StampSignatureAnalysisResult.StampValidation r = Stamp.Y_.
Proof.
  eexists _, _. split; [vm_compute; reflexivity|]. split; reflexivity.
Qed.

(** ** Field extraction: the fallback extractor *)

Lemma type_default_spec (field : OpenAI.TemplateField) :
  OpenAI.type_default field = Spec.type_default field.
Proof.
  unfold OpenAI.type_default, Spec.type_default.
  destruct (OpenAI.type field); try reflexivity.
  destruct (OpenAI.options field) as [[|[|c o] l]|]; reflexivity.
Qed.

(** An assignment writes the own property it names and no other; the
    name [__proto__] apart, it does write it. *)
Lemma assign_lookup_ne (o : PlainObject) (k k' : jsstring) (v : JSValue) :
  k' ≠ u16 "__proto__" →
  own (assign o k v) !! k' = if decide (k = k') then Some v else own o !! k'.
Proof.
  intros Hk'. unfold assign.
  destruct (bool_decide (k = u16 "__proto__") && accessor_inherited (proto o)) eqn:E.
  - apply andb_true_iff in E as [E _]. apply bool_decide_eq_true in E. subst k.
    rewrite decide_False by congruence. by destruct v.
  - cbn. destruct (decide (k = k')) as [->|?].
    + by rewrite lookup_insert_eq.
    + by rewrite lookup_insert_ne.
Qed.

Lemma assign_lookup_Some (o : PlainObject) (k k' : jsstring) (v x : JSValue) :
  own (assign o k v) !! k' = Some x → (k = k' ∧ v = x) ∨ own o !! k' = Some x.
Proof.
  unfold assign.
  destruct (bool_decide (k = u16 "__proto__") && accessor_inherited (proto o)).
  - destruct v; cbn; auto.
  - cbn. destruct (decide (k = k')) as [->|?].
    + rewrite lookup_insert_eq. intros [= ->]. by left.
    + rewrite lookup_insert_ne by done. by right.
Qed.

(** A run of assignments: the last assignment to a key decides, the name
    [__proto__] apart; and every own property was assigned or was there. *)
Lemma foldl_assign_lookup (l : list (jsstring * JSValue)) (o : PlainObject)
    (k : jsstring) :
  k ≠ u16 "__proto__" →
  own (foldl (λ o kv, assign o kv.1 kv.2) o l) !! k
  = match last (filter (λ kv, kv.1 = k) l) with
    | Some kv => Some kv.2
    | None => own o !! k
    end.
Proof.
  intros Hk. revert o. induction l as [|[k' v] l IH]; intros o; cbn [foldl]; [done|].
  rewrite IH, filter_cons. cbn [fst snd]. rewrite assign_lookup_ne by done.
  destruct (decide (k' = k)) as [->|Hne].
  - rewrite last_cons. by destruct (last (filter _ l)).
  - by destruct (last (filter _ l)).
Qed.

Lemma foldl_assign_Some (l : list (jsstring * JSValue)) (o : PlainObject)
    (k : jsstring) (x : JSValue) :
  own (foldl (λ o kv, assign o kv.1 kv.2) o l) !! k = Some x →
  (k, x) ∈ l ∨ own o !! k = Some x.
Proof.
  revert o. induction l as [|[k' v] l IH]; intros o; cbn [foldl]; [auto|].
  intros Hx. destruct (IH _ Hx) as [Hin|Ho].
  - left. by right.
  - cbn [fst snd] in Ho. apply assign_lookup_Some in Ho as [[-> ->]|Ho].
    + left. left.
    + by right.
Qed.

Lemma matchingField_first_field (key : jsstring) (template : OpenAI.DocumentType) :
  OpenAI.matchingField key template
  = Fallback.first_field key (OpenAI.template template).
Proof.
  unfold OpenAI.matchingField.
  induction (OpenAI.template template) as [|f l IH]; [reflexivity|].
  cbn [list_find Fallback.first_field]. unfold Fallback.contains_key at 1.
  destruct (decide _) as [E|E].
  - simpl. by rewrite E.
  - apply not_true_is_false in E. rewrite E.
    rewrite <- IH. by destruct (list_find _ l) as [[? ?]|].
Qed.

Lemma first_field_elem (key : jsstring) (fields : list OpenAI.TemplateField) f :
  Fallback.first_field key fields = Some f → f ∈ fields.
Proof.
  induction fields as [|g l IH]; simpl; [done|].
  destruct (Fallback.contains_key key g).
  - intros [= ->]. left.
  - intros Hf. right. by apply IH.
Qed.

Lemma patterns_set_group :
  Forall (λ entry : jsstring * regex, sets_group entry.2 = true) OpenAI.patterns.
Proof. repeat constructor. Qed.

Lemma apply_pattern_assignment text template fields entry :
  sets_group entry.2 = true →
  OpenAI.apply_pattern text template fields entry
  = match Fallback.assignment text template entry with
    | Some kv => assign fields kv.1 kv.2
    | None => fields
    end.
Proof.
  intros Hset. unfold OpenAI.apply_pattern, Fallback.assignment, Fallback.captured.
  rewrite matchingField_first_field.
  destruct (regex_match entry.2 text) as [m|] eqn:E; [|reflexivity].
  destruct (regex_match_group _ _ _ Hset E) as (c & g & Hg).
  destruct m as [wh gr]. cbn in Hg. subst gr. cbn.
  by destruct (Fallback.first_field _ _).
Qed.

Lemma foldl_ext_Forall {A B} (f g : B → A → B) (l : list A) (b : B) :
  Forall (λ a, ∀ b, f b a = g b a) l → foldl f b l = foldl g b l.
Proof.
  intros Hl. revert b. induction Hl as [|a l Ha _ IH]; intros b; simpl; [done|].
  by rewrite Ha, IH.
Qed.

Lemma foldl_omap {A B C} (f : C → B → C) (g : A → option B) (l : list A) (c : C) :
  foldl (λ c a, match g a with Some b => f c b | None => c end) c l
  = foldl f c (omap g l).
Proof.
  revert c. induction l as [|a l IH]; intros c; csimpl; [done|].
  rewrite IH. by destruct (g a).
Qed.

(** The fallback extraction is the run of its assignments. *)
Lemma extractFieldsBasic_writes text template :
  OpenAI.extractFieldsBasic text template
  = own (foldl (λ o kv, assign o kv.1 kv.2) new_object (Fallback.writes text template)).
Proof.
  unfold OpenAI.extractFieldsBasic, Fallback.writes, OpenAI.initial_fields.
  rewrite foldl_app, foldl_fmap, <- foldl_omap. f_equal.
  apply foldl_ext_Forall.
  eapply Forall_impl; [apply patterns_set_group|].
  intros entry Hset b. by apply apply_pattern_assignment.
Qed.

Lemma last_filter_keyed {A} (key : A → jsstring) (val : A → JSValue)
    (l : list A) (k : jsstring) :
  last (filter (λ kv : jsstring * JSValue, kv.1 = k) ((λ a, (key a, val a)) <$> l))
  = (λ a, (key a, val a)) <$> last (filter (λ a, key a = k) l).
Proof.
  induction l as [|a l IH] using rev_ind; [done|].
  rewrite fmap_app, !filter_app, !last_app. cbn [fmap list_fmap].
  rewrite !filter_cons, !filter_nil. cbn [fst].
  destruct (decide (key a = k)); [done|]. cbn. exact IH.
Qed.

(** Pointwise, the fallback extraction is the specification's, the name
    [__proto__] apart. *)
Lemma extractFieldsBasic_lookup text template k :
  k ≠ u16 "__proto__" →
  OpenAI.extractFieldsBasic text template !! k = Fallback.fallback_field text template k.
Proof.
  intros Hk. rewrite extractFieldsBasic_writes, foldl_assign_lookup by done.
  unfold Fallback.writes, Fallback.fallback_field, Spec.initial_default, Spec.fields_with_id.
  rewrite filter_app, last_app, last_filter_keyed.
  destruct (last (filter _ (omap _ _))); [done|].
  destruct (last (filter _ (OpenAI.template template))); cbn; [|done].
  by rewrite type_default_spec.
Qed.

Lemma initial_default_is_Some template k :
  is_Some (Spec.initial_default template k) ↔ k ∈ Spec.field_ids template.
Proof.
  unfold Spec.initial_default, Spec.field_ids, Spec.fields_with_id.
  rewrite fmap_is_Some, elem_of_list_to_set, list_elem_of_fmap.
  split.
  - intros [f Hf]. apply last_Some_elem_of, list_elem_of_filter in Hf as [<- Hin]. eauto.
  - intros (f & -> & Hin).
    destruct (last (filter _ _)) eqn:E; [eauto|].
    apply last_None in E.
    assert (f ∈ filter (λ g, OpenAI.field_id g = OpenAI.field_id f)
                  (OpenAI.template template)) as Hf
      by (by apply list_elem_of_filter).
    rewrite E in Hf. by apply elem_of_nil in Hf.
Qed.

Lemma assignment_key text template entry kv :
  Fallback.assignment text template entry = Some kv → kv.1 ∈ Spec.field_ids template.
Proof.
  unfold Fallback.assignment. destruct (Fallback.captured _ _); [|done].
  destruct (Fallback.first_field _ _) as [f|] eqn:E; [|done]. intros [= <-].
  apply first_field_elem in E. unfold Spec.field_ids.
  apply elem_of_list_to_set, list_elem_of_fmap. eauto.
Qed.

(** What the fallback extraction assigns: the default of a field, or what
    a pattern captured for a field. *)
Lemma writes_elem text template k x :
  (k, x) ∈ Fallback.writes text template →
  (∃ field, field ∈ OpenAI.template template ∧ OpenAI.field_id field = k
            ∧ x = OpenAI.type_default field)
  ∨ (∃ entry, entry ∈ OpenAI.patterns
              ∧ Fallback.assignment text template entry = Some (k, x)).
Proof.
  unfold Fallback.writes. rewrite elem_of_app. intros [Hin|Hin].
  - left. apply list_elem_of_fmap in Hin as (field & [= -> ->] & Hin). eauto.
  - right. apply list_elem_of_omap in Hin as (entry & Hentry & Ha). eauto.
Qed.

(** The keys of the fallback map are ids of the template, and every id is
    a key, the name [__proto__] apart. *)
Lemma extractFieldsBasic_dom_ids text template :
  dom (OpenAI.extractFieldsBasic text template) ⊆ Spec.field_ids template.
Proof.
  intros k Hk. apply elem_of_dom in Hk as [x Hx].
  rewrite extractFieldsBasic_writes in Hx.
  apply foldl_assign_Some in Hx as [Hin|Hx];
    [|cbn in Hx; by rewrite lookup_empty in Hx].
  apply writes_elem in Hin as [(field & Hin & <- & _)|(entry & _ & Ha)].
  - apply elem_of_list_to_set, list_elem_of_fmap. eauto.
  - by apply assignment_key in Ha.
Qed.

Lemma extractFieldsBasic_dom text template k :
  k ∈ Spec.field_ids template → k ≠ u16 "__proto__" →
  k ∈ dom (OpenAI.extractFieldsBasic text template).
Proof.
  intros Hk Hne. rewrite elem_of_dom, extractFieldsBasic_lookup by done.
  unfold Fallback.fallback_field.
  destruct (last _) as [a|]; [eauto|]. by apply initial_default_is_Some.
Qed.

Lemma patterns_reject_empty :
  Forall (λ entry : jsstring * regex, regex_match entry.2 [] = None) OpenAI.patterns.
Proof. repeat constructor; vm_compute; reflexivity. Qed.

Lemma omap_all_None {A B} (f : A → option B) (l : list A) :
  Forall (λ x, f x = None) l → omap f l = [].
Proof. induction 1 as [|x l Hx _ IH]; csimpl; [done|]. by rewrite Hx. Qed.

Lemma extractFieldsBasic_empty template k :
  k ≠ u16 "__proto__" →
  OpenAI.extractFieldsBasic [] template !! k = Spec.initial_default template k.
Proof.
  intros Hk. rewrite extractFieldsBasic_lookup by done. unfold Fallback.fallback_field.
  rewrite omap_all_None; [done|].
  eapply Forall_impl; [apply patterns_reject_empty|].
  intros entry Hentry. unfold Fallback.assignment, Fallback.captured. by rewrite Hentry.
Qed.

(** ** Field extraction: completion of the model's fields *)

Lemma has_property_false (m : gmap jsstring JSValue) (k : jsstring) :
  has_property m k = false ↔ m !! k = None ∧ k ∉ object_prototype_names.
Proof.
  unfold has_property. rewrite orb_false_iff, !bool_decide_eq_false.
  by rewrite <- eq_None_not_Some.
Qed.

Lemma ensureAllFieldsPresent_fold (fields : list OpenAI.TemplateField)
    (m0 : gmap jsstring JSValue) (k : jsstring) :
  foldl (λ completeFields field,
           if has_property completeFields (OpenAI.field_id field)
           then completeFields
           else <[OpenAI.field_id field := OpenAI.type_default field]> completeFields)
        m0 fields !! k
  = match m0 !! k with
    | Some v => Some v
    | None =>
        if bool_decide (k ∈ object_prototype_names) then None
        else OpenAI.type_default
               <$> head (filter (λ field, OpenAI.field_id field = k) fields)
    end.
Proof.
  revert m0. induction fields as [|f l IH]; intros m0; simpl.
  - destruct (m0 !! k); [done|]. by destruct (bool_decide _).
  - rewrite IH, filter_cons.
    destruct (has_property m0 (OpenAI.field_id f)) eqn:Hp.
    + destruct (decide (OpenAI.field_id f = k)) as [<-|Hne]; [|done].
      destruct (m0 !! OpenAI.field_id f) eqn:Hm; [done|].
      unfold has_property in Hp. rewrite Hm in Hp.
      rewrite bool_decide_eq_false_2 in Hp by (by intros [? ?]).
      cbn in Hp. by rewrite Hp.
    + apply has_property_false in Hp as [Hnone Hnot].
      destruct (decide (OpenAI.field_id f = k)) as [<-|Hne].
      * rewrite lookup_insert_eq, Hnone. by rewrite bool_decide_eq_false_2.
      * by rewrite lookup_insert_ne.
Qed.

(** Pointwise: the model's value where the model gave one; else nothing
    under a name every object inherits, and else the type default of the
    first field of that id. *)
Lemma ensureAllFieldsPresent_lookup (v : JSValue) (template : OpenAI.DocumentType)
    (k : jsstring) :
  OpenAI.ensureAllFieldsPresent v template !! k
  = match spread v !! k with
    | Some x => Some x
    | None =>
        if bool_decide (k ∈ object_prototype_names) then None
        else Spec.completion_default template k
    end.
Proof.
  unfold OpenAI.ensureAllFieldsPresent. rewrite ensureAllFieldsPresent_fold.
  destruct (spread v !! k); [done|]. destruct (bool_decide _); [done|].
  unfold Spec.completion_default, Spec.fields_with_id.
  destruct (head _); simpl; [|done]. by rewrite type_default_spec.
Qed.

Lemma completion_default_is_Some template k :
  is_Some (Spec.completion_default template k) ↔ k ∈ Spec.field_ids template.
Proof.
  unfold Spec.completion_default, Spec.field_ids, Spec.fields_with_id.
  rewrite fmap_is_Some, elem_of_list_to_set, list_elem_of_fmap.
  split.
  - intros [f Hf]. apply head_Some_elem_of, list_elem_of_filter in Hf as [<- Hin]. eauto.
  - intros (f & -> & Hin).
    destruct (head (filter _ _)) eqn:E; [eauto|].
    apply head_None in E.
    assert (f ∈ filter (λ g, OpenAI.field_id g = OpenAI.field_id f)
                  (OpenAI.template template)) as Hf
      by (by apply list_elem_of_filter).
    rewrite E in Hf. by apply elem_of_nil in Hf.
Qed.

(** The keys after completion: the model's keys, and the template's ids
    that are no inherited name. *)
Lemma ensureAllFieldsPresent_dom (v : JSValue) (template : OpenAI.DocumentType)
    (k : jsstring) :
  k ∈ dom (OpenAI.ensureAllFieldsPresent v template)
  ↔ k ∈ dom (spread v)
    ∨ (k ∈ Spec.field_ids template ∧ k ∉ object_prototype_names).
Proof.
  rewrite !elem_of_dom, ensureAllFieldsPresent_lookup.
  rewrite <- completion_default_is_Some.
  destruct (spread v !! k) as [x|]; [split; eauto|].
  destruct (decide (k ∈ object_prototype_names)) as [Hin|Hnot].
  - rewrite bool_decide_eq_true_2 by done. split; [by intros [? ?]|].
    intros [[? ?]|[_ ?]]; done.
  - rewrite bool_decide_eq_false_2 by done. split; [by right|].
    by intros [[? ?]|[? _]].
Qed.

Section FieldExtraction.
Context `{Runtime}.

(** The two ways [extractFieldsForTemplate] ends: the primary path with the
    completed fields of the parsed reply, or the fallback extraction. *)
Lemma extractFieldsForTemplate_cases text template all w :
  ∃ r w',
    OpenAI.extractFieldsForTemplate text template all w = (Returned r, w')
    ∧ ((∃ extraction fields,
          OpenAI.completion w = (Returned extraction, w')
          ∧ get extraction (u16 "extractedFields") = inr fields
          ∧ OpenAI.fe_extractedFields r = OpenAI.ensureAllFieldsPresent fields template
          ∧ OpenAI.fe_confidence r
            = js_or (prop_of extraction (u16 "confidence")) (JNum 0.7))
       ∨ ((∃ e, OpenAI.completion w = (Thrown e, w')
                ∨ ∃ extraction,
                    OpenAI.completion w = (Returned extraction, w')
                    ∧ get extraction (u16 "extractedFields") = inl e)
          ∧ r = OpenAI.createFallbackFieldExtraction text template)).
Proof.
  unfold OpenAI.extractFieldsForTemplate, try_catch, bind.
  destruct (OpenAI.completion w) as [[extraction|e] w1].
  - destruct (get extraction (u16 "extractedFields")) as [e|fields] eqn:E.
    + eexists _, _. split; [reflexivity|]. right. split; [|done].
      exists e. right. eauto.
    + eexists _, _. split; [reflexivity|]. left. eauto 10.
  - eexists _, _. split; [reflexivity|]. right. split; [|done]. eauto.
Qed.

End FieldExtraction.

(** ** Classification: the keyword-overlap fallback *)

(** The confidence of the keyword classifier in doubles: for one, two,
    three and more keywords [Math.min(0.8, 0.5 + matchCount * 0.1)] is the
    double of the literal 0.6, 0.7 and 0.8, so the levels are written as
    those decimals. *)
Lemma keywordMatching_doubles :
  Forall (λ n,
            Double.min (Double.literal 8 10)
              (Double.add (Double.literal 5 10)
                 (Double.mul (Double.of_Z (Z.of_nat n)) (Double.literal 1 10)))
            = Double.literal (Z.of_nat (Nat.min 8 (5 + n))) 10)
         (seq 1 64).
Proof.
  cbv [seq].
  repeat (apply Forall_cons; split); try (by apply Forall_nil);
    vm_compute; reflexivity.
Qed.

Lemma keywordMatching_first_match (text : jsstring) (cat : list OpenAI.DocumentType)
    (i : nat) (t : OpenAI.DocumentType) :
  cat !! i = Some t →
  0 < OpenAI.matchCount (toLowerCase text) t →
  (∀ j t', j < i → cat !! j = Some t' →
     OpenAI.matchCount (toLowerCase text) t' = 0) →
  OpenAI.keywordMatching text cat
  = (Some t,
     Qmin 0.8 (0.5 + inject_Z (Z.of_nat (OpenAI.matchCount (toLowerCase text) t)) * 0.1)).
Proof.
  intros Hi Hpos Hfirst. unfold OpenAI.keywordMatching.
  assert (list_find (λ template, 0 < OpenAI.matchCount (toLowerCase text) template) cat
          = Some (i, t)) as ->; [|done].
  apply list_find_Some. split; [done|]. split; [done|].
  intros j y Hj Hlt. rewrite (Hfirst j y Hlt Hj). lia.
Qed.

Lemma keywordMatching_no_match (text : jsstring) (cat : list OpenAI.DocumentType) :
  (∀ t, t ∈ cat → OpenAI.matchCount (toLowerCase text) t = 0) →
  OpenAI.keywordMatching text cat = (head cat, 0.5%Q).
Proof.
  intros Hnone. unfold OpenAI.keywordMatching.
  assert (list_find (λ template, 0 < OpenAI.matchCount (toLowerCase text) template) cat
          = None) as ->.
  { apply list_find_None, Forall_forall. intros t Ht. rewrite (Hnone t Ht). lia. }
  by rewrite head_lookup.
Qed.

(** The empty text contains a keyword only if the keyword is empty. *)
Lemma matchCount_empty_text (t : OpenAI.DocumentType) :
  [] ∉ OpenAI.getTemplateKeywords t → OpenAI.matchCount (toLowerCase []) t = 0.
Proof.
  intros Hk. unfold OpenAI.matchCount.
  induction (OpenAI.getTemplateKeywords t) as [|k l IH]; [done|].
  rewrite filter_cons. apply not_elem_of_cons in Hk as [Hne Hl].
  destruct (decide _) as [E|_]; [|by apply IH].
  cbn in E. apply includes_nil_l in E. destruct k; [done | discriminate].
Qed.

Lemma keywordMatching_empty_text (cat : list OpenAI.DocumentType) :
  (∀ t, t ∈ cat → [] ∉ OpenAI.getTemplateKeywords t) →
  OpenAI.keywordMatching [] cat = (head cat, 0.5%Q).
Proof.
  intros Hk. apply keywordMatching_no_match. intros t Ht.
  by apply matchCount_empty_text, Hk.
Qed.


Lemma keywordMatching_confidence (text : jsstring) (cat : list OpenAI.DocumentType) :
  (0 <= (OpenAI.keywordMatching text cat).2)%Q
  ∧ ((OpenAI.keywordMatching text cat).2 <= 1)%Q.
Proof.
  unfold OpenAI.keywordMatching.
  destruct (list_find _ cat) as [[i t]|]; cbn [snd]; [|split; lra].
  assert (0 <= inject_Z (Z.of_nat (OpenAI.matchCount (toLowerCase text) t)))%Q as Hk.
  { change 0%Q with (inject_Z 0). rewrite <- Zle_Qle. lia. }
  split.
  - apply Q.min_glb; lra.
  - eapply Qle_trans; [apply Q.le_min_l|]. lra.
Qed.

(** What [createFallbackAnalysis] returns once the loop has chosen a
    template; the services are not called. *)
Lemma createFallbackAnalysis_result text cat uid w t q :
  OpenAI.keywordMatching text cat = (Some t, q) →
  ∃ w',
    OpenAI.createFallbackAnalysis text cat uid w
    = (Returned
         {| OpenAI.documentType := JStr (OpenAI.name t);
            OpenAI.confidence := JNum q;
            OpenAI.reasoning :=
              JStr (u16 "Fallback analysis using keyword matching and pattern recognition");
            OpenAI.extractedFields := OpenAI.extractFieldsBasic text t;
            OpenAI.templateMatch := Some t;
            OpenAI.fieldMappingDetails := JArr [] |}, w')
    ∧ ollama w' = ollama w ∧ openai w' = openai w ∧ clock w' = clock w.
Proof.
  intros Hk. unfold OpenAI.createFallbackAnalysis. rewrite Hk.
  unfold bind, logAction, ret. eauto.
Qed.

Lemma createFallbackAnalysis_empty_catalog text uid w :
  OpenAI.createFallbackAnalysis text [] uid w = (Thrown type_error, w).
Proof. reflexivity. Qed.

(** C7 at its failing input.  The catalog holds a template whose name ends
    with a space: [split] leaves the empty string among its keywords, and
    every text, the empty one too, contains the empty string.  For the
    empty text the classifier then chooses that template, the second of the
    catalog, with confidence 0.6, where the claim has the first template
    with confidence 0.5. *)
Theorem C7_empty_keyword_matches_empty_text :
  [] ∈ OpenAI.getTemplateKeywords Examples.circular
  ∧ ∃ r w' q,
      OpenAI.createFallbackAnalysis [] [Examples.leave_letter; Examples.circular]
        Examples.user (Examples.world [] [])
      = (Returned r, w')
      ∧ OpenAI.templateMatch r = Some Examples.circular
      ∧ OpenAI.confidence r = JNum q
      ∧ Qeq q 0.6 ∧ ¬ Qeq q 0.5.
Proof.
  split; [vm_compute; set_solver|].
  eexists _, _, _. split; [vm_compute; reflexivity|].
  split; [reflexivity|]. split; [reflexivity|]. split; vm_compute; congruence.
Qed.

(** ** Document analysis as a whole *)

Section DocumentAnalysis.
Context `{Runtime}.

(** The classifier: the template the reply names, none when the reply
    names no template of the catalog, and the first template of the catalog
    when the request or the parsing of the reply fails. *)
Lemma findBestTemplate_cases (text : jsstring) (cat : list OpenAI.DocumentType)
    (w : World) :
  OpenAI.findBestTemplate text cat w
  = match OpenAI.completion w with
    | (Returned analysis, w1) =>
        match get analysis (u16 "bestTemplateId") with
        | inr v =>
            (Returned (snd <$> list_find (λ t, is_string v (OpenAI.id t) = true) cat), w1)
        | inl _ => (Returned (cat !! 0), w1)
        end
    | (Thrown _, w1) => (Returned (cat !! 0), w1)
    end.
Proof.
  unfold OpenAI.findBestTemplate, try_catch, bind.
  destruct (OpenAI.completion w) as [[analysis|e] w1]; [|reflexivity].
  destruct (get analysis (u16 "bestTemplateId")); reflexivity.
Qed.






Lemma analyzeDocument_empty_catalog (text uid : jsstring) (w : World) :
  ∃ w', OpenAI.analyzeDocument text [] uid w = (Thrown type_error, w').
Proof.
  unfold OpenAI.analyzeDocument, try_catch, bind.
  unfold OpenAI.log_start at 1, logAction at 1.
  rewrite findBestTemplate_cases.
  destruct (OpenAI.completion _) as [[analysis|e] w1].
  - destruct (get analysis (u16 "bestTemplateId")); cbn; eauto.
  - cbn. eauto.
Qed.

End DocumentAnalysis.




(** ** Confidence values *)

Lemma extractText_confidence (file : File) (uid : jsstring) (w : World) r w' :
  Ollama.extractTextFromDocument file uid w = (Returned r, w') →
  Ollama.confidence r = Ollama.calculateConfidence (Ollama.extractedText r).
Proof.
  unfold Ollama.extractTextFromDocument, bind, try_catch, now, logAction, fileToBase64.
  cbn -[u16 Ollama.processWithGemma3 list_to_map Ollama.calculateConfidence].
  destruct (contents file) as [url|];
    cbn -[u16 Ollama.processWithGemma3 list_to_map Ollama.calculateConfidence];
    [|discriminate].
  destruct (Ollama.processWithGemma3 _ _) as [[text|e] w1];
    cbn -[u16 list_to_map Ollama.calculateConfidence]; [|discriminate].
  intros [= <- _]. reflexivity.
Qed.

Lemma fallback_confidences (text : jsstring) :
  Spec.in_unit_interval
    (Stamp.StampDetectionResult.Confidence
       (Stamp.Analysis.Stamp (Stamp.fallbackTextAnalysis text)))
  ∧ Spec.in_unit_interval
      (Stamp.SignatureDetectionResult.Confidence
         (Stamp.Analysis.Signature (Stamp.fallbackTextAnalysis text))).
Proof.
  unfold Stamp.fallbackTextAnalysis.
  cbn [Stamp.Analysis.Stamp Stamp.Analysis.Signature
       Stamp.StampDetectionResult.Confidence Stamp.SignatureDetectionResult.Confidence].
  split; eexists; (split; [reflexivity|]);
    match goal with |- context [if ?b then _ else _] => destruct b end; split; lra.
Qed.

Lemma createFallbackAnalysis_confidence text cat uid w r w' :
  OpenAI.createFallbackAnalysis text cat uid w = (Returned r, w') →
  Spec.in_unit_interval (OpenAI.confidence r).
Proof.
  unfold OpenAI.createFallbackAnalysis.
  pose proof (keywordMatching_confidence text cat) as Hq.
  destruct (OpenAI.keywordMatching text cat) as [[t|] q]; [|discriminate].
  unfold bind, logAction, ret. intros [= <- _]. exists q. done.
Qed.

(** C5 (as amended).  Every confidence the services compute themselves is
    a number of [0,1]: the extraction confidence, which stage 1 returns
    with the text and which is 0 exactly when the text is empty; the stamp
    and signature confidences of the local heuristic analysis; the
    confidence of the keyword-overlap classification; the confidence of the
    fallback field extraction.  On the model paths the confidence is the
    value the model reported when that value is truthy, and 0.7 otherwise;
    it is not clamped. *)
Theorem C5_confidence_bounds `{Runtime} :
  (∀ text, (0 <= Ollama.calculateConfidence text)%Q
           ∧ (Ollama.calculateConfidence text <= 1)%Q)
  ∧ (∀ text, Qeq (Ollama.calculateConfidence text) 0 ↔ text = [])
  ∧ (∀ file uid w r w',
       Ollama.extractTextFromDocument file uid w = (Returned r, w') →
       Ollama.confidence r = Ollama.calculateConfidence (Ollama.extractedText r))
  ∧ (∀ text,
       Spec.in_unit_interval
         (Stamp.StampDetectionResult.Confidence
            (Stamp.Analysis.Stamp (Stamp.fallbackTextAnalysis text)))
       ∧ Spec.in_unit_interval
           (Stamp.SignatureDetectionResult.Confidence
              (Stamp.Analysis.Signature (Stamp.fallbackTextAnalysis text))))
  ∧ (∀ text cat uid w r w',
       OpenAI.createFallbackAnalysis text cat uid w = (Returned r, w') →
       Spec.in_unit_interval (OpenAI.confidence r))
  ∧ (∀ text template,
       Spec.in_unit_interval
         (OpenAI.fe_confidence (OpenAI.createFallbackFieldExtraction text template)))
  ∧ (∀ file text uid w t m o,
       is_Some (contents file) →
       Spec.analysis_text (next_reply (ollama w)) = Some t →
       regex_match Stamp.jsonPattern t = Some m →
       JSON_parse (whole m) = Some (JObj o) →
       ∃ r, Stamp.analyzeWithOllama file text uid w
            = (Returned r, Spec.after_ollama w)
            ∧ Stamp.StampDetectionResult.Confidence (Stamp.Analysis.Stamp r)
              = js_or (default JUndefined (o !! u16 "confidence_score")) (JNum 0.7)
            ∧ Stamp.SignatureDetectionResult.Confidence (Stamp.Analysis.Signature r)
              = js_or (default JUndefined (o !! u16 "confidence_score")) (JNum 0.7))
  ∧ (∀ text template all w extraction fields w1,
       OpenAI.completion w = (Returned extraction, w1) →
       get extraction (u16 "extractedFields") = inr fields →
       ∃ r, OpenAI.extractFieldsForTemplate text template all w = (Returned r, w1)
            ∧ OpenAI.fe_confidence r
              = js_or (prop_of extraction (u16 "confidence")) (JNum 0.7)).
Proof.
  split; [exact calculateConfidence_bounds|].
  split; [exact calculateConfidence_zero_iff|].
  split; [exact extractText_confidence|].
  split; [exact fallback_confidences|].
  split; [exact createFallbackAnalysis_confidence|].
  split; [intros; exists 0.6%Q; repeat split; lra|].
  split.
  - intros file text uid w t m o Hc Hr Hm Hp. eexists.
    split; [by apply analyzeWithOllama_reply|].
    rewrite (parse_reply_object t text m o Hm Hp). done.
  - intros text template all w extraction fields w1 Hc Hg.
    unfold OpenAI.extractFieldsForTemplate, try_catch, bind. rewrite Hc.
    cbn [lift]. rewrite Hg. eexists. split; reflexivity.
Qed.

Lemma C5_confidence_bounds_witness :
  Spec.in_unit_interval (JNum (OpenAI.keywordMatching (u16 "medal ceremony")
                                 [Examples.leave_letter; Examples.award]).2).
Proof.
  destruct (createFallbackAnalysis_result (u16 "medal ceremony")
              [Examples.leave_letter; Examples.award] Examples.user
              (Examples.world [] []) Examples.award
              (OpenAI.keywordMatching (u16 "medal ceremony")
                 [Examples.leave_letter; Examples.award]).2)
    as (w' & Hrun & _); [vm_compute; reflexivity|].
  exact (proj1 (proj2 (proj2 (proj2 (proj2 (@C5_confidence_bounds Examples.runtime)))))
           _ _ _ _ _ _ Hrun).
Defined.

(** C5 as stated fails on the model path: the vision model reports a
    confidence of 1.5 and the analyzer returns it as the stamp and the
    signature confidence. *)
Lemma C5_counterexample :
  ∃ r w',
    @Stamp.analyzeWithOllama Examples.runtime Examples.scan Examples.stamp_text
      Examples.user
      (Examples.world [Examples.generate_reply Examples.reply_overconfident] [])
    = (Returned r, w')
    ∧ Stamp.StampDetectionResult.Confidence (Stamp.Analysis.Stamp r) = JNum 1.5
    ∧ Stamp.SignatureDetectionResult.Confidence (Stamp.Analysis.Signature r) = JNum 1.5
    ∧ ¬ Spec.in_unit_interval (JNum 1.5).
Proof.
  eexists _, _. split; [vm_compute; reflexivity|].
  split; [reflexivity|]. split; [reflexivity|].
  intros (q & [= <-] & _ & Hle). revert Hle. vm_compute. congruence.
Qed.

(** ** Determinism of the fallbacks *)

(** C10.  The keyword-overlap classifier and the pattern extractor are
    functions of the text and the catalog alone.  The result of the
    fallback analysis is the same in any two worlds, whatever the replies
    the services hold, and it leaves those replies untouched; whenever the
    extraction request fails, in whatever way, the field extraction is the
    same value, the one the pattern extractor computes from the text and
    the template. *)
Theorem C10_fallbacks_are_pure `{Runtime} (text : jsstring)
    (cat : list OpenAI.DocumentType) (uid : jsstring) :
  (∀ w1 w2,
     (OpenAI.createFallbackAnalysis text cat uid w1).1
     = (OpenAI.createFallbackAnalysis text cat uid w2).1)
  ∧ (∀ w, ollama (OpenAI.createFallbackAnalysis text cat uid w).2 = ollama w
          ∧ openai (OpenAI.createFallbackAnalysis text cat uid w).2 = openai w)
  ∧ (∀ template w1 w2 e1 e2 w1' w2',
       OpenAI.completion w1 = (Thrown e1, w1') →
       OpenAI.completion w2 = (Thrown e2, w2') →
       (OpenAI.extractFieldsForTemplate text template cat w1).1
       = Returned (OpenAI.createFallbackFieldExtraction text template)
       ∧ (OpenAI.extractFieldsForTemplate text template cat w2).1
         = Returned (OpenAI.createFallbackFieldExtraction text template)).
Proof.
  split; [|split].
  - intros w1 w2. unfold OpenAI.createFallbackAnalysis.
    destruct (OpenAI.keywordMatching text cat) as [[t|] q]; reflexivity.
  - intros w. unfold OpenAI.createFallbackAnalysis.
    destruct (OpenAI.keywordMatching text cat) as [[t|] q]; split; reflexivity.
  - intros template w1 w2 e1 e2 w1' w2' H1 H2.
    unfold OpenAI.extractFieldsForTemplate, try_catch, bind. rewrite H1, H2.
    split; reflexivity.
Qed.

Lemma C10_fallbacks_are_pure_witness :
  (@OpenAI.extractFieldsForTemplate Examples.runtime (u16 "Name: Ravi")
     Examples.leave_letter [Examples.leave_letter] (Examples.world [] [])).1
  = Returned (OpenAI.createFallbackFieldExtraction (u16 "Name: Ravi")
                Examples.leave_letter)
  ∧ (@OpenAI.extractFieldsForTemplate Examples.runtime (u16 "Name: Ravi")
       Examples.leave_letter [Examples.leave_letter]
       (Examples.world [] [HttpStatus 503 (u16 "Service Unavailable")])).1
    = Returned (OpenAI.createFallbackFieldExtraction (u16 "Name: Ravi")
                  Examples.leave_letter).
Proof.
  eapply (proj2 (proj2 (@C10_fallbacks_are_pure Examples.runtime
            (u16 "Name: Ravi") [Examples.leave_letter] Examples.user)));
    vm_compute; reflexivity.
Defined.

(** ** Evaluation on concrete inputs *)

Example split_empty : split 32 [] = [[]].
Proof. reflexivity. Qed.

Example split_double_space :
  split 32 (u16 "a  b ") = [u16 "a"; []; u16 "b"; []].
Proof. reflexivity. Qed.

Example trim_ex : trim (u16 "  ab c ") = u16 "ab c".
Proof. reflexivity. Qed.

Example set_of_ex :
  set_of [u16 "a"; u16 "b"; u16 "a"; u16 "c"; u16 "b"] = [u16 "a"; u16 "b"; u16 "c"].
Proof. vm_compute. reflexivity. Qed.

Example date_match :
  group1 <$> regex_match Stamp.datePattern (u16 "on 12/05/20245 at")
  = Some (Some (u16 "12/05/2024")).
Proof. vm_compute. reflexivity. Qed.

Example every_stamp_matches_its_name :
  Forall (λ stamp, regex_test (Stamp.pattern stamp) (Stamp.name stamp) = true)
         Stamp.OFFICIAL_STAMP_MASTER_LIST.
Proof. repeat constructor; vm_compute; reflexivity. Qed.

Example stamp_pattern_stops_at_line_end :
  (λ stamp, regex_test (Stamp.pattern stamp)
     (u16 "STATE OFFICER TO ADGP APSP" ++ [10%N] ++ u16 "HEAD OFFICE MANGALAGIRI"))
    <$> Stamp.OFFICIAL_STAMP_MASTER_LIST !! 1
  = Some false.
Proof. vm_compute. reflexivity. Qed.

Example signer_and_date :
  let r := Stamp.fallbackTextAnalysis (u16 "Sd/- B. Sreenivasulu, IPS., 12-05-2024") in
  Stamp.Analysis.PersonName r = JStr (u16 "B. Sreenivasulu")
  ∧ Stamp.Analysis.Date r = JStr (u16 "12-05-2024")
  ∧ Stamp.SignatureDetectionResult.Status (Stamp.Analysis.Signature r) = Stamp.Present
  ∧ Stamp.Analysis.StampValidation r = Stamp.N_.
Proof. vm_compute. repeat split; reflexivity. Qed.

Example cleanJsonResponse_fenced :
  OpenAI.cleanJsonResponse (json_text "```json {'a': 1} ``` done")
  = json_text "{'a': 1}".
Proof. vm_compute. reflexivity. Qed.

Example fallback_fields_ex :
  OpenAI.extractFieldsBasic (u16 "Officer: Ravi Kumar") Examples.leave_letter
  = {[ u16 "officer_name" := JStr (u16 "Ravi Kumar"); u16 "days" := JNull ]}.
Proof. vm_compute. reflexivity. Qed.

Example keywords_ex :
  OpenAI.getTemplateKeywords Examples.award
  = [u16 "award"; u16 "reward"; u16 "certificate"; u16 "recognition"; u16 "medal"].
Proof. vm_compute. reflexivity. Qed.

Example keyword_fallback_ex :
  OpenAI.keywordMatching (u16 "Medal and certificate of recognition, reward")
    [Examples.leave_letter; Examples.award]
  = (Some Examples.award, Qmin 0.8 (0.5 + inject_Z 4 * 0.1)).
Proof. vm_compute. reflexivity. Qed.

(** ** The backtracking search against the reading of a pattern *)

Lemma rep_greedy_sound {A} (cs : charset) (s : jsstring) :
  ∀ lo hi (k : jsstring → option A) x,
    rep_greedy cs lo hi s k = Some x →
    ∃ u s', s = u ++ s' ∧ Forall (λ c, cs c = true) u ∧ lo ≤ length u
            ∧ (∀ h, hi = Some h → length u ≤ h) ∧ k s' = Some x.
Proof.
  induction s as [|c s IH]; intros lo hi k x; simpl.
  - destruct lo; [|done]. intros Hk. exists [], []. split_and!; try done.
    intros h _. simpl. lia.
  - assert (match lo with 0 => k (c :: s) | S _ => None end = Some x →
            ∃ u s', c :: s = u ++ s' ∧ Forall (λ c, cs c = true) u ∧ lo ≤ length u
                    ∧ (∀ h, hi = Some h → length u ≤ h) ∧ k s' = Some x) as Hstop.
    { destruct lo; [|done]. intros Hk. exists [], (c :: s). split_and!; try done.
      intros h _. simpl. lia. }
    destruct (cs c) eqn:Hc; [|exact Hstop].
    destruct (hi_allows hi) eqn:Hhi; [|exact Hstop]. simpl.
    destruct (rep_greedy cs (pred lo) (pred <$> hi) s k) as [y|] eqn:E; [|exact Hstop].
    intros [= ->]. destruct (IH _ _ _ _ E) as (u & s' & -> & Hu & Hlo & Hbound & Hk).
    exists (c :: u), s'. split_and!; try done.
    + by constructor.
    + simpl. lia.
    + intros h ->. specialize (Hbound (pred h) eq_refl).
      destruct h; [done|]. simpl in *. lia.
Qed.

Lemma rep_greedy_complete {A} (cs : charset) (s : jsstring) :
  ∀ lo hi (k : jsstring → option A),
    rep_greedy cs lo hi s k = None →
    ∀ u s', s = u ++ s' → Forall (λ c, cs c = true) u → lo ≤ length u →
            (∀ h, hi = Some h → length u ≤ h) → k s' = None.
Proof.
  induction s as [|c s IH]; intros lo hi k; simpl.
  - intros Hr u s' Hs Hu Hlo Hbound.
    symmetry in Hs. apply app_eq_nil in Hs as [-> ->]. simpl in Hlo.
    by destruct lo; [|lia].
  - intros Hr u s' Hs Hu Hlo Hbound. destruct u as [|c' u]; simpl in Hs.
    + subst s'. simpl in Hlo. destruct lo; [|lia].
      destruct (cs c && hi_allows hi); [|done].
      by destruct (rep_greedy cs (pred 0) (pred <$> hi) s k).
    + injection Hs as <- ->. apply Forall_cons in Hu as [Hc Hu]. rewrite Hc in Hr.
      assert (hi_allows hi = true) as Hhi.
      { destruct hi as [[|h]|]; try done. specialize (Hbound 0 eq_refl). simpl in Hbound. lia. }
      rewrite Hhi in Hr. simpl in Hr.
      destruct (rep_greedy cs (pred lo) (pred <$> hi) (u ++ s') k) eqn:E; [done|].
      eapply (IH _ _ _ E u s'); try done.
      * simpl in Hlo. lia.
      * intros h Hh. destruct hi as [h0|]; [|done]. injection Hh as <-.
        specialize (Hbound h0 eq_refl). simpl in Hbound. lia.
Qed.

(** Soundness: a successful run has consumed a string the pattern matches
    and has ended in its continuation with the capture the match leaves. *)
Lemma run_sound {A} (r : regex) :
  ∀ s cap (k : jsstring → option jsstring → option A) x,
    run r s cap k = Some x →
    ∃ u s' cap', s = u ++ s' ∧ matches r u cap cap' ∧ k s' cap' = Some x.
Proof.
  induction r as [|cs|cs lo hi|r1 IH1 r2 IH2|r1 IH1 r2 IH2|r1 IH1];
    intros s cap k x; simpl.
  - intros Hk. exists [], s, cap. split_and!; [done|constructor|done].
  - destruct s as [|c s]; [done|]. destruct (cs c) eqn:Hc; [|done]. intros Hk.
    exists [c], s, cap. split_and!; [done|by constructor|done].
  - intros Hr.
    destruct (rep_greedy_sound cs s lo hi _ x Hr) as (u & s' & -> & Hu & Hlo & Hb & Hk).
    exists u, s', cap. split_and!; [done|by constructor|done].
  - intros Hr.
    destruct (IH1 _ _ _ _ Hr) as (u1 & s1 & c1 & -> & Hm1 & Hr2).
    destruct (IH2 _ _ _ _ Hr2) as (u2 & s2 & c2 & -> & Hm2 & Hk).
    exists (u1 ++ u2), s2, c2. split_and!; [by rewrite app_assoc|by econstructor|done].
  - intros Hr. destruct (run r1 s cap k) as [y|] eqn:E.
    + injection Hr as ->. destruct (IH1 _ _ _ _ E) as (u & s' & c' & -> & Hm & Hk).
      exists u, s', c'. split_and!; [done|by apply matches_alt_l|done].
    + destruct (IH2 _ _ _ _ Hr) as (u & s' & c' & -> & Hm & Hk).
      exists u, s', c'. split_and!; [done|by apply matches_alt_r|done].
  - intros Hr. destruct (IH1 _ _ _ _ Hr) as (u & s' & c' & -> & Hm & Hk).
    exists u, s', (Some u). split_and!; [done|by econstructor|].
    rewrite length_app in Hk.
    replace (length u + length s' - length s') with (length u) in Hk by lia.
    by rewrite take_app_length in Hk.
Qed.

(** Completeness: when a run fails, the continuation fails after every
    string the pattern matches at the start of the input. *)
Lemma run_complete {A} (r : regex) :
  ∀ s cap (k : jsstring → option jsstring → option A),
    run r s cap k = None →
    ∀ u s' cap', s = u ++ s' → matches r u cap cap' → k s' cap' = None.
Proof.
  induction r as [|cs|cs lo hi|r1 IH1 r2 IH2|r1 IH1 r2 IH2|r1 IH1];
    intros s cap k; simpl; intros Hr u s' cap' Hs Hm; inversion Hm; subst; clear Hm.
  - done.
  - simpl in Hr.
    match goal with Hc : cs _ = true |- _ => by rewrite Hc in Hr end.
  - by eapply (rep_greedy_complete cs _ lo hi (λ s0, k s0 cap') Hr u s').
  - rewrite <- app_assoc in Hr.
    eapply IH2; [|reflexivity|eassumption].
    eapply (IH1 _ _ _ Hr); [reflexivity|eassumption].
  - destruct (run r1 (u ++ s') cap k) eqn:E; [done|]. by eapply IH1.
  - destruct (run r1 (u ++ s') cap k) eqn:E; [done|]. by eapply IH2.
  - match goal with Hm1 : matches r1 u cap ?c1 |- _ =>
      specialize (IH1 _ _ _ Hr u s' c1 eq_refl Hm1) end.
    simpl in IH1. rewrite length_app in IH1.
    replace (length u + length s' - length s') with (length u) in IH1 by lia.
    by rewrite take_app_length in IH1.
Qed.

Lemma matches_any_capture (r : regex) u c c' :
  matches r u c c' → ∀ d, ∃ d', matches r u d d'.
Proof.
  induction 1 as [c|cs x c Hx|cs lo hi u c Hu Hlo Hb
                  |r1 r2 u1 u2 c c1 c2 _ IH1 _ IH2
                  |r1 r2 u c c' _ IH|r1 r2 u c c' _ IH|r u c c1 _ IH]; intros d.
  - eexists. constructor.
  - eexists. by constructor.
  - eexists. by constructor.
  - destruct (IH1 d) as [d1 H1]. destruct (IH2 d1) as [d2 H2]. eexists. by econstructor.
  - destruct (IH d) as [d' H']. eexists. by apply matches_alt_l.
  - destruct (IH d) as [d' H']. eexists. by apply matches_alt_r.
  - destruct (IH d) as [d' H']. eexists. by econstructor.
Qed.

Lemma match_at_sound (r : regex) (s : jsstring) (m : MatchResult) :
  match_at r s = Some m →
  ∃ s', s = whole m ++ s' ∧ matches r (whole m) None (group1 m).
Proof.
  unfold match_at. intros Hr.
  destruct (run_sound r _ _ _ _ Hr) as (u & s' & c' & -> & Hm & [= <-]).
  cbn [whole group1]. rewrite length_app.
  replace (length u + length s' - length s') with (length u) by lia.
  rewrite take_app_length. eauto.
Qed.

Lemma match_at_complete (r : regex) (s : jsstring) :
  match_at r s = None → ∀ u s' c, s = u ++ s' → ¬ matches r u None c.
Proof.
  unfold match_at. intros Hr u s' c Hs Hm.
  by pose proof (run_complete r _ _ _ Hr u s' c Hs Hm).
Qed.

(** [s.match(r)] returns a match of the pattern inside [s]. *)
Lemma regex_match_sound (r : regex) (s : jsstring) (m : MatchResult) :
  regex_match r s = Some m →
  ∃ a b, s = a ++ whole m ++ b ∧ matches r (whole m) None (group1 m).
Proof.
  induction s as [|c s IH]; simpl.
  - destruct (match_at r []) as [m'|] eqn:E; [|done]. intros [= ->].
    destruct (match_at_sound _ _ _ E) as (s' & Hs & Hm). exists [], s'. eauto.
  - destruct (match_at r (c :: s)) as [m'|] eqn:E.
    + intros [= ->]. destruct (match_at_sound _ _ _ E) as (s' & Hs & Hm).
      exists [], s'. eauto.
    + intros Hr. destruct (IH Hr) as (a & b & -> & Hm). exists (c :: a), b. eauto.
Qed.

Lemma regex_match_at (r : regex) (s : jsstring) (m : MatchResult) :
  match_at r s = Some m → regex_match r s = Some m.
Proof. intros E. destruct s; simpl; by rewrite E. Qed.

(** [r.test(s)] is true exactly when some part of [s] matches the pattern. *)
Lemma regex_test_iff (r : regex) (s : jsstring) :
  regex_test r s = true ↔ ∃ a u b c, s = a ++ u ++ b ∧ matches r u None c.
Proof.
  unfold regex_test. rewrite bool_decide_eq_true. split.
  - intros [m Hm]. destruct (regex_match_sound _ _ _ Hm) as (a & b & Hs & Hmm). eauto 10.
  - intros (a & u & b & c & -> & Hm). induction a as [|x a IH].
    + destruct (match_at r ([] ++ u ++ b)) as [m|] eqn:E.
      * rewrite (regex_match_at _ _ _ E). eauto.
      * by destruct (match_at_complete _ _ E u b c eq_refl).
    + simpl. destruct (match_at r (x :: a ++ u ++ b)); eauto.
Qed.

(** ** Further facts on strings *)

Lemma toLowerCase_app (a b : jsstring) :
  toLowerCase (a ++ b) = toLowerCase a ++ toLowerCase b.
Proof. apply fmap_app. Qed.

Lemma lower_unit_idemp (c : N) : lower_unit (lower_unit c) = lower_unit c.
Proof.
  unfold lower_unit, is_upper.
  destruct (65 <=? c)%N eqn:E1, (c <=? 90)%N eqn:E2; simpl; try by rewrite ?E1, ?E2.
  apply N.leb_le in E1, E2.
  assert ((c + 32 <=? 90)%N = false) as -> by (apply N.leb_gt; lia).
  by rewrite andb_false_r.
Qed.

Lemma toLowerCase_idemp (s : jsstring) : toLowerCase (toLowerCase s) = toLowerCase s.
Proof.
  unfold toLowerCase. rewrite <- list_fmap_compose. apply list_fmap_ext.
  intros i x _. apply lower_unit_idemp.
Qed.

Lemma starts_with_iff (p s : jsstring) :
  starts_with p s = true ↔ ∃ b, s = p ++ b.
Proof.
  revert s. induction p as [|a p IH]; intros s; simpl.
  - split; eauto.
  - destruct s as [|c s]; [split; [done | by intros [b ?]]|].
    rewrite andb_true_iff, N.eqb_eq, IH. split.
    + intros [-> [b ->]]. eauto.
    + intros [b [= -> ->]]. eauto.
Qed.

(** [s.includes(p)] is true exactly when [p] occurs in [s]. *)
Lemma includes_iff (s p : jsstring) :
  includes s p = true ↔ Shape.occurs_in p s.
Proof.
  unfold Shape.occurs_in. induction s as [|c s IH]; simpl.
  - rewrite orb_false_r, starts_with_iff. split.
    + intros [b ->]. exists [], b. done.
    + intros (a & b & Hs). symmetry in Hs.
      apply app_eq_nil in Hs as [-> Hs]. apply app_eq_nil in Hs as [-> ->]. by exists [].
  - rewrite orb_true_iff, IH. split.
    + intros [Hst|(a & b & ->)].
      * apply (starts_with_iff p (c :: s)) in Hst as [b ->]. by exists [], b.
      * by exists (c :: a), b.
    + intros (a & b & Hs). destruct a as [|x a]; simpl in Hs.
      * left. apply (starts_with_iff p (c :: s)). eauto.
      * injection Hs as -> ->. right. eauto.
Qed.

Lemma trim_start_spec (s : jsstring) :
  ∃ a, s = a ++ trim_start s ∧ Shape.whitespace a
       ∧ ∀ c, head (trim_start s) = Some c → is_space c = false.
Proof.
  induction s as [|c s (a & Hs & Ha & Hh)]; simpl.
  - exists []. split_and!; [done|constructor|done].
  - destruct (is_space c) eqn:Hc.
    + exists (c :: a). split_and!; [by rewrite Hs at 1|by constructor|done].
    + exists []. split_and!; [done|constructor|]. by intros ? [= <-].
Qed.

(** [trim] removes whitespace at both ends and nothing else. *)
Lemma trim_spec (s : jsstring) :
  ∃ a b, s = a ++ trim s ++ b ∧ Shape.whitespace a ∧ Shape.whitespace b
         ∧ Shape.trimmed (trim s).
Proof.
  unfold trim.
  destruct (trim_start_spec s) as (a & Hs & Ha & Hh).
  destruct (trim_start_spec (reverse (trim_start s))) as (b & Hr & Hb & Hl).
  set (t := trim_start s) in *. set (t' := trim_start (reverse t)) in *.
  assert (t = reverse t' ++ reverse b) as Ht.
  { rewrite <- reverse_app, <- Hr. by rewrite reverse_involutive. }
  exists a, (reverse b). split_and!.
  - by rewrite <- Ht.
  - done.
  - unfold Shape.whitespace. by rewrite Forall_reverse.
  - split.
    + intros c Hc. apply Hh. rewrite Ht.
      destruct (reverse t'); [done|]. done.
    + intros c Hc. apply Hl. by rewrite last_reverse in Hc.
Qed.

Lemma trim_start_nonspace (s : jsstring) :
  (∀ c, head s = Some c → is_space c = false) → trim_start s = s.
Proof. destruct s as [|c s]; [done|]. intros H. simpl. by rewrite (H c). Qed.

(** A trimmed string is left as it is. *)
Lemma trim_trimmed (s : jsstring) : Shape.trimmed s → trim s = s.
Proof.
  intros [Hh Hl]. unfold trim. rewrite (trim_start_nonspace s Hh).
  rewrite trim_start_nonspace; [apply reverse_involutive|].
  intros c Hc. apply Hl. by rewrite <- last_reverse, reverse_involutive in Hc.
Qed.

Lemma trim_idemp (s : jsstring) : trim (trim s) = trim s.
Proof. destruct (trim_spec s) as (a & b & _ & _ & _ & Ht). by apply trim_trimmed. Qed.

Lemma trim_start_app_nonspace (pre rest : jsstring) (x : N) :
  is_space x = false →
  ∃ p1 p2, pre = p1 ++ p2 ∧ trim_start (pre ++ x :: rest) = p2 ++ x :: rest.
Proof.
  intros Hx. induction pre as [|c pre (p1 & p2 & Hp & Ht)]; simpl.
  - exists [], []. by rewrite Hx.
  - destruct (is_space c).
    + exists (c :: p1), p2. by rewrite Hp at 1.
    + by exists [], (c :: pre).
Qed.

(** Trimming around a core that begins and ends with a code unit that is no
    whitespace keeps the core and parts of what surrounds it. *)
Lemma trim_around (pre mid post : jsstring) (x y : N) :
  is_space x = false → is_space y = false →
  ∃ p1 p2 q1 q2,
    pre = p1 ++ p2 ∧ post = q1 ++ q2
    ∧ trim (pre ++ [x] ++ mid ++ [y] ++ post) = p2 ++ [x] ++ mid ++ [y] ++ q1.
Proof.
  intros Hx Hy. unfold trim.
  destruct (trim_start_app_nonspace pre (mid ++ [y] ++ post) x Hx) as (p1 & p2 & Hp & Ht).
  simpl. simpl in Ht. rewrite Ht.
  assert (reverse (p2 ++ x :: mid ++ y :: post)
          = reverse post ++ y :: reverse (p2 ++ x :: mid)) as ->.
  { replace (p2 ++ x :: mid ++ y :: post) with ((p2 ++ x :: mid) ++ y :: post)
      by (by rewrite <- app_assoc).
    rewrite reverse_app, reverse_cons, <- app_assoc. done. }
  destruct (trim_start_app_nonspace (reverse post) (reverse (p2 ++ x :: mid)) y Hy)
    as (r1 & r2 & Hr & Ht2).
  rewrite Ht2. exists p1, p2, (reverse r2), (reverse r1). split_and!.
  - done.
  - rewrite <- reverse_app, <- Hr. by rewrite reverse_involutive.
  - rewrite reverse_app, reverse_cons, reverse_involutive, <- !app_assoc. done.
Qed.

Lemma indexOf_app_fresh (c : N) (a b : jsstring) :
  c ∉ a → indexOf c (a ++ c :: b) = Some (length a).
Proof.
  induction a as [|x a IH]; simpl; intros Ha.
  - by rewrite N.eqb_refl.
  - apply not_elem_of_cons in Ha as [Hne Ha].
    destruct (N.eqb_spec x c); [congruence|]. by rewrite IH.
Qed.

Lemma indexOf_Some (c : N) (s : jsstring) (i : nat) :
  indexOf c s = Some i → s !! i = Some c ∧ ∀ j, j < i → s !! j ≠ Some c.
Proof.
  revert i. induction s as [|x s IH]; simpl; intros i; [done|].
  destruct (N.eqb_spec x c) as [->|Hne].
  - intros [= <-]. split; [done|]. intros j Hj. lia.
  - destruct (indexOf c s) as [i'|]; [|done]. intros [= <-].
    destruct (IH i' eq_refl) as [Hi Hlt]. split; [done|].
    intros [|j] Hj; simpl; [congruence|]. apply Hlt. lia.
Qed.

Lemma indexOf_le (c : N) (s : jsstring) (i : nat) :
  s !! i = Some c → ∃ f, indexOf c s = Some f ∧ f ≤ i.
Proof.
  revert i. induction s as [|x s IH]; intros i; [done|]. simpl.
  destruct (N.eqb_spec x c) as [->|Hne].
  - intros _. exists 0. split; [done|lia].
  - destruct i as [|i]; simpl; [congruence|]. intros Hi.
    destruct (IH i Hi) as (f & -> & Hf). exists (S f). split; [done|lia].
Qed.

Lemma lastIndexOf_Some (c : N) (s : jsstring) (l : nat) :
  lastIndexOf c s = Some l →
  s !! l = Some c ∧ l < length s ∧ ∀ j, l < j → s !! j ≠ Some c.
Proof.
  unfold lastIndexOf. destruct (indexOf c (reverse s)) as [i|] eqn:E; [|done].
  intros [= <-]. apply indexOf_Some in E as [Hi Hlt].
  apply reverse_lookup_Some in Hi as [Hi Hlen]. split_and!.
  - rewrite <- Hi. f_equal. lia.
  - lia.
  - intros j Hj Hc. assert (j < length s) as Hjl by (by apply lookup_lt_Some in Hc).
    apply (Hlt (length s - S j)); [lia|].
    apply reverse_lookup_Some. split; [|lia]. rewrite <- Hc. f_equal. lia.
Qed.

Lemma lastIndexOf_ge (c : N) (s : jsstring) (j : nat) :
  s !! j = Some c → ∃ l, lastIndexOf c s = Some l ∧ j ≤ l.
Proof.
  intros Hj. assert (j < length s) as Hjl by (by apply lookup_lt_Some in Hj).
  unfold lastIndexOf.
  destruct (indexOf_le c (reverse s) (length s - S j)) as (f & -> & Hf).
  { apply reverse_lookup_Some. split; [|lia]. rewrite <- Hj. f_equal. lia. }
  eexists. split; [done|]. lia.
Qed.

(** ** Cleaning of a model's reply *)

Lemma remove_all_fuel (r : regex) :
  ∀ n m s, length s < n → length s < m → remove_all n r s = remove_all m r s.
Proof.
  induction n as [|n IH]; intros m s Hn Hm; [lia|]. destruct m as [|m]; [lia|].
  simpl. destruct (match_at r s) as [mr|], s as [|c s']; try done.
  - simpl in Hn, Hm. destruct (whole mr) as [|x w].
    + f_equal. apply IH; lia.
    + apply IH; simpl; rewrite length_drop; lia.
  - simpl in Hn, Hm. f_equal. apply IH; lia.
Qed.

Lemma replace_all_empty_nil (r : regex) : replace_all_empty r [] = [].
Proof. unfold replace_all_empty. simpl. by destruct (match_at r []). Qed.

Lemma remove_all_S (n : nat) (r : regex) (s : jsstring) :
  remove_all (S n) r s
  = match match_at r s, s with
    | Some m, c :: s' =>
        match whole m with
        | [] => c :: remove_all n r s'
        | _ :: _ => remove_all n r (drop (length (whole m)) s)
        end
    | None, c :: s' => c :: remove_all n r s'
    | _, [] => []
    end.
Proof. reflexivity. Qed.

Lemma replace_all_empty_skip (r : regex) (c : N) (s : jsstring) :
  match_at r (c :: s) = None →
  replace_all_empty r (c :: s) = c :: replace_all_empty r s.
Proof.
  intros E. unfold replace_all_empty.
  rewrite (remove_all_S (length (c :: s)) r (c :: s)), E. done.
Qed.

Lemma replace_all_empty_hit (r : regex) (s : jsstring) (m : MatchResult) :
  match_at r s = Some m → whole m ≠ [] →
  replace_all_empty r s = replace_all_empty r (drop (length (whole m)) s).
Proof.
  intros E Hw. unfold replace_all_empty.
  rewrite (remove_all_S (length s) r s), E. destruct s as [|c s'].
  - destruct (match_at_sound _ _ _ E) as (s' & Hs & _).
    symmetry in Hs. apply app_eq_nil in Hs as [Hs _]. done.
  - destruct (whole m) as [|x w] eqn:Ew; [done|].
    apply remove_all_fuel; simpl; rewrite length_drop; lia.
Qed.

Lemma matches_lit (w u : jsstring) c c' :
  matches (lit w) u c c' → u = w ∧ c' = c.
Proof.
  revert u c c'. induction w as [|x w IH]; intros u c c' Hm.
  - by inversion Hm.
  - change (lit (x :: w)) with (Seq (Cls (chr x)) (lit w)) in Hm.
    inversion Hm as [| | |r1 r2 u1 u2 c0 c1 c2 H1 H2| | |]; subst.
    inversion H1 as [|cs y c0 Hy| | | | |]; subst.
    apply IH in H2 as [-> ->]. apply N.eqb_eq in Hy as ->. done.
Qed.

(** A fence is found only where the text begins with it. *)
Lemma fence_starts (w : jsstring) (cs : charset) (s : jsstring) (m : MatchResult) :
  match_at (cat [lit w; star cs]) s = Some m → ∃ b, s = w ++ b.
Proof.
  intros E. destruct (match_at_sound _ _ _ E) as (s' & Hs & Hm).
  change (cat [lit w; star cs]) with (Seq (lit w) (Seq (star cs) Eps)) in Hm.
  remember (whole m) as u eqn:Hu. clear Hu.
  inversion Hm; subst.
  match goal with H1 : matches (lit w) _ _ _ |- _ =>
    apply matches_lit in H1 as [-> _] end.
  rewrite <- app_assoc. eauto.
Qed.

Lemma run_lit {A} (w s : jsstring) cap (k : jsstring → option jsstring → option A) :
  run (lit w) (w ++ s) cap k = k s cap.
Proof.
  induction w as [|x w IH]; [done|].
  change (lit (x :: w)) with (Seq (Cls (chr x)) (lit w)). simpl.
  unfold chr at 1. by rewrite N.eqb_refl.
Qed.

Lemma rep_greedy_run {A} (cs : charset) (ws rest : jsstring)
    (k : jsstring → option A) (x : A) :
  Forall (λ c, cs c = true) ws →
  (∀ c, head rest = Some c → cs c = false) →
  k rest = Some x →
  rep_greedy cs 0 None (ws ++ rest) k = Some x.
Proof.
  intros Hws Hrest Hk. induction Hws as [|c ws Hc _ IH]; simpl.
  - destruct rest as [|c rest]; [done|]. simpl. by rewrite (Hrest c eq_refl).
  - by rewrite Hc, IH.
Qed.

(** A fence followed by whitespace is found whole. *)
Lemma fence_found (w ws rest : jsstring) (cs : charset) :
  Forall (λ c, cs c = true) ws →
  (∀ c, head rest = Some c → cs c = false) →
  ∃ m, match_at (cat [lit w; star cs]) (w ++ ws ++ rest) = Some m
       ∧ whole m = w ++ ws.
Proof.
  intros Hws Hrest. eexists. split.
  - unfold match_at.
    change (cat [lit w; star cs]) with (Seq (lit w) (Seq (star cs) Eps)).
    simpl. rewrite run_lit. by apply rep_greedy_run.
  - cbn [whole]. rewrite !length_app.
    replace (length w + (length ws + length rest) - length rest)
      with (length (w ++ ws)) by (rewrite length_app; lia).
    by rewrite app_assoc, take_app_length.
Qed.

Lemma replace_all_empty_keep (w : jsstring) (cs : charset) (x : N) (a b : jsstring) :
  head w = Some x → x ∉ a →
  replace_all_empty (cat [lit w; star cs]) (a ++ b)
  = a ++ replace_all_empty (cat [lit w; star cs]) b.
Proof.
  intros Hw Ha. induction a as [|c a IH]; [done|].
  apply not_elem_of_cons in Ha as [Hne Ha].
  change ((c :: a) ++ b) with (c :: (a ++ b)).
  rewrite replace_all_empty_skip; [by rewrite IH|].
  destruct (match_at _ (c :: a ++ b)) as [m|] eqn:E; [|done].
  destruct (fence_starts _ _ _ _ E) as [b' Hs].
  destruct w as [|y w]; [done|]. injection Hw as ->. by injection Hs as ->.
Qed.

Lemma replace_all_empty_id (w : jsstring) (cs : charset) (x : N) (a : jsstring) :
  head w = Some x → x ∉ a → replace_all_empty (cat [lit w; star cs]) a = a.
Proof.
  intros Hw Ha. rewrite <- (app_nil_r a) at 1.
  rewrite (replace_all_empty_keep w cs x a [] Hw Ha), replace_all_empty_nil.
  apply app_nil_r.
Qed.

(** The brace extraction on a text that begins with the opening and ends
    with the closing brace. *)
Lemma braces_of_object (p2 body q1 : jsstring) :
  123%N ∉ p2 → 125%N ∉ q1 →
  match indexOf 123 (p2 ++ [123%N] ++ body ++ [125%N] ++ q1),
        lastIndexOf 125 (p2 ++ [123%N] ++ body ++ [125%N] ++ q1) with
  | Some firstBrace, Some lastBrace =>
      if decide (firstBrace < lastBrace)
      then substring firstBrace (lastBrace + 1)
             (p2 ++ [123%N] ++ body ++ [125%N] ++ q1)
      else p2 ++ [123%N] ++ body ++ [125%N] ++ q1
  | _, _ => p2 ++ [123%N] ++ body ++ [125%N] ++ q1
  end = [123%N] ++ body ++ [125%N].
Proof.
  intros Hp Hq. simpl. rewrite (indexOf_app_fresh 123 p2) by done.
  unfold lastIndexOf.
  assert (reverse (p2 ++ 123%N :: body ++ 125%N :: q1)
          = reverse q1 ++ 125%N :: reverse (p2 ++ 123%N :: body)) as ->.
  { replace (p2 ++ 123%N :: body ++ 125%N :: q1)
      with ((p2 ++ 123%N :: body) ++ 125%N :: q1) by (by rewrite <- app_assoc).
    by rewrite reverse_app, reverse_cons, <- app_assoc. }
  rewrite indexOf_app_fresh by (by rewrite elem_of_reverse).
  cbn [fmap option_fmap option_map]. rewrite length_reverse, !length_app. simpl.
  rewrite length_app. simpl.
  destruct (decide _) as [_|Hge]; [|lia].
  unfold substring. rewrite drop_app_length.
  replace (length p2 + S (length body + S (length q1)) - 1 - length q1 + 1 - length p2)
    with (length (123%N :: body ++ [125%N])) by (simpl; rewrite length_app; simpl; lia).
  replace (123%N :: body ++ 125%N :: q1) with ((123%N :: body ++ [125%N]) ++ q1)
    by (simpl; by rewrite <- app_assoc).
  by rewrite take_app_length.
Qed.

(** X1.  A JSON object wrapped in prose comes out alone: when the reply is
    some text without brace or backtick, then an object text, then some text
    without brace or backtick, [cleanJsonResponse] returns the object
    text. *)
Theorem cleanJsonResponse_prose (pre j post : jsstring) :
  Shape.object_text j →
  96%N ∉ pre → 123%N ∉ pre → 96%N ∉ post → 125%N ∉ post →
  OpenAI.cleanJsonResponse (pre ++ j ++ post) = j.
Proof.
  intros [[body ->] Hj] Hpre1 Hpre2 Hpost1 Hpost2. unfold OpenAI.cleanJsonResponse.
  assert (96%N ∉ pre ++ ([123%N] ++ body ++ [125%N]) ++ post) as Hall.
  { intros Hin. apply elem_of_app in Hin as [?|Hin]; [done|].
    apply elem_of_app in Hin as [?|?]; [by apply Hj|done]. }
  unfold OpenAI.fence_json, OpenAI.fence.
  rewrite (replace_all_empty_id (u16 "```json") is_space 96) by done.
  rewrite (replace_all_empty_id (u16 "```") is_space 96) by done.
  destruct (trim_around pre body post 123 125 eq_refl eq_refl)
    as (p1 & p2 & q1 & q2 & Hp & Hq & Ht).
  replace (pre ++ ([123%N] ++ body ++ [125%N]) ++ post)
    with (pre ++ [123%N] ++ body ++ [125%N] ++ post)
    by (by rewrite <- !app_assoc).
  rewrite Ht. apply braces_of_object.
  - intros Hin. apply Hpre2. rewrite Hp, elem_of_app. by right.
  - intros Hin. apply Hpost2. rewrite Hq, elem_of_app. by left.
Qed.

Lemma cleanJsonResponse_prose_witness :
  OpenAI.cleanJsonResponse
    (u16 "Here is the result: " ++ json_text "{'bestTemplateId': 'award'}"
     ++ u16 " Hope this helps.")
  = json_text "{'bestTemplateId': 'award'}".
Proof.
  apply cleanJsonResponse_prose.
  - split; [by exists (json_text "'bestTemplateId': 'award'")|].
    apply (bool_decide_unpack _). vm_compute. exact I.
  - apply (bool_decide_unpack _). vm_compute. exact I.
  - apply (bool_decide_unpack _). vm_compute. exact I.
  - apply (bool_decide_unpack _). vm_compute. exact I.
  - apply (bool_decide_unpack _). vm_compute. exact I.
Defined.

Lemma whitespace_not (ws : jsstring) (x : N) :
  is_space x = false → Shape.whitespace ws → x ∉ ws.
Proof.
  intros Hx Hws Hin. unfold Shape.whitespace in Hws. rewrite Forall_forall in Hws.
  specialize (Hws x Hin). congruence.
Qed.

Lemma whitespace_head (ws : jsstring) (c : N) :
  Shape.whitespace ws → head ws = Some c → is_space c = true.
Proof. intros Hws. destruct ws; [done|]. intros [= ->]. by apply Forall_cons in Hws as [? _]. Qed.

Lemma trim_start_whitespace_app (a b : jsstring) :
  Shape.whitespace a → (∀ c, head b = Some c → is_space c = false) →
  trim_start (a ++ b) = b.
Proof.
  intros Ha Hb. induction Ha as [|c a Hc _ IH]; simpl.
  - by apply trim_start_nonspace.
  - by rewrite Hc.
Qed.

Lemma trim_trailing (x y : N) (mid ws : jsstring) :
  is_space x = false → is_space y = false → Shape.whitespace ws →
  trim (x :: mid ++ [y] ++ ws) = x :: mid ++ [y].
Proof.
  intros Hx Hy Hws. unfold trim.
  assert (trim_start (x :: mid ++ [y] ++ ws) = (x :: mid ++ [y]) ++ ws) as ->.
  { simpl. rewrite Hx. by rewrite <- app_assoc. }
  rewrite reverse_app, trim_start_whitespace_app.
  - apply reverse_involutive.
  - unfold Shape.whitespace. by rewrite Forall_reverse.
  - intros c. rewrite <- last_reverse, reverse_involutive.
    change (x :: mid ++ [y]) with ((x :: mid) ++ [y]). rewrite last_snoc. by intros [= <-].
Qed.

(** The reply inside a markdown fence. *)
Lemma cleanJson_markdown (ws1 j ws2 ws3 : jsstring) :
  Shape.whitespace ws1 → Shape.whitespace ws2 → Shape.whitespace ws3 →
  Shape.object_text j →
  OpenAI.cleanJsonResponse (u16 "```json" ++ ws1 ++ j ++ ws2 ++ u16 "```" ++ ws3) = j.
Proof.
  intros H1 H2 H3 [[body ->] Hj]. unfold OpenAI.cleanJsonResponse.
  unfold OpenAI.fence_json, OpenAI.fence.
  set (core := [123%N] ++ body ++ [125%N]) in *.
  assert (96%N ∉ core ++ ws2) as Hkeep.
  { intros Hin. apply elem_of_app in Hin as [?|?]; [done|].
    by eapply (whitespace_not ws2 96). }
  assert (∀ c, head (core ++ ws2 ++ u16 "```" ++ ws3) = Some c → is_space c = false)
    as Hhead by (by intros c [= <-]).
  (* first pass: the opening fence goes, the closing fence has no tag *)
  destruct (fence_found (u16 "```json") ws1 (core ++ ws2 ++ u16 "```" ++ ws3)
              is_space H1 Hhead) as (m1 & Hm1 & Hw1).
  rewrite (replace_all_empty_hit _ _ m1 Hm1) by (by rewrite Hw1).
  rewrite Hw1, app_assoc, drop_app_length.
  rewrite (app_assoc core ws2).
  rewrite (replace_all_empty_keep (u16 "```json") is_space 96 (core ++ ws2)) by done.
  assert (replace_all_empty (cat [lit (u16 "```json"); star is_space]) (u16 "```" ++ ws3)
          = u16 "```" ++ ws3) as ->.
  { change (u16 "```" ++ ws3) with (96%N :: 96%N :: 96%N :: ws3).
    assert (∀ t, t = [96%N; 96%N; 96%N] ∨ t = [96%N; 96%N] ∨ t = [96%N] →
                 ¬ ∃ b, t ++ ws3 = u16 "```json" ++ b) as Hno.
    { intros t Ht [b Hb]. destruct ws3 as [|c ws3'].
      - destruct Ht as [-> | [-> | ->]]; discriminate Hb.
      - apply Forall_cons in H3 as [Hc _].
        destruct Ht as [-> | [-> | ->]]; simplify_eq/=; by vm_compute in Hc. }
    rewrite replace_all_empty_skip; [f_equal|].
    2:{ destruct (match_at _ (96%N :: 96%N :: 96%N :: ws3)) as [m|] eqn:E; [|done].
        exfalso. eapply (Hno [96%N; 96%N; 96%N]); [by left|].
        exact (fence_starts _ _ _ _ E). }
    rewrite replace_all_empty_skip; [f_equal|].
    2:{ destruct (match_at _ (96%N :: 96%N :: ws3)) as [m|] eqn:E; [|done].
        exfalso. eapply (Hno [96%N; 96%N]); [by right; left|].
        exact (fence_starts _ _ _ _ E). }
    rewrite replace_all_empty_skip; [f_equal|].
    2:{ destruct (match_at _ (96%N :: ws3)) as [m|] eqn:E; [|done].
        exfalso. eapply (Hno [96%N]); [by right; right|].
        exact (fence_starts _ _ _ _ E). }
    apply (replace_all_empty_id _ _ 96); [done|]. by apply whitespace_not. }
  (* second pass: the closing fence goes with the whitespace after it *)
  rewrite (replace_all_empty_keep (u16 "```") is_space 96 (core ++ ws2)) by done.
  destruct (fence_found (u16 "```") ws3 [] is_space H3) as (m2 & Hm2 & Hw2); [done|].
  rewrite app_nil_r in Hm2.
  rewrite (replace_all_empty_hit _ _ m2 Hm2) by (by rewrite Hw2).
  rewrite Hw2, drop_all, replace_all_empty_nil, app_nil_r.
  (* trimming and the brace extraction *)
  unfold core.
  replace (([123%N] ++ body ++ [125%N]) ++ ws2) with (123%N :: body ++ [125%N] ++ ws2)
    by (simpl; by rewrite <- app_assoc).
  rewrite (trim_trailing 123 125 body ws2) by done.
  apply (braces_of_object [] body []); apply not_elem_of_nil.
Qed.

(** X2.  A JSON object inside a markdown fence comes out alone: the reply
    is the opening fence with its language tag, whitespace, an object text,
    whitespace, the closing fence and whitespace. *)
Theorem cleanJsonResponse_markdown (ws1 j ws2 ws3 : jsstring) :
  Shape.whitespace ws1 → Shape.whitespace ws2 → Shape.whitespace ws3 →
  Shape.object_text j →
  OpenAI.cleanJsonResponse (u16 "```json" ++ ws1 ++ j ++ ws2 ++ u16 "```" ++ ws3) = j.
Proof. apply cleanJson_markdown. Qed.

Lemma cleanJsonResponse_markdown_witness :
  OpenAI.cleanJsonResponse
    (u16 "```json" ++ [10%N] ++ json_text "{'confidence': 0.9}" ++ [10%N]
     ++ u16 "```" ++ [])
  = json_text "{'confidence': 0.9}".
Proof.
  apply (cleanJsonResponse_markdown [10%N] (json_text "{'confidence': 0.9}") [10%N] []).
  - by repeat constructor.
  - by repeat constructor.
  - constructor.
  - split; [by exists (json_text "'confidence': 0.9")|].
    apply (bool_decide_unpack _). vm_compute. exact I.
Defined.

(** X3.  Whenever the cleaned reply still has an opening brace before a
    closing brace, it begins with an opening and ends with a closing
    brace: the brace extraction leaves nothing outside the outermost
    braces. *)
Theorem cleanJsonResponse_braces (content : jsstring) (i j : nat) :
  OpenAI.cleanJsonResponse content !! i = Some 123%N →
  OpenAI.cleanJsonResponse content !! j = Some 125%N →
  i < j →
  head (OpenAI.cleanJsonResponse content) = Some 123%N
  ∧ last (OpenAI.cleanJsonResponse content) = Some 125%N.
Proof.
  unfold OpenAI.cleanJsonResponse.
  set (pre := trim _).
  destruct (indexOf 123 pre) as [f|] eqn:Ef.
  2:{ intros Hi _ _. destruct (indexOf_le _ _ _ Hi) as (f & Hf & _). congruence. }
  destruct (lastIndexOf 125 pre) as [l|] eqn:El.
  2:{ intros _ Hj _. destruct (lastIndexOf_ge _ _ _ Hj) as (l & Hl & _). congruence. }
  destruct (decide (f < l)) as [Hfl|Hfl].
  - intros _ _ _. apply indexOf_Some in Ef as [Hf _].
    apply lastIndexOf_Some in El as (Hl & Hlen & _).
    unfold substring. split.
    + rewrite head_lookup, lookup_take_lt by lia. rewrite lookup_drop.
      by rewrite Nat.add_0_r.
    + rewrite last_lookup, length_take, length_drop.
      replace (pred ((l + 1 - f) `min` (length pre - f))) with (l - f) by lia.
      rewrite lookup_take_lt by lia. rewrite lookup_drop.
      by replace (f + (l - f)) with l by lia.
  - intros Hi Hj Hij.
    destruct (indexOf_le _ _ _ Hi) as (f' & Hf' & Hle).
    destruct (lastIndexOf_ge _ _ _ Hj) as (l' & Hl' & Hge).
    rewrite Ef in Hf'. rewrite El in Hl'. simplify_eq. lia.
Qed.

Lemma cleanJsonResponse_braces_witness :
  head (OpenAI.cleanJsonResponse (u16 "note {a} and {b} end")) = Some 123%N
  ∧ last (OpenAI.cleanJsonResponse (u16 "note {a} and {b} end")) = Some 125%N.
Proof.
  apply (cleanJsonResponse_braces (u16 "note {a} and {b} end") 0 2);
    [vm_compute; reflexivity | vm_compute; reflexivity | lia].
Defined.

(** ** Letter case and the patterns *)

Lemma is_upper_range (x : N) : is_upper x = true ↔ (65 ≤ x ≤ 90)%N.
Proof. unfold is_upper. rewrite andb_true_iff, !N.leb_le. done. Qed.

Lemma is_lower_range (x : N) : is_lower x = true ↔ (97 ≤ x ≤ 122)%N.
Proof. unfold is_lower. rewrite andb_true_iff, !N.leb_le. done. Qed.

Lemma lower_unit_cases (x : N) :
  ((65 ≤ x ≤ 90)%N ∧ lower_unit x = (x + 32)%N)
  ∨ (¬ (65 ≤ x ≤ 90)%N ∧ lower_unit x = x).
Proof.
  unfold lower_unit. destruct (is_upper x) eqn:E.
  - left. by apply is_upper_range in E.
  - right. split; [|done]. rewrite <- is_upper_range. congruence.
Qed.

Lemma upper_unit_cases (x : N) :
  ((97 ≤ x ≤ 122)%N ∧ upper_unit x = (x - 32)%N)
  ∨ (¬ (97 ≤ x ≤ 122)%N ∧ upper_unit x = x).
Proof.
  unfold upper_unit. destruct (is_lower x) eqn:E.
  - left. by apply is_lower_range in E.
  - right. split; [|done]. rewrite <- is_lower_range. congruence.
Qed.

Lemma upper_lower_unit (x : N) : upper_unit (lower_unit x) = upper_unit x.
Proof.
  destruct (lower_unit_cases x) as [[Hx ->]|[Hx ->]]; [|done].
  destruct (upper_unit_cases (x + 32)) as [[_ ->]|[Hn _]];
    destruct (upper_unit_cases x) as [[Hl _]|[_ ->]]; lia.
Qed.

(** Two code units the [i] flag identifies have the same lower case. *)
Lemma chr_i_lower (c x : N) : chr_i c x = true → lower_unit x = lower_unit c.
Proof.
  unfold chr_i. rewrite N.eqb_eq.
  destruct (upper_unit_cases x) as [[Hx ->]|[Hx ->]],
           (upper_unit_cases c) as [[Hc ->]|[Hc ->]],
           (lower_unit_cases x) as [[Hx' ->]|[Hx' ->]],
           (lower_unit_cases c) as [[Hc' ->]|[Hc' ->]]; lia.
Qed.

Lemma chr_i_blind (c x : N) : chr_i c (lower_unit x) = chr_i c x.
Proof. unfold chr_i. by rewrite upper_lower_unit. Qed.

Lemma is_space_upper (x : N) : (65 ≤ x ≤ 122)%N → is_space x = false.
Proof.
  intros Hx. unfold is_space, is_line_terminator.
  repeat match goal with
  | |- context [(x =? ?b)%N] =>
      replace (x =? b)%N with false by (symmetry; apply N.eqb_neq; lia)
  end.
  replace (8192 <=? x)%N with false by (symmetry; apply N.leb_gt; lia). done.
Qed.

Lemma is_space_blind (x : N) : is_space (lower_unit x) = is_space x.
Proof.
  destruct (lower_unit_cases x) as [[Hx ->]|[Hx ->]]; [|done].
  rewrite !is_space_upper by lia. done.
Qed.

Lemma dot_blind (x : N) : dot (lower_unit x) = dot x.
Proof.
  destruct (lower_unit_cases x) as [[Hx ->]|[Hx ->]]; [|done].
  unfold dot, is_line_terminator.
  repeat match goal with
  | |- context [(?a =? ?b)%N] =>
      replace (a =? b)%N with false by (symmetry; apply N.eqb_neq; lia)
  end. done.
Qed.

Lemma is_digit_blind (x : N) : is_digit (lower_unit x) = is_digit x.
Proof.
  destruct (lower_unit_cases x) as [[Hx ->]|[Hx ->]]; [|done].
  unfold is_digit.
  replace (x + 32 <=? 57)%N with false by (symmetry; apply N.leb_gt; lia).
  replace (x <=? 57)%N with false by (symmetry; apply N.leb_gt; lia).
  by rewrite !andb_false_r.
Qed.

Lemma is_letter_blind (x : N) : is_letter (lower_unit x) = is_letter x.
Proof.
  destruct (lower_unit_cases x) as [[Hx ->]|[Hx ->]]; [|done].
  unfold is_letter.
  assert (is_upper x = true) as -> by (by apply is_upper_range).
  assert (is_lower (x + 32) = true) as -> by (apply is_lower_range; lia).
  by rewrite orb_true_r.
Qed.

Lemma case_blind_cat (l : list regex) : Forall case_blind l → case_blind (cat l).
Proof. induction 1; simpl; done. Qed.

Lemma case_blind_lit_i (w : jsstring) : case_blind (lit_i w).
Proof.
  unfold lit_i. apply case_blind_cat. induction w as [|c w IH]; constructor; [|done].
  intros x. apply chr_i_blind.
Qed.

Lemma lower_eq_Forall (cs : charset) :
  (∀ x, cs (lower_unit x) = cs x) →
  ∀ u v, toLowerCase v = toLowerCase u →
         Forall (λ x, cs x = true) u → Forall (λ x, cs x = true) v.
Proof.
  intros Hcs u. induction u as [|x u IH]; intros [|y v] E Hu; try done.
  injection E as Exy E. apply Forall_cons in Hu as [Hx Hu]. constructor.
  - by rewrite <- Hcs, Exy, Hcs.
  - by apply IH.
Qed.

(** A pattern that is blind to letter case matches a string exactly when it
    matches the strings of the same lower case. *)
Lemma matches_lower (r : regex) u c c' :
  matches r u c c' → case_blind r →
  ∀ v d, toLowerCase v = toLowerCase u → ∃ d', matches r v d d'.
Proof.
  induction 1 as [c|cs x c Hx|cs lo hi u c Hu Hlo Hb
                  |r1 r2 u1 u2 c c1 c2 _ IH1 _ IH2
                  |r1 r2 u c c' _ IH|r1 r2 u c c' _ IH|r u c c1 _ IH];
    simpl; intros Hblind v d E.
  - destruct v; [|done]. eexists. constructor.
  - destruct v as [|y [|? ?]]; try done. injection E as E.
    eexists. constructor. by rewrite <- Hblind, E, Hblind.
  - eexists. constructor.
    + by eapply lower_eq_Forall.
    + apply (f_equal length) in E. unfold toLowerCase in E.
      rewrite !length_fmap in E. lia.
    + intros h Hh. apply (f_equal length) in E. unfold toLowerCase in E.
      rewrite !length_fmap in E. rewrite E. by apply Hb.
  - destruct Hblind as [Hb1 Hb2].
    rewrite toLowerCase_app in E.
    assert (toLowerCase (take (length u1) v) = toLowerCase u1) as E1.
    { unfold toLowerCase in *. rewrite fmap_take, E.
      rewrite <- (length_fmap lower_unit u1). by rewrite take_app_length. }
    assert (toLowerCase (drop (length u1) v) = toLowerCase u2) as E2.
    { unfold toLowerCase in *. rewrite fmap_drop, E.
      rewrite <- (length_fmap lower_unit u1). by rewrite drop_app_length. }
    destruct (IH1 Hb1 _ d E1) as [d1 H1]. destruct (IH2 Hb2 _ d1 E2) as [d2 H2].
    exists d2. rewrite <- (take_drop (length u1) v). by econstructor.
  - destruct Hblind as [Hb1 _]. destruct (IH Hb1 v d E) as [d' H']. eexists.
    by apply matches_alt_l.
  - destruct Hblind as [_ Hb2]. destruct (IH Hb2 v d E) as [d' H']. eexists.
    by apply matches_alt_r.
  - destruct (IH Hblind v d E) as [d' H']. eexists. by econstructor.
Qed.

Lemma regex_test_lower_impl (r : regex) (s1 s2 : jsstring) :
  case_blind r → toLowerCase s1 = toLowerCase s2 →
  regex_test r s2 = true → regex_test r s1 = true.
Proof.
  intros Hb E. rewrite !regex_test_iff. intros (a & u & b & c & -> & Hm).
  rewrite !toLowerCase_app in E.
  set (a1 := take (length a) s1). set (t := drop (length a) s1).
  set (u1 := take (length u) t). set (b1 := drop (length u) t).
  assert (toLowerCase u1 = toLowerCase u) as Eu.
  { unfold u1, t, toLowerCase in *. rewrite fmap_take, fmap_drop, E.
    rewrite <- (length_fmap lower_unit a), drop_app_length.
    rewrite <- (length_fmap lower_unit u). by rewrite take_app_length. }
  destruct (matches_lower _ _ _ _ Hm Hb u1 None Eu) as [d' Hm'].
  exists a1, u1, b1, d'. split; [|done].
  unfold a1, u1, b1, t. by rewrite !take_drop.
Qed.

Lemma regex_test_lower (r : regex) (s1 s2 : jsstring) :
  case_blind r → toLowerCase s1 = toLowerCase s2 →
  regex_test r s1 = regex_test r s2.
Proof.
  intros Hb E. destruct (regex_test r s2) eqn:E2.
  - by eapply regex_test_lower_impl.
  - destruct (regex_test r s1) eqn:E1; [|done].
    rewrite <- E2. symmetry. by eapply regex_test_lower_impl.
Qed.

(** A match stays a match when text is put around it. *)
Lemma regex_test_around (r : regex) (p s q : jsstring) :
  regex_test r s = true → regex_test r (p ++ s ++ q) = true.
Proof.
  rewrite !regex_test_iff. intros (a & u & b & c & -> & Hm).
  exists (p ++ a), u, (b ++ q), c. split; [|done]. by rewrite <- !app_assoc.
Qed.

Lemma stamp_patterns_case_blind :
  Forall (λ stamp, case_blind (Stamp.pattern stamp)) Stamp.OFFICIAL_STAMP_MASTER_LIST.
Proof.
  unfold Stamp.OFFICIAL_STAMP_MASTER_LIST.
  repeat (apply Forall_cons; split); try (by apply Forall_nil);
    cbn [Stamp.pattern]; apply case_blind_cat;
    repeat (apply Forall_cons; split); try (by apply Forall_nil);
    first [ apply case_blind_lit_i
          | intros x; apply is_space_blind
          | intros x; apply dot_blind ].
Qed.

(** ** The heuristic stamp analysis and letter case *)

Lemma matches_lit_i (w u : jsstring) c c' :
  matches (lit_i w) u c c' → toLowerCase u = toLowerCase w.
Proof.
  unfold lit_i. revert u c c'. induction w as [|x w IH]; intros u c c' Hm.
  - inversion Hm; subst. done.
  - change (matches (Seq (Cls (chr_i x)) (cat (Cls ∘ chr_i <$> w))) u c c') in Hm.
    inversion Hm; subst.
    match goal with
    | H1 : matches (Cls _) _ _ _, H2 : matches (cat _) _ _ _ |- _ =>
        inversion H1; subst; apply IH in H2
    end.
    cbn. f_equal; [|done]. by apply chr_i_lower.
Qed.

Lemma occurs_in_around (s t a b : jsstring) :
  Shape.occurs_in s t → Shape.occurs_in s (a ++ t ++ b).
Proof.
  intros (x & y & ->). exists (a ++ x), (y ++ b). by rewrite <- !app_assoc.
Qed.

(** A literal of a concatenation occurs in everything the concatenation
    matches. *)
Lemma matches_cat_lit_i (l : list regex) (w u : jsstring) c c' :
  matches (cat l) u c c' → lit_i w ∈ l →
  Shape.occurs_in (toLowerCase w) (toLowerCase u).
Proof.
  revert u c c'. induction l as [|r l IH]; intros u c c' Hm Hin.
  - by apply elem_of_nil in Hin.
  - change (matches (Seq r (cat l)) u c c') in Hm.
    inversion Hm; subst. rewrite toLowerCase_app.
    apply elem_of_cons in Hin as [<-|Hin].
    + match goal with H1 : matches (lit_i w) _ _ _ |- _ =>
        apply matches_lit_i in H1 as -> end.
      exists [], (toLowerCase u2). done.
    + match goal with H2 : matches (cat l) _ _ _ |- _ =>
        destruct (IH _ _ _ H2 Hin) as (x & y & ->) end.
      exists (toLowerCase u1 ++ x), y. by rewrite <- !app_assoc.
Qed.

Lemma includes_lower_around (a u b w : jsstring) :
  Shape.occurs_in w (toLowerCase u) →
  includes (toLowerCase (a ++ u ++ b)) w = true.
Proof.
  intros Hw. apply includes_iff. rewrite !toLowerCase_app.
  by apply occurs_in_around.
Qed.

(** Every registry pattern spells out OFFICER or POLICE. *)
Lemma stamp_patterns_keyword :
  Forall (λ stamp, ∀ u c c', matches (Stamp.pattern stamp) u c c' →
            Shape.occurs_in (u16 "officer") (toLowerCase u)
            ∨ Shape.occurs_in (u16 "police") (toLowerCase u))
         Stamp.OFFICIAL_STAMP_MASTER_LIST.
Proof.
  unfold Stamp.OFFICIAL_STAMP_MASTER_LIST.
  repeat (apply Forall_cons; split); try (by apply Forall_nil);
    cbn [Stamp.pattern]; intros u c c' Hm.
  - left. apply (matches_cat_lit_i _ (u16 "OFFICER") _ _ _ Hm).
    by apply (list_elem_of_lookup_2 _ 0).
  - left. apply (matches_cat_lit_i _ (u16 "OFFICER") _ _ _ Hm).
    by apply (list_elem_of_lookup_2 _ 2).
  - right. apply (matches_cat_lit_i _ (u16 "POLICE") _ _ _ Hm).
    by apply (list_elem_of_lookup_2 _ 4).
  - right. apply (matches_cat_lit_i _ (u16 "POLICE") _ _ _ Hm).
    by apply (list_elem_of_lookup_2 _ 6).
  - right. apply (matches_cat_lit_i _ (u16 "POLICE") _ _ _ Hm).
    by apply (list_elem_of_lookup_2 _ 8).
  - right. apply (matches_cat_lit_i _ (u16 "POLICE") _ _ _ Hm).
    by apply (list_elem_of_lookup_2 _ 10).
Qed.

Lemma first_stamp_Some (text : jsstring) (stamp : Stamp.StampRecord) :
  Stamp.first_stamp text = Some stamp →
  stamp ∈ Stamp.OFFICIAL_STAMP_MASTER_LIST
  ∧ regex_test (Stamp.pattern stamp) text = true.
Proof.
  unfold Stamp.first_stamp. intros E.
  destruct (list_find _ _) as [[i s]|] eqn:F; [|done]. injection E as ->.
  apply list_find_Some in F as (Hi & Ht & _). split; [|done].
  by eapply list_elem_of_lookup_2.
Qed.

Lemma first_stamp_is_Some (text : jsstring) (stamp : Stamp.StampRecord) :
  stamp ∈ Stamp.OFFICIAL_STAMP_MASTER_LIST →
  regex_test (Stamp.pattern stamp) text = true →
  is_Some (Stamp.first_stamp text).
Proof.
  intros Hin Ht. unfold Stamp.first_stamp.
  destruct (list_find_elem_of
              (λ stamp, regex_test (Stamp.pattern stamp) text = true)
              _ _ Hin Ht) as [[i s] ->].
  by eexists.
Qed.

Lemma list_find_ext_Forall {A} (P Q : A → Prop)
    `{∀ x, Decision (P x)} `{∀ x, Decision (Q x)} (l : list A) :
  Forall (λ x, P x ↔ Q x) l → list_find P l = list_find Q l.
Proof.
  induction 1 as [|x l Hx _ IH]; [done|]. cbn.
  destruct (decide (P x)), (decide (Q x)); try tauto. by rewrite IH.
Qed.

Lemma first_stamp_lower (text1 text2 : jsstring) :
  toLowerCase text1 = toLowerCase text2 →
  Stamp.first_stamp text1 = Stamp.first_stamp text2.
Proof.
  intros E. unfold Stamp.first_stamp. f_equal. apply list_find_ext_Forall.
  eapply Forall_impl; [apply stamp_patterns_case_blind|].
  intros stamp Hb. cbn. by rewrite (regex_test_lower _ _ _ Hb E).
Qed.

(** X4.  The heuristic analysis reads its evidence without regard to letter
    case: two texts that differ only in the case of their letters get the
    same stamp and signature status and confidence, the same validation and
    the same matched registry name. *)
Theorem fallback_ignores_case (text1 text2 : jsstring) :
  toLowerCase text1 = toLowerCase text2 →
  let r1 := Stamp.fallbackTextAnalysis text1 in
  let r2 := Stamp.fallbackTextAnalysis text2 in
  Stamp.StampDetectionResult.Status (Stamp.Analysis.Stamp r1)
  = Stamp.StampDetectionResult.Status (Stamp.Analysis.Stamp r2)
  ∧ Stamp.StampDetectionResult.Confidence (Stamp.Analysis.Stamp r1)
    = Stamp.StampDetectionResult.Confidence (Stamp.Analysis.Stamp r2)
  ∧ Stamp.SignatureDetectionResult.Status (Stamp.Analysis.Signature r1)
    = Stamp.SignatureDetectionResult.Status (Stamp.Analysis.Signature r2)
  ∧ Stamp.SignatureDetectionResult.Confidence (Stamp.Analysis.Signature r1)
    = Stamp.SignatureDetectionResult.Confidence (Stamp.Analysis.Signature r2)
  ∧ Stamp.Analysis.StampValidation r1 = Stamp.Analysis.StampValidation r2
  ∧ Stamp.Analysis.MatchedStampType r1 = Stamp.Analysis.MatchedStampType r2.
Proof.
  intros E r1 r2. subst r1 r2. unfold Stamp.fallbackTextAnalysis.
  cbn [Stamp.Analysis.Stamp Stamp.Analysis.Signature
       Stamp.Analysis.StampValidation Stamp.Analysis.MatchedStampType
       Stamp.StampDetectionResult.Status Stamp.StampDetectionResult.Confidence
       Stamp.SignatureDetectionResult.Status
       Stamp.SignatureDetectionResult.Confidence].
  rewrite E, (first_stamp_lower _ _ E). done.
Qed.

Lemma fallback_ignores_case_witness :
  Stamp.Analysis.StampValidation
    (Stamp.fallbackTextAnalysis
       (u16 "state officer to adgp apsp head office mangalagiri"))
  = Stamp.Analysis.StampValidation
      (Stamp.fallbackTextAnalysis
         (u16 "STATE OFFICER TO ADGP APSP HEAD OFFICE MANGALAGIRI")).
Proof.
  apply (fallback_ignores_case
           (u16 "state officer to adgp apsp head office mangalagiri")
           (u16 "STATE OFFICER TO ADGP APSP HEAD OFFICE MANGALAGIRI")).
  vm_compute. reflexivity.
Defined.

Lemma existsb_includes_around (a u b : jsstring) (ws : list jsstring) :
  existsb (includes (toLowerCase u)) ws = true →
  existsb (includes (toLowerCase (a ++ u ++ b))) ws = true.
Proof.
  rewrite !existsb_exists. intros (w & Hin & Hw). exists w. split; [done|].
  apply includes_lower_around. by apply includes_iff.
Qed.

(** X5.  Evidence is never lost by adding text: when the heuristic analysis
    finds a stamp, a signature or a registry match in a text, it finds the
    same in every text that contains that text. *)
Theorem fallback_monotone (before text after : jsstring) :
  let r := Stamp.fallbackTextAnalysis text in
  let r' := Stamp.fallbackTextAnalysis (before ++ text ++ after) in
  (Stamp.StampDetectionResult.Status (Stamp.Analysis.Stamp r) = Stamp.Present →
   Stamp.StampDetectionResult.Status (Stamp.Analysis.Stamp r') = Stamp.Present)
  ∧ (Stamp.SignatureDetectionResult.Status (Stamp.Analysis.Signature r)
     = Stamp.Present →
     Stamp.SignatureDetectionResult.Status (Stamp.Analysis.Signature r')
     = Stamp.Present)
  ∧ (Stamp.Analysis.StampValidation r = Stamp.Y_ →
     Stamp.Analysis.StampValidation r' = Stamp.Y_).
Proof.
  intros r r'. subst r r'. unfold Stamp.fallbackTextAnalysis.
  cbn [Stamp.Analysis.Stamp Stamp.Analysis.Signature
       Stamp.Analysis.StampValidation
       Stamp.StampDetectionResult.Status Stamp.SignatureDetectionResult.Status].
  split_and!.
  - destruct (existsb _ _) eqn:E; [|done]. intros _.
    by rewrite (existsb_includes_around _ _ _ _ E).
  - destruct (existsb (includes (toLowerCase text))
                [u16 "signature"; u16 "signed"; u16 "sd/"; u16 "sign"]) eqn:E;
      [|done].
    intros _. by rewrite (existsb_includes_around _ _ _ _ E).
  - destruct (Stamp.first_stamp text) as [stamp|] eqn:E; [|done]. intros _.
    apply first_stamp_Some in E as [Hin Ht].
    destruct (first_stamp_is_Some (before ++ text ++ after) stamp Hin) as [s' ->];
      [|done].
    by apply regex_test_around.
Qed.

Lemma fallback_monotone_witness :
  Stamp.Analysis.StampValidation
    (Stamp.fallbackTextAnalysis
       (u16 "Ref 12: " ++ u16 "State Officer to ADGP APSP Head Office Mangalagiri"
        ++ u16 " (copy)"))
  = Stamp.Y_.
Proof.
  apply (fallback_monotone (u16 "Ref 12: ")
           (u16 "State Officer to ADGP APSP Head Office Mangalagiri")
           (u16 " (copy)")).
  vm_compute. reflexivity.
Defined.

(** X6.  A registry match implies a stamp: whenever the heuristic analysis
    validates a text against the registry, it also reports the stamp as
    present, with confidence 0.6 and type official_stamp, and the matched
    name is the name of a registry record. *)
Theorem fallback_validated_is_present (text : jsstring) :
  let r := Stamp.fallbackTextAnalysis text in
  Stamp.Analysis.StampValidation r = Stamp.Y_ →
  Stamp.StampDetectionResult.Status (Stamp.Analysis.Stamp r) = Stamp.Present
  ∧ Stamp.StampDetectionResult.Confidence (Stamp.Analysis.Stamp r) = JNum 0.6
  ∧ Stamp.StampDetectionResult.Type_ (Stamp.Analysis.Stamp r)
    = JStr (u16 "official_stamp")
  ∧ ∃ stamp, stamp ∈ Stamp.OFFICIAL_STAMP_MASTER_LIST
             ∧ Stamp.Analysis.MatchedStampType r = JStr (Stamp.name stamp).
Proof.
  intros r. subst r. unfold Stamp.fallbackTextAnalysis.
  cbn [Stamp.Analysis.Stamp Stamp.Analysis.StampValidation
       Stamp.Analysis.MatchedStampType
       Stamp.StampDetectionResult.Status Stamp.StampDetectionResult.Confidence
       Stamp.StampDetectionResult.Type_].
  destruct (Stamp.first_stamp text) as [stamp|] eqn:E; [|done]. intros _.
  apply first_stamp_Some in E as [Hin Ht].
  assert (existsb (includes (toLowerCase text))
            [u16 "stamp"; u16 "seal"; u16 "officer"; u16 "police";
             u16 "commanding"; u16 "commissioner"] = true) as ->.
  { apply regex_test_iff in Ht as (a & u & b & c & -> & Hm).
    pose proof stamp_patterns_keyword as Hk.
    rewrite Forall_forall in Hk.
    apply existsb_exists.
    destruct (Hk stamp Hin u None c Hm) as [Ho|Hp].
    - exists (u16 "officer"). split; [|by apply includes_lower_around].
      cbn. tauto.
    - exists (u16 "police"). split; [|by apply includes_lower_around].
      cbn. tauto. }
  split_and!; try done. by exists stamp.
Qed.

Lemma fallback_validated_is_present_witness :
  Stamp.StampDetectionResult.Status
    (Stamp.Analysis.Stamp
       (Stamp.fallbackTextAnalysis
          (u16 "Inspector General of Police APSP Bns, Amaravathi")))
  = Stamp.Present.
Proof.
  apply (fallback_validated_is_present
           (u16 "Inspector General of Police APSP Bns, Amaravathi")).
  vm_compute. reflexivity.
Defined.

Lemma stamp_names_recognised :
  Forall (λ stamp, regex_test (Stamp.pattern stamp) (Stamp.name stamp) = true)
         Stamp.OFFICIAL_STAMP_MASTER_LIST.
Proof.
  unfold Stamp.OFFICIAL_STAMP_MASTER_LIST.
  repeat (apply Forall_cons; split); try (by apply Forall_nil);
    vm_compute; reflexivity.
Qed.

(** X7.  The registry recognises its own names: a text that contains the
    name of a record of the list [getMasterStampList] returns, in any letter
    case, is validated and its stamp reported present. *)
Theorem master_list_names_validate (entry : jsstring * jsstring) (text : jsstring) :
  entry ∈ Stamp.getMasterStampList →
  Shape.occurs_in (toLowerCase entry.2) (toLowerCase text) →
  let r := Stamp.fallbackTextAnalysis text in
  Stamp.Analysis.StampValidation r = Stamp.Y_
  ∧ Stamp.StampDetectionResult.Status (Stamp.Analysis.Stamp r) = Stamp.Present.
Proof.
  intros Hin Hocc r.
  assert (Stamp.Analysis.StampValidation r = Stamp.Y_) as Hv.
  { subst r. unfold Stamp.getMasterStampList in Hin.
    apply list_elem_of_fmap in Hin as (stamp & -> & Hin). cbn in Hocc.
    destruct Hocc as (a & b & E).
    pose proof stamp_patterns_case_blind as Hb. rewrite Forall_forall in Hb.
    pose proof stamp_names_recognised as Hn. rewrite Forall_forall in Hn.
    assert (regex_test (Stamp.pattern stamp) text = true) as Ht.
    { rewrite (regex_test_lower _ text (toLowerCase text) (Hb _ Hin))
        by (by rewrite toLowerCase_idemp).
      rewrite E. apply regex_test_around.
      rewrite (regex_test_lower _ _ (Stamp.name stamp) (Hb _ Hin))
        by apply toLowerCase_idemp.
      by apply Hn. }
    destruct (first_stamp_is_Some text stamp Hin Ht) as [s' Hs'].
    unfold Stamp.fallbackTextAnalysis. cbn [Stamp.Analysis.StampValidation].
    by rewrite Hs'. }
  split; [done|]. by apply fallback_validated_is_present.
Qed.

Lemma master_list_names_validate_witness :
  Stamp.Analysis.StampValidation
    (Stamp.fallbackTextAnalysis
       (u16 "seen: inspector general of police apsp bns, amaravathi."))
  = Stamp.Y_.
Proof.
  apply (master_list_names_validate
           (u16 "stamp_3", u16 "Inspector General of Police APSP Bns, Amaravathi")
           (u16 "seen: inspector general of police apsp bns, amaravathi.")).
  - apply (list_elem_of_lookup_2 _ 2). reflexivity.
  - exists (u16 "seen: "), (u16 "."). vm_compute. reflexivity.
Defined.

(** ** The date and the name the heuristic analysis reads *)

Lemma occurs_in_refl (s : jsstring) : Shape.occurs_in s s.
Proof. exists [], []. by rewrite app_nil_r. Qed.

Lemma occurs_in_trans (s t u : jsstring) :
  Shape.occurs_in s t → Shape.occurs_in t u → Shape.occurs_in s u.
Proof. intros Hst (a & b & ->). by apply occurs_in_around. Qed.

Lemma one_of_separator (x : N) : one_of (u16 "-/") x = true ↔ Shape.separator x.
Proof.
  unfold one_of, Shape.separator. rewrite bool_decide_eq_true.
  change (u16 "-/") with [45%N; 47%N].
  rewrite !elem_of_cons, elem_of_nil. tauto.
Qed.

(** The date pattern matches exactly the strings of the date shape, and
    captures them whole. *)
Lemma datePattern_matches (u : jsstring) c c' :
  matches Stamp.datePattern u c c' ↔ Shape.date_shape u ∧ c' = Some u.
Proof.
  split.
  - intros Hm. unfold Stamp.datePattern, cat in Hm. cbn [foldr] in Hm.
    inversion Hm; subst. split; [|done].
    repeat match goal with
    | H : matches (Seq _ _) _ _ _ |- _ => inversion H; subst; clear H
    | H : matches (Cls _) _ _ _ |- _ => inversion H; subst; clear H
    | H : matches (Rep _ _ _) _ _ _ |- _ => inversion H; subst; clear H
    | H : matches Eps _ _ _ |- _ => inversion H; subst; clear H
    end.
    rewrite app_nil_r.
    repeat match goal with
    | H : one_of _ _ = true |- _ => apply one_of_separator in H
    | H : ∀ h, Some ?n = Some h → _ |- _ => specialize (H n eq_refl)
    end.
    eexists _, _, _, _, _. split; [reflexivity|]. split_and!; done.
  - intros [(dd & s1 & mm & s2 & yy & -> & Hdd & [? ?] & Hs1 & Hmm & [? ?] & Hs2
             & Hyy & [? ?]) ->].
    unfold Stamp.datePattern, cat. cbn [foldr]. econstructor.
    rewrite <- (app_nil_r yy).
    repeat (apply matches_seq with (c1 := c));
      try (constructor; try done; try (by apply one_of_separator);
           intros h [= <-]; done).
Qed.

(** X8.  The date the heuristic analysis reports is a day-month-year group
    of the text: it is a string exactly when the text contains one
    or two digits, a hyphen or slash, one or two digits, a hyphen or slash
    and two to four digits; it then has that shape and stands in the text.
    Otherwise it is undefined. *)
Theorem fallback_date (text : jsstring) :
  match Stamp.Analysis.Date (Stamp.fallbackTextAnalysis text) with
  | JStr d => Shape.date_shape d ∧ Shape.occurs_in d text
  | JUndefined => ∀ d, Shape.date_shape d → ¬ Shape.occurs_in d text
  | _ => False
  end.
Proof.
  unfold Stamp.fallbackTextAnalysis. cbn [Stamp.Analysis.Date].
  destruct (regex_match Stamp.datePattern text) as [m|] eqn:E.
  - destruct (regex_match_sound _ _ _ E) as (a & b & Hs & Hm).
    apply datePattern_matches in Hm as [Hd ->]. cbn. split; [done|].
    by exists a, b.
  - cbn. intros d Hd (a & b & Hs).
    assert (regex_test Stamp.datePattern text = true) as Ht.
    { apply regex_test_iff. exists a, d, b, (Some d). split; [done|].
      by apply datePattern_matches. }
    unfold regex_test in Ht. rewrite E in Ht.
    apply bool_decide_eq_true in Ht. by destruct Ht.
Qed.

Lemma matches_classes (P : N → Prop) (r : regex) u c c' :
  matches r u c c' → classes_within P r → Forall P u.
Proof.
  induction 1 as [c|cs x c Hx|cs lo hi u c Hu Hlo Hb
                  |r1 r2 u1 u2 c c1 c2 _ IH1 _ IH2
                  |r1 r2 u c c' _ IH|r1 r2 u c c' _ IH|r u c c1 _ IH];
    simpl; intros Hw.
  - constructor.
  - repeat constructor. by apply Hw.
  - eapply Forall_impl; [exact Hu|]. intros x Hx. by apply Hw.
  - destruct Hw. apply Forall_app. split; auto.
  - destruct Hw. auto.
  - destruct Hw. auto.
  - auto.
Qed.

(** What a match captures is a part of what it matched, made of the
    classes of the pattern's groups. *)
Lemma matches_capture (P : N → Prop) (r : regex) u c c' :
  matches r u c c' → groups_within P r →
  c' = c ∨ ∃ g, c' = Some g ∧ Shape.occurs_in g u ∧ Forall P g.
Proof.
  induction 1 as [c|cs x c Hx|cs lo hi u c Hu Hlo Hb
                  |r1 r2 u1 u2 c c1 c2 _ IH1 _ IH2
                  |r1 r2 u c c' _ IH|r1 r2 u c c' _ IH|r u c c1 H1 _];
    simpl; intros Hw; try (by left).
  - destruct Hw as [Hw1 Hw2].
    destruct (IH2 Hw2) as [->|(g & -> & Hg & HP)].
    + destruct (IH1 Hw1) as [->|(g & -> & Hg & HP)]; [by left|].
      right. exists g. split_and!; try done.
      destruct Hg as (x & y & ->). exists x, (y ++ u2). by rewrite <- !app_assoc.
    + right. exists g. split_and!; try done.
      destruct Hg as (x & y & ->). exists (u1 ++ x), y. by rewrite <- !app_assoc.
  - destruct Hw. auto.
  - destruct Hw. auto.
  - right. exists u. split_and!; [done|apply occurs_in_refl|].
    by eapply matches_classes.
Qed.

Lemma groups_within_cat (P : N → Prop) (l : list regex) :
  Forall (groups_within P) l → groups_within P (cat l).
Proof. induction 1; simpl; done. Qed.

Lemma classes_within_cat (P : N → Prop) (l : list regex) :
  Forall (classes_within P) l → classes_within P (cat l).
Proof. induction 1; simpl; done. Qed.

Lemma groups_within_lit_i (P : N → Prop) (w : jsstring) : groups_within P (lit_i w).
Proof.
  unfold lit_i. apply groups_within_cat.
  induction w as [|c w IH]; constructor; done.
Qed.

Lemma namePatterns_groups :
  Forall (groups_within (λ x, Stamp.name_class x = true)) Stamp.namePatterns.
Proof.
  unfold Stamp.namePatterns.
  repeat (apply Forall_cons; split); try (by apply Forall_nil);
    apply groups_within_cat;
    repeat (apply Forall_cons; split); try (by apply Forall_nil);
    try apply groups_within_lit_i; try exact I.
  - intros x Hx. exact Hx.
  - intros x Hx. exact Hx.
  - change (classes_within (λ x, Stamp.name_class x = true)
              (cat [plus is_letter; Stamp.spaces1; plus is_letter])).
    apply classes_within_cat.
    repeat (apply Forall_cons; split); try (by apply Forall_nil);
      intros x Hx; cbn in Hx; unfold Stamp.name_class; rewrite Hx;
      by rewrite ?orb_true_r.
Qed.

Lemma first_name_Some (patterns : list regex) (text n : jsstring) :
  Stamp.first_name patterns text = Some n →
  ∃ p m g, p ∈ patterns ∧ regex_match p text = Some m
           ∧ group1 m = Some g ∧ n = trim g.
Proof.
  induction patterns as [|p patterns IH]; [done|]. cbn [Stamp.first_name].
  destruct (regex_match p text) as [[w [[|c g]|]]|] eqn:E; intros Hn;
    try (destruct (IH Hn) as (p' & m & g' & Hin & ?);
         exists p', m, g'; split; [by apply list_elem_of_further|done]).
  injection Hn as <-. exists p, {| whole := w; group1 := Some (c :: g) |}, (c :: g).
  split_and!; try done. apply list_elem_of_here.
Qed.

(** X9.  The signer's name the heuristic analysis reports is a piece of the
    text, trimmed, and made of letters, white space and full stops only; it
    holds no digit and no other punctuation. *)
Theorem fallback_person_name (text : jsstring) :
  match Stamp.Analysis.PersonName (Stamp.fallbackTextAnalysis text) with
  | JStr n => Forall (λ x, Stamp.name_class x = true) n
              ∧ Shape.trimmed n ∧ Shape.occurs_in n text
  | JUndefined => True
  | _ => False
  end.
Proof.
  unfold Stamp.fallbackTextAnalysis. cbn [Stamp.Analysis.PersonName].
  destruct (Stamp.first_name Stamp.namePatterns text) as [n|] eqn:E; [|done].
  cbn. apply first_name_Some in E as (p & m & g & Hin & Hm & Hg & ->).
  destruct (regex_match_sound _ _ _ Hm) as (a & b & Hs & Hmm).
  pose proof namePatterns_groups as Hw. rewrite Forall_forall in Hw.
  destruct (matches_capture _ _ _ _ _ Hmm (Hw p Hin)) as [Hc|(g' & Hc & Hocc & HP)];
    rewrite Hg in Hc; [done|]. injection Hc as <-.
  destruct (trim_spec g) as (x & y & Hgx & _ & _ & Ht).
  split_and!; [|done|].
  - rewrite Hgx in HP. apply Forall_app in HP as [_ HP].
    by apply Forall_app in HP as [HP _].
  - apply occurs_in_trans with g; [by exists x, y|].
    apply occurs_in_trans with (whole m); [done|]. by exists a, b.
Qed.

(** ** What the services log and request *)

Ltac forall_list := repeat (apply Forall_cons; split); try (by apply Forall_nil).

Lemma advanced_trans (w w1 w2 : World) entries1 entries2 v1 v2 c1 c2 :
  Trace.advanced w w1 entries1 v1 c1 →
  Trace.advanced w1 w2 entries2 v2 c2 →
  Trace.advanced w w2 (entries1 ++ entries2) (v1 + v2) (c1 + c2).
Proof.
  intros (Ha & Hv & Hc) (Ha' & Hv' & Hc'). unfold Trace.advanced.
  rewrite Ha', Ha, Hv', Hv, Hc', Hc, !drop_drop, app_assoc. done.
Qed.

Lemma processWithGemma3_world (base64Data : JSValue) (w : World) :
  ∃ o, Ollama.processWithGemma3 base64Data w = (o, Spec.after_ollama w).
Proof.
  destruct (Spec.vision_text (next_reply (ollama w))) as [text|] eqn:E.
  - rewrite (processWithGemma3_ok _ _ _ E). eauto.
  - destruct (processWithGemma3_fails base64Data _ E) as [e ->]. eauto.
Qed.

(** The audit entries and the requests of text extraction. *)
Lemma extractText_trail (file : File) (uid : jsstring) (w : World) :
  ∃ o w' e1 e2,
    Ollama.extractTextFromDocument file uid w = (o, w')
    ∧ Trace.advanced w w' [e1; e2] (match contents file with Some _ => 1 | None => 0 end) 0
    ∧ Trace.about uid (file_name file) [e1; e2]
    ∧ a_action e1 = u16 "ollama_processing_start"
    ∧ match o with
      | Returned r =>
          a_action e2 = u16 "ollama_processing_complete"
          ∧ a_details e2 !! u16 "confidence" = Some (JNum (Ollama.confidence r))
          ∧ a_details e2 !! u16 "textLength"
            = Some (js_nat (length (Ollama.extractedText r)))
      | Thrown e =>
          a_action e2 = u16 "ollama_processing_error"
          ∧ ∃ cause, e = Err (u16 "Ollama text extraction failed: " ++ cause)
                     ∧ a_details e2 !! u16 "error" = Some (JStr cause)
      end.
Proof.
  unfold Ollama.extractTextFromDocument, bind, try_catch, now, logAction, fileToBase64.
  cbn -[u16 Ollama.processWithGemma3 list_to_map Ollama.calculateConfidence].
  destruct (contents file) as [url|] eqn:Hc.
  - cbn -[u16 Ollama.processWithGemma3 list_to_map Ollama.calculateConfidence].
    match goal with |- context [Ollama.processWithGemma3 ?b ?w0] =>
      destruct (processWithGemma3_world b w0) as [[text|e] ->] end;
      cbn -[u16 list_to_map Ollama.calculateConfidence];
      eexists _, _, _, _; (split; [reflexivity|]);
      unfold Trace.advanced, Trace.about;
      cbn -[u16 list_to_map Ollama.calculateConfidence];
      rewrite <- ?app_assoc, ?drop_0; split_and!; try done;
      try (by repeat constructor).
    eexists. split; reflexivity.
  - cbn -[u16 list_to_map].
    eexists _, _, _, _. split; [reflexivity|].
    unfold Trace.advanced, Trace.about. cbn -[u16 list_to_map].
    rewrite <- ?app_assoc. split_and!; try done; try (by repeat constructor).
    eexists. split; reflexivity.
Qed.

(** X10.  Text extraction calls the audit log exactly twice, for the
    caller's user and the file's name: once for the start and once for the
    outcome, complete when it returns and error when it throws; the entry of
    a failure holds the cause the raised message ends with, the entry of a
    success the confidence and the length of the text returned.  It sends
    one request to the vision service, none if the file cannot be read, and
    none to the chat service. *)
Theorem extractTextFromDocument_trail (file : File) (uid : jsstring) (w : World) :
  ∃ o w' e1 e2,
    Ollama.extractTextFromDocument file uid w = (o, w')
    ∧ Trace.advanced w w' [e1; e2] (match contents file with Some _ => 1 | None => 0 end) 0
    ∧ Trace.about uid (file_name file) [e1; e2]
    ∧ a_action e1 = u16 "ollama_processing_start"
    ∧ match o with
      | Returned r =>
          a_action e2 = u16 "ollama_processing_complete"
          ∧ a_details e2 !! u16 "confidence" = Some (JNum (Ollama.confidence r))
          ∧ a_details e2 !! u16 "textLength"
            = Some (js_nat (length (Ollama.extractedText r)))
      | Thrown e =>
          a_action e2 = u16 "ollama_processing_error"
          ∧ ∃ cause, e = Err (u16 "Ollama text extraction failed: " ++ cause)
                     ∧ a_details e2 !! u16 "error" = Some (JStr cause)
      end.
Proof. exact (extractText_trail file uid w). Qed.

Section StampTrail.
Context `{Runtime}.

Lemma analyzeWithOllama_world file text uid w :
  is_Some (contents file) →
  ∃ a, Stamp.analyzeWithOllama file text uid w = (Returned a, Spec.after_ollama w).
Proof.
  intros Hc. destruct (Spec.analysis_text (next_reply (ollama w))) as [t|] eqn:E.
  - rewrite (analyzeWithOllama_reply file text uid w t Hc E). eauto.
  - rewrite (analyzeWithOllama_call_fails file text uid w Hc E). eauto.
Qed.

End StampTrail.

(** X11.  The stamp and signature analyzer calls the audit log exactly four
    times, for the caller's user and the file's name: its own start, the
    start of text extraction, the outcome of text extraction and its own
    outcome.  The outcome of text extraction is complete when a text was
    extracted and error when not; its own outcome is complete when moreover
    the second read of the file succeeded, and error otherwise.  A failure
    of the second, analysing request is not logged as an error.  It sends
    two requests to the vision service when the text was extracted and the
    file read again, one when the first request brought no text or the
    second read failed, none when the first read failed, and none to the
    chat service. *)
Theorem analyzeStampsAndSignatures_trail `{Runtime} (file : File) (uid : jsstring)
    (w : World) :
  ∃ r w' entries n,
    Stamp.analyzeStampsAndSignatures file uid w = (Returned r, w')
    ∧ Trace.advanced w w' entries n 0
    ∧ Trace.about uid (file_name file) entries
    ∧ match contents file, Spec.vision_text (next_reply (ollama w)) with
      | Some _, Some _ =>
          match contents (next_read file) with
          | Some _ =>
              n = 2
              ∧ Trace.actions entries
                = [u16 "stamp_signature_analysis_start";
                   u16 "ollama_processing_start";
                   u16 "ollama_processing_complete";
                   u16 "stamp_signature_analysis_complete"]
          | None =>
              n = 1
              ∧ Trace.actions entries
                = [u16 "stamp_signature_analysis_start";
                   u16 "ollama_processing_start";
                   u16 "ollama_processing_complete";
                   u16 "stamp_signature_analysis_error"]
          end
      | Some _, None =>
          n = 1
          ∧ Trace.actions entries
            = [u16 "stamp_signature_analysis_start"; u16 "ollama_processing_start";
               u16 "ollama_processing_error"; u16 "stamp_signature_analysis_error"]
      | None, _ =>
          n = 0
          ∧ Trace.actions entries
            = [u16 "stamp_signature_analysis_start"; u16 "ollama_processing_start";
               u16 "ollama_processing_error"; u16 "stamp_signature_analysis_error"]
      end.
Proof.
  unfold Stamp.analyzeStampsAndSignatures, bind, try_catch, now, logAction.
  cbn -[u16 list_to_map Ollama.extractTextFromDocument Stamp.analyzeWithOllama
        next_read].
  match goal with |- context [Ollama.extractTextFromDocument file uid ?x] =>
    set (w0 := x);
    destruct (extractText_trail file uid w0)
      as (o & w1 & e1 & e2 & Hrun & (Ha & Hv & Hc) & Hab & Hs & Ho)
  end.
  cbn [audit ollama openai w0] in Ha, Hv, Hc.
  apply Forall_cons in Hab as [Hab1 Hab2]. apply Forall_cons in Hab2 as [Hab2 _].
  destruct (contents file) as [url|] eqn:Hcf;
    [destruct (Spec.vision_text (next_reply (ollama w))) as [text|] eqn:Hvt|].
  - destruct (extractText_ok file uid w0 text) as (r & w1' & Hrun' & _);
      [by rewrite Hcf|done|].
    rewrite Hrun in Hrun'. injection Hrun' as -> <-. rewrite Hrun.
    destruct Ho as (Ho & _).
    destruct (contents (next_read file)) as [url'|] eqn:Hnext.
    + destruct (analyzeWithOllama_world (next_read file)
                  (Ollama.extractedText r) uid w1) as [a ->]; [by rewrite Hnext|].
      cbn -[u16 list_to_map].
      eexists _, _, [_; e1; e2; _], 2. split; [reflexivity|].
      unfold Trace.advanced, Trace.about, Trace.actions. cbn -[u16 list_to_map].
      rewrite Ha, Hv, Hc, <- !app_assoc, drop_0.
      split_and!; [reflexivity| |done|by forall_list|done|by rewrite Hs, Ho].
      by destruct (ollama w) as [|? [|? ?]].
    + rewrite (analyzeWithOllama_unreadable (next_read file) _ uid w1 Hnext).
      cbn -[u16 list_to_map].
      eexists _, _, [_; e1; e2; _], 1. split; [reflexivity|].
      unfold Trace.advanced, Trace.about, Trace.actions. cbn -[u16 list_to_map].
      rewrite Ha, Hv, Hc, <- !app_assoc, drop_0.
      split_and!; [reflexivity|done|done|by forall_list|done|by rewrite Hs, Ho].
  - destruct (extractText_fails file uid w0) as (cause & w1' & Hrun');
      [by right|].
    rewrite Hrun in Hrun'. injection Hrun' as -> <-. rewrite Hrun.
    cbn -[u16 list_to_map]. destruct Ho as (Ho & _).
    eexists _, _, [_; e1; e2; _], 1. split; [reflexivity|].
    unfold Trace.advanced, Trace.about, Trace.actions. cbn -[u16 list_to_map].
    rewrite Ha, Hv, Hc, <- !app_assoc, drop_0.
    split_and!; [reflexivity|done|done|by forall_list|done|by rewrite Hs, Ho].
  - destruct (extractText_fails file uid w0) as (cause & w1' & Hrun');
      [by left|].
    rewrite Hrun in Hrun'. injection Hrun' as -> <-. rewrite Hrun.
    cbn -[u16 list_to_map]. destruct Ho as (Ho & _).
    eexists _, _, [_; e1; e2; _], 0. split; [reflexivity|].
    unfold Trace.advanced, Trace.about, Trace.actions. cbn -[u16 list_to_map].
    rewrite Ha, Hv, Hc, <- !app_assoc, drop_0.
    split_and!; [reflexivity|done|done|by forall_list|done|by rewrite Hs, Ho].
Qed.




Section DocumentTrail.
Context `{Runtime}.




End DocumentTrail.



(** ** The health checks *)

Lemma names_gemma3_true (model : JSValue) :
  Ollama.names_gemma3 model = inr (JBool true) →
  ∃ m, model = JObj m
       ∧ ((∃ s, m !! u16 "name" = Some (JStr s)
                ∧ Shape.occurs_in (u16 "gemma3") s)
          ∨ (∃ a, m !! u16 "name" = Some (JArr a) ∧ JStr (u16 "gemma3") ∈ a)).
Proof.
  unfold Ollama.names_gemma3.
  destruct model as [| |b|q|s|l|m]; cbn -[u16]; try done;
    try (by destruct (truthy _)).
  intros Hn. exists m. split; [done|].
  destruct (m !! u16 "name") as [[| |b|q|s|l|m']|] eqn:E; cbn -[u16] in Hn;
    try done.
  - by destruct b.
  - by destruct (Qeq_bool q 0).
  - destruct s as [|c s]; [done|]. cbn -[u16 includes] in Hn. injection Hn as Hn.
    left. exists (c :: s). split; [done|]. by apply includes_iff.
  - injection Hn as Hn. right. exists l. split; [done|].
    apply existsb_exists in Hn as (v & Hin & Hv). apply list_elem_of_In in Hin.
    destruct v; try done. cbn in Hv. apply bool_decide_eq_true in Hv. by subst.
Qed.

Lemma truthy_names_gemma3 (model v : JSValue) :
  Ollama.names_gemma3 model = inr v → truthy v = true → v = JBool true.
Proof.
  unfold Ollama.names_gemma3. destruct (get model _) as [e|n]; [done|].
  destruct (truthy n) eqn:E.
  - destruct n; try done; intros [= <-]; cbn; by intros ->.
  - intros [= <-]. congruence.
Qed.

Lemma some_gemma3_true (l : list JSValue) :
  Ollama.some_gemma3 l = inr true →
  ∃ model, model ∈ l ∧ Ollama.names_gemma3 model = inr (JBool true).
Proof.
  induction l as [|model l IH]; [done|]. cbn [Ollama.some_gemma3].
  destruct (Ollama.names_gemma3 model) as [e|v] eqn:E; [done|].
  destruct (truthy v) eqn:T.
  - intros _. exists model. split; [apply list_elem_of_here|].
    by rewrite (truthy_names_gemma3 _ _ E T) in E.
  - intros Hl. destruct (IH Hl) as (model' & Hin & Hm). exists model'.
    split; [by apply list_elem_of_further|done].
Qed.

(** Over a list of models that are objects with a string for a name, the
    scan says whether one of the names contains gemma3. *)
Lemma some_gemma3_named (l : list JSValue) (names : list jsstring) :
  Forall2 (λ model n, ∃ m, model = JObj m ∧ m !! u16 "name" = Some (JStr n))
          l names →
  Ollama.some_gemma3 l
  = inr (existsb (λ n, includes n (u16 "gemma3")) names).
Proof.
  induction 1 as [|model n l names (m & -> & Hn) _ IH]; [done|].
  cbn [Ollama.some_gemma3 existsb]. unfold Ollama.names_gemma3.
  cbn -[u16 includes]. rewrite Hn. cbn -[u16 includes].
  destruct n as [|c n]; [by rewrite IH|]. cbn -[u16 includes].
  by destruct (includes (c :: n) (u16 "gemma3")).
Qed.

Lemma checkServiceHealth_run (w : World) :
  ∃ v, Ollama.checkServiceHealth w = (Returned v, Spec.after_ollama w)
       ∧ (v = JBool true ∨ v = JBool false ∨ v = JUndefined)
       ∧ (v = JBool true →
          ∃ m l, next_reply (ollama w) = Body (JObj m)
                 ∧ m !! u16 "models" = Some (JArr l)
                 ∧ Ollama.some_gemma3 l = inr true)
       ∧ (∀ m, next_reply (ollama w) = Body (JObj m) →
               m !! u16 "models" = None → v = JUndefined)
       ∧ (∀ m l b, next_reply (ollama w) = Body (JObj m) →
                   m !! u16 "models" = Some (JArr l) →
                   Ollama.some_gemma3 l = inr b → v = JBool b).
Proof.
  unfold Ollama.checkServiceHealth, try_catch, bind, fetch_ollama.
  cbn -[u16 Ollama.hasModel]. fold (Spec.after_ollama w).
  destruct (next_reply (ollama w)) as [reason|st txt| |data];
    cbn -[u16 Ollama.hasModel];
    try (eexists; split; [reflexivity|]; split_and!; [tauto|done..]).
  destruct data as [| |b|q|s|l|m]; cbn -[u16 Ollama.hasModel];
    try (eexists; split; [reflexivity|]; split_and!; [tauto|done..]).
  destruct (m !! u16 "models") as [[| |b|q|s|l|m']|] eqn:E;
    cbn -[u16 Ollama.some_gemma3];
    try (eexists; split; [reflexivity|]; split_and!;
         [tauto|done|by intros ? [= <-]; rewrite E|by intros ? ? ? [= <-]; rewrite E]).
  destruct (Ollama.some_gemma3 l) as [e|b] eqn:S; cbn -[u16].
  - eexists. split; [reflexivity|]. split_and!; [tauto|done|..].
    + intros ? [= <-]. by rewrite E.
    + intros ? ? ? [= <-]. rewrite E. intros [= <-]. by rewrite S.
  - eexists. split; [reflexivity|]. split_and!.
    + destruct b; tauto.
    + intros [= ->]. eauto.
    + intros ? [= <-]. by rewrite E.
    + intros ? ? ? [= <-]. rewrite E. intros [= <-]. rewrite S. by intros [= <-].
Qed.

(** X13.  The health check of the vision service never throws and consumes
    exactly one reply.  It answers true only when the reply lists a model
    whose name holds gemma3; over a list of models with string names it
    answers whether one of the names contains gemma3; and for a reply
    without a list of models it answers undefined, not false. *)
Theorem checkServiceHealth_answer (w : World) :
  ∃ v, Ollama.checkServiceHealth w = (Returned v, Spec.after_ollama w)
       ∧ (v = JBool true ∨ v = JBool false ∨ v = JUndefined)
       ∧ (v = JBool true →
          ∃ m l mm, next_reply (ollama w) = Body (JObj m)
            ∧ m !! u16 "models" = Some (JArr l)
            ∧ JObj mm ∈ l
            ∧ ((∃ s, mm !! u16 "name" = Some (JStr s)
                     ∧ Shape.occurs_in (u16 "gemma3") s)
               ∨ (∃ a, mm !! u16 "name" = Some (JArr a)
                       ∧ JStr (u16 "gemma3") ∈ a)))
       ∧ (∀ m l names,
            next_reply (ollama w) = Body (JObj m) →
            m !! u16 "models" = Some (JArr l) →
            Forall2 (λ model n, ∃ mm, model = JObj mm
                                      ∧ mm !! u16 "name" = Some (JStr n)) l names →
            v = JBool (existsb (λ n, includes n (u16 "gemma3")) names))
       ∧ (∀ m, next_reply (ollama w) = Body (JObj m) →
               m !! u16 "models" = None → v = JUndefined).
Proof.
  destruct (checkServiceHealth_run w) as (v & Hrun & Hv & Ht & Hu & Hb).
  exists v. split_and!; try done.
  - intros Hv1. destruct (Ht Hv1) as (m & l & Hr & Hm & Hs).
    apply some_gemma3_true in Hs as (model & Hin & Hn).
    apply names_gemma3_true in Hn as (mm & -> & Hn). eauto 10.
  - intros m l names Hr Hm Hl. apply (Hb m l _ Hr Hm).
    by apply some_gemma3_named.
Qed.

Lemma checkServiceHealth_answer_witness :
  (Ollama.checkServiceHealth
     (Examples.world
        [Body (JObj {[ u16 "models" :=
                         JArr [JObj {[ u16 "name" := JStr (u16 "llava") ]};
                               JObj {[ u16 "name" := JStr (u16 "gemma3:latest") ]}] ]})]
        [])).1
  = Returned (JBool true).
Proof.
  destruct (checkServiceHealth_answer
              (Examples.world
                 [Body (JObj {[ u16 "models" :=
                    JArr [JObj {[ u16 "name" := JStr (u16 "llava") ]};
                          JObj {[ u16 "name" := JStr (u16 "gemma3:latest") ]}] ]})]
                 []))
    as (v & Hrun & _ & _ & Hnamed & _).
  rewrite Hrun. cbn [fst]. f_equal.
  apply (Hnamed _ _ [u16 "llava"; u16 "gemma3:latest"] eq_refl eq_refl).
  repeat constructor; eexists; split; reflexivity.
Defined.

(** X14.  The health check of the stamp service is the health check of the
    vision service: its own handler is never entered. *)
Theorem stamp_checkServiceHealth_delegates (w : World) :
  Stamp.checkServiceHealth w = Ollama.checkServiceHealth w
  ∧ ∃ v, Stamp.checkServiceHealth w = (Returned v, Spec.after_ollama w).
Proof.
  destruct (checkServiceHealth_run w) as (v & Hrun & _).
  unfold Stamp.checkServiceHealth, try_catch. rewrite Hrun. eauto.
Qed.



(** ** The field maps *)

Lemma groups_within_alt (P : N → Prop) (l : list regex) :
  Forall (groups_within P) l → groups_within P (alt l).
Proof.
  destruct l as [|r l]; [done|]. cbn [alt]. intros Hl.
  apply Forall_cons in Hl as [Hr Hl]. revert r Hr.
  induction Hl as [|r' l Hr' _ IH]; intros r Hr; [done|].
  cbn [foldl]. apply IH. by split.
Qed.

Lemma labelled_groups (heads : list jsstring) :
  groups_within (λ x, OpenAI.name_value_class x = true)
    (OpenAI.labelled (lit_i <$> heads)).
Proof.
  unfold OpenAI.labelled. apply groups_within_cat.
  repeat (apply Forall_cons; split); try (by apply Forall_nil); try exact I.
  - apply groups_within_alt. apply Forall_fmap, Forall_forall.
    intros w _. apply groups_within_lit_i.
  - intros x Hx. exact Hx.
Qed.

Lemma date_shape_trimmed (d : jsstring) : Shape.date_shape d → Shape.trimmed d.
Proof.
  intros (dd & s1 & mm & s2 & yy & -> & Hdd & [? ?] & _ & _ & _ & _ & Hyy & [? ?]).
  assert (∀ c, is_digit c = true → is_space c = false) as Hds.
  { intros c Hc. unfold is_digit in Hc.
    apply andb_true_iff in Hc as [Hlo Hhi]. apply N.leb_le in Hlo, Hhi.
    unfold is_space, is_line_terminator.
    repeat match goal with
    | |- context [(c =? ?b)%N] =>
        replace (c =? b)%N with false by (symmetry; apply N.eqb_neq; lia)
    end.
    replace (8192 <=? c)%N with false by (symmetry; apply N.leb_gt; lia). done. }
  split.
  - destruct dd as [|x dd]; [cbn in *; lia|]. intros c [= <-].
    apply Forall_cons in Hdd as [Hx _]. by apply Hds.
  - intros c. rewrite !app_assoc.
    destruct yy as [|y yy _] using rev_ind; [cbn in *; lia|].
    rewrite !app_assoc, last_snoc. intros [= <-].
    apply Forall_app in Hyy as [_ Hy]. apply Forall_cons in Hy as [Hy _].
    by apply Hds.
Qed.

(** What a pattern of the fallback extraction captures: a date of the
    text, or a piece of the text made of letters and white space. *)
Lemma patterns_capture (text : jsstring) :
  Forall (λ entry : jsstring * regex,
            ∀ value, Fallback.captured entry.2 text = Some value →
              Shape.trimmed value ∧ Shape.occurs_in value text
              ∧ (Forall (λ x, OpenAI.name_value_class x = true) value
                 ∨ Shape.date_shape value))
         OpenAI.patterns.
Proof.
  assert (∀ heads value,
            Fallback.captured (OpenAI.labelled (lit_i <$> heads)) text = Some value →
            Shape.trimmed value ∧ Shape.occurs_in value text
            ∧ (Forall (λ x, OpenAI.name_value_class x = true) value
               ∨ Shape.date_shape value)) as Hlab.
  { intros heads value. unfold Fallback.captured.
    destruct (regex_match _ text) as [m|] eqn:E; [|done]. cbn.
    destruct (group1 m) as [g|] eqn:G; [|done]. intros [= <-].
    destruct (regex_match_sound _ _ _ E) as (a & b & Hs & Hm).
    destruct (matches_capture _ _ _ _ _ Hm (labelled_groups heads))
      as [Hc|(g' & Hc & Hocc & HP)]; rewrite G in Hc; [done|].
    injection Hc as <-.
    destruct (trim_spec g) as (x & y & Hgx & _ & _ & Ht).
    split_and!; [done| |left].
    - apply occurs_in_trans with g; [by exists x, y|].
      apply occurs_in_trans with (whole m); [done|]. by exists a, b.
    - rewrite Hgx in HP. apply Forall_app in HP as [_ HP].
      by apply Forall_app in HP as [HP _]. }
  unfold OpenAI.patterns.
  repeat (apply Forall_cons; split); try (by apply Forall_nil); cbn [snd].
  - apply (Hlab [u16 "name"; u16 "officer"; u16 "recipient";
                 [2358; 2381; 2352; 2368]%N; u16 "sri"]).
  - intros value. unfold Fallback.captured.
    change (Grp _) with Stamp.datePattern.
    destruct (regex_match _ text) as [m|] eqn:E; [|done]. cbn.
    destruct (regex_match_sound _ _ _ E) as (a & b & Hs & Hm).
    apply datePattern_matches in Hm as [Hd ->]. cbn. intros [= <-].
    pose proof (date_shape_trimmed _ Hd) as Ht.
    rewrite (trim_trimmed _ Ht). split_and!; [done|by exists a, b|by right].
  - apply (Hlab [u16 "station"; u16 "police"; [2341; 2366; 2344; 2366]%N]).
  - apply (Hlab [u16 "rank"; [2346; 2342]%N]).
Qed.

(** Where a value of the fallback map comes from. *)
Lemma extractFieldsBasic_value (text : jsstring) (template : OpenAI.DocumentType)
    (k : jsstring) (v : JSValue) :
  OpenAI.extractFieldsBasic text template !! k = Some v →
  ∃ field, field ∈ OpenAI.template template ∧ OpenAI.field_id field = k
    ∧ (v = OpenAI.type_default field
       ∨ ∃ s, v = JStr s ∧ Shape.trimmed s ∧ Shape.occurs_in s text
              ∧ (Forall (λ x, OpenAI.name_value_class x = true) s
                 ∨ Shape.date_shape s)).
Proof.
  rewrite extractFieldsBasic_writes. intros Hx.
  apply foldl_assign_Some in Hx as [Hin|Hx];
    [|cbn in Hx; by rewrite lookup_empty in Hx].
  apply writes_elem in Hin as [(field & Hin & <- & ->)|(entry & Hentry & Ha)].
  - exists field. split_and!; [done|done|by left].
  - unfold Fallback.assignment in Ha.
    destruct (Fallback.captured entry.2 text) as [value|] eqn:C; [|done].
    destruct (Fallback.first_field _ _) as [field|] eqn:F; [|done].
    injection Ha as <- <-.
    exists field. split_and!; [by eapply first_field_elem|done|]. right.
    exists value. split; [done|].
    pose proof (patterns_capture text) as Hp. rewrite Forall_forall in Hp.
    by apply (Hp entry Hentry).
Qed.

(** X16.  The fallback extraction invents nothing: every value of its map
    belongs to a field of the template with that id, and is either the type
    default of that field or a trimmed piece of the text, which is a date
    or is made of letters and white space only. *)
Theorem extractFieldsBasic_values (text : jsstring) (template : OpenAI.DocumentType)
    (k : jsstring) (v : JSValue) :
  OpenAI.extractFieldsBasic text template !! k = Some v →
  ∃ field, field ∈ OpenAI.template template ∧ OpenAI.field_id field = k
    ∧ (v = OpenAI.type_default field
       ∨ ∃ s, v = JStr s ∧ Shape.trimmed s ∧ Shape.occurs_in s text
              ∧ (Forall (λ x, OpenAI.name_value_class x = true) s
                 ∨ Shape.date_shape s)).
Proof. apply extractFieldsBasic_value. Qed.

Lemma extractFieldsBasic_values_witness :
  ∃ field, field ∈ OpenAI.template Examples.leave_letter
    ∧ OpenAI.field_id field = u16 "officer_name"
    ∧ (JStr (u16 "Ravi") = OpenAI.type_default field
       ∨ ∃ s, JStr (u16 "Ravi") = JStr s ∧ Shape.trimmed s
              ∧ Shape.occurs_in s (u16 "name: Ravi, 3 days")
              ∧ (Forall (λ x, OpenAI.name_value_class x = true) s
                 ∨ Shape.date_shape s)).
Proof.
  apply (extractFieldsBasic_values (u16 "name: Ravi, 3 days") Examples.leave_letter).
  vm_compute. reflexivity.
Defined.

Lemma proto_is_inherited : u16 "__proto__" ∈ object_prototype_names.
Proof. apply (list_elem_of_lookup_2 _ 7). reflexivity. Qed.

(** Completion changes nothing in a map that misses only names every
    object inherits and names that are no id of the template. *)
Lemma ensureAllFieldsPresent_fixed (m : gmap jsstring JSValue)
    (template : OpenAI.DocumentType) :
  (∀ k, m !! k = None →
        k ∈ object_prototype_names ∨ k ∉ Spec.field_ids template) →
  OpenAI.ensureAllFieldsPresent (JObj m) template = m.
Proof.
  intros Hm. apply map_eq. intros k.
  rewrite ensureAllFieldsPresent_lookup. cbn [spread].
  destruct (m !! k) as [x|] eqn:E; [done|].
  destruct (Hm k E) as [Hin|Hnot].
  - by rewrite bool_decide_eq_true_2.
  - destruct (bool_decide _); [done|].
    destruct (Spec.completion_default template k) as [d|] eqn:D; [|done].
    exfalso. apply Hnot, completion_default_is_Some. by rewrite D.
Qed.

(** X17.  Completion is idempotent: completing a completed map changes
    nothing, a map that already holds every id of the template is returned
    as it is, and so is the map of the fallback extraction. *)
Theorem ensureAllFieldsPresent_idempotent (v : JSValue)
    (template : OpenAI.DocumentType) (text : jsstring) :
  OpenAI.ensureAllFieldsPresent
    (JObj (OpenAI.ensureAllFieldsPresent v template)) template
  = OpenAI.ensureAllFieldsPresent v template
  ∧ (∀ m : gmap jsstring JSValue,
       Spec.field_ids template ⊆ dom m →
       OpenAI.ensureAllFieldsPresent (JObj m) template = m)
  ∧ OpenAI.ensureAllFieldsPresent
      (JObj (OpenAI.extractFieldsBasic text template)) template
    = OpenAI.extractFieldsBasic text template.
Proof.
  split_and!.
  - apply ensureAllFieldsPresent_fixed. intros k Hk.
    rewrite ensureAllFieldsPresent_lookup in Hk.
    destruct (spread v !! k); [done|].
    destruct (decide (k ∈ object_prototype_names)) as [?|Hnot]; [by left|].
    rewrite bool_decide_eq_false_2 in Hk by done. right.
    rewrite <- completion_default_is_Some, Hk. by intros [? ?].
  - intros m Hsub. apply ensureAllFieldsPresent_fixed. intros k Hk. right.
    intros Hin. apply Hsub, elem_of_dom in Hin as [x Hx]. congruence.
  - apply ensureAllFieldsPresent_fixed. intros k Hk.
    destruct (decide (k = u16 "__proto__")) as [->|Hne].
    + left. apply proto_is_inherited.
    + right. intros Hin.
      apply (extractFieldsBasic_dom text), elem_of_dom in Hin as [x Hx]; [|done].
      congruence.
Qed.

Lemma ensureAllFieldsPresent_idempotent_witness :
  OpenAI.ensureAllFieldsPresent
    (JObj (list_to_map [(u16 "officer_name", JStr (u16 "Ravi")); (u16 "days", JNull)]))
    Examples.leave_letter
  = list_to_map [(u16 "officer_name", JStr (u16 "Ravi")); (u16 "days", JNull)].
Proof.
  apply (ensureAllFieldsPresent_idempotent JNull Examples.leave_letter []).
  vm_compute. set_solver.
Defined.

Lemma filter_id_NoDup {A} (key : A → jsstring) (l : list A) (k : jsstring) :
  NoDup (key <$> l) → length (filter (λ x, key x = k) l) ≤ 1.
Proof.
  induction l as [|x l IH]; [cbn; lia|]. rewrite fmap_cons, NoDup_cons.
  intros [Hx Hl]. rewrite filter_cons. destruct (decide (key x = k)) as [E|E].
  - assert (filter (λ y, key y = k) l = []) as ->; [|cbn; lia].
    destruct (filter _ l) as [|y l'] eqn:F; [done|]. exfalso. apply Hx.
    assert (y ∈ filter (λ y, key y = k) l) as Hy by (rewrite F; left).
    apply list_elem_of_filter in Hy as [Hy Hin].
    apply list_elem_of_fmap. exists y. split; [congruence|done].
  - by apply IH.
Qed.

(** X18.  For a template whose field ids are distinct and none of which
    is a name every object inherits (constructor, toString, __proto__ and
    the like), a reply of the model that carries no fields object is
    completed to the map the fallback extraction makes of a text without
    matches: every field at its type default.  There the two copies of the
    type switch agree. *)
Theorem defaults_agree (template : OpenAI.DocumentType) :
  NoDup (OpenAI.field_id <$> OpenAI.template template) →
  Forall (λ field, OpenAI.field_id field ∉ object_prototype_names)
         (OpenAI.template template) →
  OpenAI.ensureAllFieldsPresent JUndefined template
  = OpenAI.extractFieldsBasic [] template.
Proof.
  intros Hnd Hown. apply map_eq. intros k.
  rewrite ensureAllFieldsPresent_lookup. cbn [spread]. rewrite lookup_empty.
  destruct (decide (k ∈ object_prototype_names)) as [Hin|Hnot].
  - rewrite bool_decide_eq_true_2 by done. symmetry.
    apply not_elem_of_dom. intros Hk.
    apply extractFieldsBasic_dom_ids, elem_of_list_to_set, list_elem_of_fmap in Hk
      as (field & -> & Hfield).
    rewrite Forall_forall in Hown. by apply (Hown field Hfield).
  - rewrite bool_decide_eq_false_2 by done.
    rewrite extractFieldsBasic_empty
      by (intros ->; apply Hnot, proto_is_inherited).
    unfold Spec.completion_default, Spec.initial_default, Spec.fields_with_id.
    pose proof (filter_id_NoDup OpenAI.field_id (OpenAI.template template) k Hnd)
      as Hl.
    destruct (filter _ _) as [|f [|g l]]; [done|done|cbn in Hl; lia].
Qed.

Lemma defaults_agree_witness :
  OpenAI.ensureAllFieldsPresent JUndefined Examples.leave_letter
  = OpenAI.extractFieldsBasic [] Examples.leave_letter.
Proof.
  apply (defaults_agree Examples.leave_letter).
  - apply (bool_decide_unpack _). vm_compute. exact I.
  - repeat (apply Forall_cons; split); try (by apply Forall_nil);
      apply (bool_decide_unpack _); vm_compute; exact I.
Defined.

(** The hypothesis on the ids is needed: a field whose id is a name every
    object inherits is taken to be present by the completion, which sets
    no default for it, while the fallback extraction initialises it. *)
Lemma ensureAllFieldsPresent_inherited_name :
  OpenAI.ensureAllFieldsPresent JUndefined Examples.constructor_template
  = {[ u16 "days" := JNull ]}
  ∧ OpenAI.extractFieldsBasic [] Examples.constructor_template
    = {[ u16 "constructor" := JStr []; u16 "days" := JNull ]}.
Proof. split; vm_compute; reflexivity. Qed.

(** ** The keywords of a template and the keyword classifier *)

Lemma set_of_elem (l : list jsstring) (y : jsstring) : y ∈ set_of l ↔ y ∈ l.
Proof.
  induction l as [|x l IH]; [done|]. cbn [set_of].
  rewrite !elem_of_cons, list_elem_of_filter, IH.
  destruct (decide (y = x)); tauto.
Qed.

Lemma set_of_NoDup (l : list jsstring) : NoDup (set_of l).
Proof.
  induction l as [|x l IH]; [constructor|]. cbn [set_of]. apply NoDup_cons. split.
  - rewrite list_elem_of_filter. intros [Hne _]. by apply Hne.
  - by apply NoDup_filter.
Qed.

Lemma split_Forall (P : N → Prop) (sep : N) (s : jsstring) :
  Forall P s → Forall (Forall P) (split sep s).
Proof.
  induction 1 as [|c s Hc _ IH]; cbn [split]; [by repeat constructor|].
  destruct (c =? sep)%N; [by constructor|].
  destruct (split sep s) as [|w ws]; [by repeat constructor|].
  apply Forall_cons in IH as [Hw Hws]. constructor; [by constructor|done].
Qed.

Lemma lower_fixed (k : jsstring) :
  toLowerCase k = k ↔ Forall (λ c, lower_unit c = c) k.
Proof.
  induction k as [|c k IH]; [by split; [constructor|]|].
  unfold toLowerCase in *. rewrite fmap_cons, Forall_cons, <- IH.
  split; [by intros [= H1 H2]|intros [H1 H2]; by f_equal].
Qed.

Lemma lower_words (s k : jsstring) :
  k ∈ split 32 (toLowerCase s) → toLowerCase k = k.
Proof.
  intros Hk. apply lower_fixed.
  assert (Forall (λ c, lower_unit c = c) (toLowerCase s)) as Hs.
  { apply lower_fixed, toLowerCase_idemp. }
  pose proof (split_Forall _ 32 _ Hs) as Hw. rewrite Forall_forall in Hw. auto.
Qed.

Lemma foldl_labels_elem (fields : list OpenAI.TemplateField)
    (keywords : list jsstring) (k : jsstring) :
  k ∈ foldl (λ keywords field,
               keywords ++ split 32 (toLowerCase (OpenAI.label field)))
            keywords fields
  ↔ k ∈ keywords
    ∨ ∃ field, field ∈ fields ∧ k ∈ split 32 (toLowerCase (OpenAI.label field)).
Proof.
  revert keywords. induction fields as [|f l IH]; intros keywords; cbn [foldl].
  - split; [by left|]. intros [?|(f & Hf & _)]; [done|]. by apply elem_of_nil in Hf.
  - rewrite IH, elem_of_app. split.
    + intros [[?|?]|(f' & Hf' & ?)]; [by left| |].
      * right. exists f. split; [left|done].
      * right. exists f'. split; [by right|done].
    + intros [?|(f' & Hf' & ?)]; [by left; left|].
      apply elem_of_cons in Hf' as [->|Hf']; [by left; right|].
      right. eauto.
Qed.

(** The keywords by id the [switch] adds. *)
Lemma keywords_elem (template : OpenAI.DocumentType) (k : jsstring) :
  k ∈ OpenAI.getTemplateKeywords template
  ↔ k ∈ split 32 (toLowerCase (OpenAI.name template))
    ∨ k = toLowerCase (OpenAI.category template)
    ∨ (∃ field, field ∈ OpenAI.template template
                ∧ k ∈ split 32 (toLowerCase (OpenAI.label field)))
    ∨ (OpenAI.id template = u16 "transfer"
       ∧ k ∈ [u16 "transfer"; u16 "posting"; u16 "station"; u16 "order"])
    ∨ (OpenAI.id template = u16 "award"
       ∧ k ∈ [u16 "award"; u16 "certificate"; u16 "recognition"; u16 "medal"])
    ∨ (OpenAI.id template = u16 "complaint"
       ∧ k ∈ [u16 "complaint"; u16 "grievance"; u16 "disciplinary"]).
Proof.
  unfold OpenAI.getTemplateKeywords. rewrite set_of_elem.
  assert (u16 "transfer" ≠ u16 "award") as H1 by (vm_compute; congruence).
  assert (u16 "transfer" ≠ u16 "complaint") as H2 by (vm_compute; congruence).
  assert (u16 "award" ≠ u16 "complaint") as H3 by (vm_compute; congruence).
  repeat case_decide;
    rewrite ?elem_of_app, foldl_labels_elem, elem_of_app, list_elem_of_singleton;
    intuition congruence.
Qed.

(** X19.  The keywords of a template whose name, category and field
    labels are of ASCII are distinct and in lower case; they are the words
    of its name, its category, the words of its field labels and the words
    its id adds, and no other. *)
Theorem getTemplateKeywords_spec (template : OpenAI.DocumentType) :
  Shape.ascii_template template →
  NoDup (OpenAI.getTemplateKeywords template)
  ∧ Forall (λ k, toLowerCase k = k) (OpenAI.getTemplateKeywords template)
  ∧ ∀ k, k ∈ OpenAI.getTemplateKeywords template
         ↔ k ∈ split 32 (toLowerCase (OpenAI.name template))
           ∨ k = toLowerCase (OpenAI.category template)
           ∨ (∃ field, field ∈ OpenAI.template template
                       ∧ k ∈ split 32 (toLowerCase (OpenAI.label field)))
           ∨ (OpenAI.id template = u16 "transfer"
              ∧ k ∈ [u16 "transfer"; u16 "posting"; u16 "station"; u16 "order"])
           ∨ (OpenAI.id template = u16 "award"
              ∧ k ∈ [u16 "award"; u16 "certificate"; u16 "recognition";
                     u16 "medal"])
           ∨ (OpenAI.id template = u16 "complaint"
              ∧ k ∈ [u16 "complaint"; u16 "grievance"; u16 "disciplinary"]).
Proof.
  intros _. split_and!.
  - apply set_of_NoDup.
  - apply Forall_forall. intros k Hk. apply keywords_elem in Hk.
    destruct Hk as [Hk|[->|[(f & _ & Hk)|[[_ Hk]|[[_ Hk]|[_ Hk]]]]]].
    + by eapply lower_words.
    + apply toLowerCase_idemp.
    + by eapply lower_words.
    + rewrite !elem_of_cons, elem_of_nil in Hk.
      destruct Hk as [-> | [-> | [-> | [-> | []]]]]; reflexivity.
    + rewrite !elem_of_cons, elem_of_nil in Hk.
      destruct Hk as [-> | [-> | [-> | [-> | []]]]]; reflexivity.
    + rewrite !elem_of_cons, elem_of_nil in Hk.
      destruct Hk as [-> | [-> | [-> | []]]]; reflexivity.
  - apply keywords_elem.
Qed.

Lemma getTemplateKeywords_spec_witness :
  NoDup (OpenAI.getTemplateKeywords Examples.leave_letter)
  ∧ Forall (λ k, toLowerCase k = k) (OpenAI.getTemplateKeywords Examples.leave_letter).
Proof.
  destruct (getTemplateKeywords_spec Examples.leave_letter) as (Hd & Hl & _);
    [|by split].
  unfold Shape.ascii_template, Shape.ascii.
  apply (bool_decide_unpack _). vm_compute. exact I.
Defined.

Lemma matchCount_pos (textLower : jsstring) (t : OpenAI.DocumentType) :
  0 < OpenAI.matchCount textLower t
  ↔ ∃ k, k ∈ OpenAI.getTemplateKeywords t ∧ Shape.occurs_in (toLowerCase k) textLower.
Proof.
  unfold OpenAI.matchCount. split.
  - intros Hpos.
    destruct (filter _ _) as [|k l] eqn:F; [cbn in Hpos; lia|].
    assert (k ∈ filter (λ keyword, includes textLower (toLowerCase keyword) = true)
                  (OpenAI.getTemplateKeywords t)) as Hk by (rewrite F; left).
    apply list_elem_of_filter in Hk as [Hk Hin]. exists k. split; [done|].
    by apply includes_iff.
  - intros (k & Hin & Hk).
    assert (k ∈ filter (λ keyword, includes textLower (toLowerCase keyword) = true)
                  (OpenAI.getTemplateKeywords t)) as Hf.
    { apply list_elem_of_filter. split; [by apply includes_iff|done]. }
    destruct (filter _ _); [by apply elem_of_nil in Hf|cbn; lia].
Qed.

Lemma Qmin_levels (n : nat) :
  0 < n →
  let q := Qmin 0.8 (0.5 + inject_Z (Z.of_nat n) * 0.1) in
  (q == 0.6 ∨ q == 0.7 ∨ q == 0.8)%Q.
Proof.
  intros Hn q. subst q. destruct n as [|[|[|n]]]; [lia|..].
  - left. unfold Qeq. vm_compute. reflexivity.
  - right. left. unfold Qeq. vm_compute. reflexivity.
  - right. right. apply Q.min_l.
    assert (3 <= inject_Z (Z.of_nat (S (S (S n)))))%Q as H3.
    { change 3%Q with (inject_Z 3). rewrite <- Zle_Qle. lia. }
    lra.
Qed.

(** X20.  On a text of ASCII and a catalog of templates whose names,
    categories and field labels are of ASCII, the keyword classifier has
    four confidence levels: 0.5 when no template of the catalog has a
    keyword in the text, and 0.6, 0.7 or 0.8 for one, two, or three and
    more keywords of the chosen template; the chosen template is then the
    first of the catalog with a keyword in the text. *)
Theorem keywordMatching_levels (text : jsstring) (cat : list OpenAI.DocumentType) :
  Shape.ascii text → Forall Shape.ascii_template cat →
  let q := (OpenAI.keywordMatching text cat).2 in
  ((q == 0.5)%Q ∨ (q == 0.6)%Q ∨ (q == 0.7)%Q ∨ (q == 0.8)%Q)
  ∧ ((q == 0.5)%Q
     ↔ ∀ t k, t ∈ cat → k ∈ OpenAI.getTemplateKeywords t →
              ¬ Shape.occurs_in (toLowerCase k) (toLowerCase text))
  ∧ (¬ (q == 0.5)%Q →
     ∃ i t k, (OpenAI.keywordMatching text cat).1 = Some t
       ∧ cat !! i = Some t
       ∧ k ∈ OpenAI.getTemplateKeywords t
       ∧ Shape.occurs_in (toLowerCase k) (toLowerCase text)
       ∧ ∀ j t' k', j < i → cat !! j = Some t' →
           k' ∈ OpenAI.getTemplateKeywords t' →
           ¬ Shape.occurs_in (toLowerCase k') (toLowerCase text)).
Proof.
  intros _ _. unfold OpenAI.keywordMatching.
  destruct (list_find _ cat) as [[i t]|] eqn:E; cbn [fst snd].
  - apply list_find_Some in E as (Hi & Hpos & Hfirst).
    pose proof (Qmin_levels _ Hpos) as Hq. cbn zeta in Hq.
    set (q := Qmin 0.8 _) in *.
    assert (¬ (q == 0.5)%Q) as Hne.
    { intros Hq5. rewrite Hq5 in Hq. destruct Hq as [Hq|[Hq|Hq]]; lra. }
    split_and!.
    + tauto.
    + split; [done|]. intros Hnone. exfalso.
      apply matchCount_pos in Hpos as (k & Hk & Hocc).
      apply (Hnone t k); [by eapply list_elem_of_lookup_2|done|done].
    + intros _. apply matchCount_pos in Hpos as (k & Hk & Hocc).
      exists i, t, k. split_and!; try done.
      intros j t' k' Hj Ht' Hk' Hocc'.
      apply (Hfirst j t' Ht' Hj). apply matchCount_pos. eauto.
  - split_and!.
    + by left.
    + split; [|done]. intros _ t k Ht Hk Hocc.
      apply list_find_None in E. rewrite Forall_forall in E.
      apply (E t Ht). apply matchCount_pos. eauto.
    + intros Hne. by destruct Hne.
Qed.

Lemma keywordMatching_levels_witness :
  ∃ i t k,
    (OpenAI.keywordMatching (u16 "Leave letter of the officer")
       [Examples.award; Examples.leave_letter]).1 = Some t
    ∧ [Examples.award; Examples.leave_letter] !! i = Some t
    ∧ k ∈ OpenAI.getTemplateKeywords t
    ∧ Shape.occurs_in (toLowerCase k)
        (toLowerCase (u16 "Leave letter of the officer"))
    ∧ ∀ j t' k', j < i → [Examples.award; Examples.leave_letter] !! j = Some t' →
        k' ∈ OpenAI.getTemplateKeywords t' →
        ¬ Shape.occurs_in (toLowerCase k')
            (toLowerCase (u16 "Leave letter of the officer")).
Proof.
  refine (proj2 (proj2 (keywordMatching_levels (u16 "Leave letter of the officer")
                          [Examples.award; Examples.leave_letter] _ _)) _).
  - unfold Shape.ascii. apply (bool_decide_unpack _). vm_compute. exact I.
  - unfold Shape.ascii_template, Shape.ascii.
    apply (bool_decide_unpack _). vm_compute. exact I.
  - unfold Qeq. vm_compute. congruence.
Defined.

(** X21.  An empty keyword matches every text: a template with an empty
    category, or with any empty word among its keywords, has a keyword in
    every text, so the keyword classifier never chooses a template that
    stands behind it in the catalog, and its confidence is at least 0.6. *)
Theorem empty_keyword_shadows (text : jsstring) (cat : list OpenAI.DocumentType)
    (i : nat) (t : OpenAI.DocumentType) :
  cat !! i = Some t →
  OpenAI.category t = [] ∨ [] ∈ OpenAI.getTemplateKeywords t →
  ∃ j t', j ≤ i ∧ cat !! j = Some t'
          ∧ (OpenAI.keywordMatching text cat).1 = Some t'
          ∧ (0.6 <= (OpenAI.keywordMatching text cat).2)%Q.
Proof.
  intros Hi Hempty.
  assert ([] ∈ OpenAI.getTemplateKeywords t) as Hk.
  { destruct Hempty as [Hc|?]; [|done]. apply keywords_elem. right. left.
    by rewrite Hc. }
  assert (0 < OpenAI.matchCount (toLowerCase text) t) as Hpos.
  { apply matchCount_pos. exists []. split; [done|]. by exists [], (toLowerCase text). }
  unfold OpenAI.keywordMatching.
  destruct (list_find _ cat) as [[j t']|] eqn:E; cbn [fst snd].
  - apply list_find_Some in E as (Hj & Hpos' & Hfirst).
    exists j, t'. split_and!; try done.
    + destruct (decide (j ≤ i)) as [?|Hgt]; [done|]. exfalso.
      apply (Hfirst i t Hi); [lia|done].
    + pose proof (Qmin_levels _ Hpos') as Hq. cbn zeta in Hq.
      destruct Hq as [Hq|[Hq|Hq]]; rewrite Hq; lra.
  - apply list_find_None in E. rewrite Forall_forall in E.
    exfalso. apply (E t); [by eapply list_elem_of_lookup_2|done].
Qed.

Lemma empty_keyword_shadows_witness :
  ∃ j t', j ≤ 0 ∧ [Examples.circular; Examples.leave_letter] !! j = Some t'
          ∧ (OpenAI.keywordMatching (u16 "Leave letter")
               [Examples.circular; Examples.leave_letter]).1 = Some t'
          ∧ (0.6 <= (OpenAI.keywordMatching (u16 "Leave letter")
                       [Examples.circular; Examples.leave_letter]).2)%Q.
Proof.
  apply (empty_keyword_shadows (u16 "Leave letter")
           [Examples.circular; Examples.leave_letter] 0 Examples.circular).
  - reflexivity.
  - right. apply (list_elem_of_lookup_2 _ 1). vm_compute. reflexivity.
Defined.

(** ** The extracted text and its confidence *)

Lemma punctuation_blind (x : N) :
  one_of (u16 ".,;:!?") (lower_unit x) = one_of (u16 ".,;:!?") x.
Proof.
  destruct (lower_unit_cases x) as [[Hx ->]|[Hx ->]]; [|done].
  unfold one_of. change (u16 ".,;:!?") with [46; 44; 59; 58; 33; 63]%N.
  rewrite !bool_decide_eq_false_2; [done|..];
    rewrite !elem_of_cons, elem_of_nil; lia.
Qed.

(** X22.  The confidence of an extracted text does not depend on the case
    of its letters. *)
Theorem calculateConfidence_ignores_case (text1 text2 : jsstring) :
  toLowerCase text1 = toLowerCase text2 →
  Ollama.calculateConfidence text1 = Ollama.calculateConfidence text2.
Proof.
  intros E.
  assert (length text1 = length text2) as Hlen.
  { apply (f_equal length) in E. unfold toLowerCase in E.
    by rewrite !length_fmap in E. }
  assert (Ollama.hasNumbers text1 = Ollama.hasNumbers text2) as Hn.
  { apply regex_test_lower; [|done]. intros x. apply is_digit_blind. }
  assert (Ollama.hasLetters text1 = Ollama.hasLetters text2) as Hl.
  { apply regex_test_lower; [|done]. intros x. apply is_letter_blind. }
  assert (Ollama.hasPunctuation text1 = Ollama.hasPunctuation text2) as Hp.
  { apply regex_test_lower; [|done]. intros x. apply punctuation_blind. }
  assert (Ollama.keywordMatches text1 = Ollama.keywordMatches text2) as Hk.
  { unfold Ollama.keywordMatches. by rewrite E. }
  unfold Ollama.calculateConfidence. by rewrite Hlen, Hn, Hl, Hp, Hk.
Qed.

Lemma calculateConfidence_ignores_case_witness :
  Ollama.calculateConfidence (u16 "POLICE ORDER No. 12")
  = Ollama.calculateConfidence (u16 "police order no. 12").
Proof.
  apply (calculateConfidence_ignores_case (u16 "POLICE ORDER No. 12")
           (u16 "police order no. 12")).
  vm_compute. reflexivity.
Defined.

Lemma extractText_returned (file : File) (uid : jsstring) (w : World) r w' :
  Ollama.extractTextFromDocument file uid w = (Returned r, w') →
  is_Some (contents file)
  ∧ ∃ text, Spec.vision_text (next_reply (ollama w)) = Some text
            ∧ Ollama.extractedText r = text
            ∧ Ollama.pages r
              = [{| Ollama.pageNumber := 1; Ollama.width := 0; Ollama.height := 0;
                    Ollama.page_extractedText := text;
                    Ollama.page_confidence := Ollama.calculateConfidence text |}]
            ∧ Ollama.model r = u16 "gemma3".
Proof.
  unfold Ollama.extractTextFromDocument, bind, try_catch, now, logAction, fileToBase64.
  cbn -[u16 Ollama.processWithGemma3 list_to_map Ollama.calculateConfidence].
  destruct (contents file) as [url|];
    cbn -[u16 Ollama.processWithGemma3 list_to_map Ollama.calculateConfidence];
    [|discriminate].
  match goal with |- context [Ollama.processWithGemma3 ?b ?x] =>
    set (base64 := b); set (w0 := x) end.
  destruct (Spec.vision_text (next_reply (ollama w))) as [text|] eqn:V.
  - rewrite (processWithGemma3_ok base64 w0 text V).
    cbn -[u16 list_to_map Ollama.calculateConfidence].
    intros [= <- _]. split; [done|]. exists text. done.
  - destruct (processWithGemma3_fails base64 w0 V) as [e ->].
    cbn -[u16 list_to_map]. discriminate.
Qed.

(** X23.  The text that text extraction returns is the trimmed [response]
    of the vision service's reply, which was a non-empty string; the result
    holds one page, numbered 1, with the same text and confidence.  A
    response of white space only is returned as the empty text with
    confidence 0, not raised as a failure. *)
Theorem extractTextFromDocument_text (file : File) (uid : jsstring) (w : World)
    r w' :
  Ollama.extractTextFromDocument file uid w = (Returned r, w') →
  ∃ m response,
    next_reply (ollama w) = Body (JObj m)
    ∧ m !! u16 "response" = Some (JStr response)
    ∧ response ≠ []
    ∧ Ollama.extractedText r = trim response
    ∧ Shape.trimmed (Ollama.extractedText r)
    ∧ Ollama.pages r
      = [{| Ollama.pageNumber := 1; Ollama.width := 0; Ollama.height := 0;
            Ollama.page_extractedText := Ollama.extractedText r;
            Ollama.page_confidence := Ollama.confidence r |}]
    ∧ (Shape.whitespace response
       ↔ Ollama.extractedText r = [] ∧ Ollama.confidence r = 0%Q).
Proof.
  intros Hrun. pose proof (extractText_confidence _ _ _ _ _ Hrun) as Hconf.
  apply extractText_returned in Hrun as (_ & text & Hv & Ht & Hp & _).
  unfold Spec.vision_text in Hv.
  destruct (next_reply (ollama w)) as [| | |[| | | | | |m]]; try done.
  destruct (m !! u16 "response") as [[| | | |[|c s]| |]|] eqn:E; try done.
  injection Hv as Hv. exists m, (c :: s).
  rewrite Hconf, Ht, <- Hv in *.
  destruct (trim_spec (c :: s)) as (a & b & Hs & Ha & Hb & Htr).
  split_and!; try done.
  split.
  - intros Hws.
    assert (trim (c :: s) = []) as ->; [|done].
    destruct (trim (c :: s)) as [|x t] eqn:T; [done|]. exfalso.
    destruct Htr as [Hh _]. specialize (Hh x eq_refl).
    unfold Shape.whitespace in Hws. rewrite Hs in Hws.
    apply Forall_app in Hws as [_ Hws]. apply Forall_cons in Hws as [Hx _].
    congruence.
  - intros [Hnil _]. unfold Shape.whitespace. rewrite Hs, Hnil.
    apply Forall_app. split; [done|]. by apply Forall_app.
Qed.

Lemma extractTextFromDocument_text_witness :
  ∃ m response,
    next_reply [Examples.generate_reply (u16 "  ")] = Body (JObj m)
    ∧ m !! u16 "response" = Some (JStr response)
    ∧ Shape.whitespace response.
Proof.
  destruct (Ollama.extractTextFromDocument Examples.scan Examples.user
              (Examples.world [Examples.generate_reply (u16 "  ")] []))
    as [[r|e] w'] eqn:Hrun; [|vm_compute in Hrun; discriminate].
  destruct (extractTextFromDocument_text _ _ _ _ _ Hrun)
    as (m & response & Hr & Hm & _ & _ & _ & _ & Hws).
  exists m, response. split_and!; [done|done|]. apply Hws.
  vm_compute in Hrun. injection Hrun as <- _. split; reflexivity.
Defined.

(** ** The copies of the name and the date in an analysis *)

Section StampCopies.
Context `{Runtime}.

Lemma analyzeWithOllama_copies file text uid w :
  is_Some (contents file) →
  ∃ a, Stamp.analyzeWithOllama file text uid w = (Returned a, Spec.after_ollama w)
       ∧ Stamp.StampDetectionResult.PersonName (Stamp.Analysis.Stamp a)
         = Stamp.Analysis.PersonName a
       ∧ Stamp.SignatureDetectionResult.PersonName (Stamp.Analysis.Signature a)
         = Stamp.Analysis.PersonName a
       ∧ Stamp.StampDetectionResult.Date (Stamp.Analysis.Stamp a)
         = Stamp.Analysis.Date a
       ∧ Stamp.SignatureDetectionResult.Date (Stamp.Analysis.Signature a)
         = Stamp.Analysis.Date a.
Proof.
  intros Hc. destruct (Spec.analysis_text (next_reply (ollama w))) as [t|] eqn:E.
  - rewrite (analyzeWithOllama_reply file text uid w t Hc E).
    eexists. split; [reflexivity|]. by destruct (get _ _).
  - rewrite (analyzeWithOllama_call_fails file text uid w Hc E).
    eexists. split; [reflexivity|]. done.
Qed.

End StampCopies.

(** X24.  In every result of the stamp and signature analyzer the person
    name and the date stand three times, in the stamp, in the signature and
    in the result itself, and the three copies agree on every path: the
    reply of the model, the heuristic analysis and the defaulted result.
    The extracted text is a string exactly when text extraction succeeded
    and the second read of the file succeeded too; otherwise the result is
    the defaulted one. *)
Theorem analyzeStampsAndSignatures_copies `{Runtime} (file : File) (uid : jsstring)
    (w : World) :
  ∃ r w',
    Stamp.analyzeStampsAndSignatures file uid w = (Returned r, w')
    ∧ Stamp.StampDetectionResult.PersonName (Stamp.StampSignatureAnalysisResult.Stamp r)
      = Stamp.StampSignatureAnalysisResult.PersonName r
    ∧ Stamp.SignatureDetectionResult.PersonName
        (Stamp.StampSignatureAnalysisResult.Signature r)
      = Stamp.StampSignatureAnalysisResult.PersonName r
    ∧ Stamp.StampDetectionResult.Date (Stamp.StampSignatureAnalysisResult.Stamp r)
      = Stamp.StampSignatureAnalysisResult.Date r
    ∧ Stamp.SignatureDetectionResult.Date
        (Stamp.StampSignatureAnalysisResult.Signature r)
      = Stamp.StampSignatureAnalysisResult.Date r
    ∧ match Stamp.StampSignatureAnalysisResult.ExtractedText r with
      | JStr text =>
          is_Some (contents file)
          ∧ Spec.vision_text (next_reply (ollama w)) = Some text
          ∧ is_Some (contents (next_read file))
      | _ =>
          r = Stamp.defaulted (Stamp.StampSignatureAnalysisResult.ProcessingTime r)
          ∧ (contents file = None
             ∨ Spec.vision_text (next_reply (ollama w)) = None
             ∨ contents (next_read file) = None)
      end.
Proof.
  unfold Stamp.analyzeStampsAndSignatures, bind, try_catch, now, logAction.
  cbn -[u16 list_to_map Ollama.extractTextFromDocument Stamp.analyzeWithOllama
        next_read].
  match goal with |- context [Ollama.extractTextFromDocument file uid ?x] =>
    set (w0 := x) end.
  destruct (contents file) as [url|] eqn:Hcf;
    [destruct (Spec.vision_text (next_reply (ollama w))) as [text|] eqn:Hvt|].
  - destruct (extractText_ok file uid w0 text) as (r & w1 & -> & <- & _);
      [by rewrite Hcf|done|].
    destruct (contents (next_read file)) as [url'|] eqn:Hnext.
    + destruct (analyzeWithOllama_copies (next_read file)
                  (Ollama.extractedText r) uid w1)
        as (a & -> & H1 & H2 & H3 & H4); [by rewrite Hnext|].
      cbn -[u16 list_to_map]. eexists _, _. split; [reflexivity|].
      cbn -[u16 list_to_map]. split_and!; eauto.
    + rewrite (analyzeWithOllama_unreadable (next_read file) _ uid w1 Hnext).
      cbn -[u16 list_to_map]. eexists _, _. split; [reflexivity|].
      cbn -[u16 list_to_map]. split_and!; auto.
  - destruct (extractText_fails file uid w0) as (cause & w1 & ->); [by right|].
    cbn -[u16 list_to_map]. eexists _, _. split; [reflexivity|].
    cbn -[u16 list_to_map]. split_and!; auto.
  - destruct (extractText_fails file uid w0) as (cause & w1 & ->); [by left|].
    cbn -[u16 list_to_map]. eexists _, _. split; [reflexivity|].
    cbn -[u16 list_to_map]. split_and!; auto.
Qed.

(** ** From the reply of the chat service to the template *)

Section ChatReply.
Context `{Runtime}.

Lemma completion_of_content (w : World) (content : jsstring) :
  Chat.content (next_reply (openai w)) = Some content →
  OpenAI.completion w
  = (match JSON_parse (OpenAI.cleanJsonResponse (trim content)) with
     | Some v => Returned v
     | None => Thrown syntax_error
     end,
     {| audit := audit w; clock := clock w; ollama := ollama w;
        openai := tl (openai w) |}).
Proof.
  intros Hc. unfold OpenAI.completion, bind, fetch_openai.
  cbn -[u16 get get0 OpenAI.cleanJsonResponse trim].
  unfold Chat.content in Hc.
  destruct (next_reply (openai w)) as [| | |data]; try discriminate.
  cbn -[u16 get get0 OpenAI.cleanJsonResponse trim].
  destruct (get data (u16 "choices")) as [|choices]; [discriminate|].
  cbn -[u16 get get0 OpenAI.cleanJsonResponse trim].
  destruct (get0 choices) as [|choice]; [discriminate|].
  cbn -[u16 get get0 OpenAI.cleanJsonResponse trim].
  destruct (get choice (u16 "message")) as [|message]; [discriminate|].
  cbn -[u16 get get0 OpenAI.cleanJsonResponse trim].
  destruct (get message (u16 "content")) as [|[| | | |s| |]]; try discriminate.
  injection Hc as ->.
  cbn -[u16 OpenAI.cleanJsonResponse trim].
  by destruct (JSON_parse _).
Qed.

End ChatReply.

(** X25.  From the reply to the template: when the content of the chat
    completion is a JSON object inside a markdown fence, with white space
    around it, and the object names a template id, the classifier returns
    the first template of the catalog with that id, and none when the
    catalog has no such template; it consumes one reply. *)
Theorem findBestTemplate_fenced_reply `{Runtime} (text : jsstring)
    (cat : list OpenAI.DocumentType) (w : World)
    (ws1 j ws2 ws3 : jsstring) (o : gmap jsstring JSValue) (tid : jsstring) :
  Chat.content (next_reply (openai w))
  = Some (u16 "```json" ++ ws1 ++ j ++ ws2 ++ u16 "```" ++ ws3) →
  Shape.whitespace ws1 → Shape.whitespace ws2 → Shape.whitespace ws3 →
  Shape.object_text j →
  JSON_parse j = Some (JObj o) →
  o !! u16 "bestTemplateId" = Some (JStr tid) →
  ∃ w', OpenAI.findBestTemplate text cat w
        = (Returned (snd <$> list_find (λ t, OpenAI.id t = tid) cat), w')
        ∧ Trace.advanced w w' [] 0 1.
Proof.
  intros Hc H1 H2 H3 Hj Hp Ho.
  rewrite findBestTemplate_cases, (completion_of_content _ _ Hc).
  assert (trim (u16 "```json" ++ ws1 ++ j ++ ws2 ++ u16 "```" ++ ws3)
          = u16 "```json" ++ ws1 ++ j ++ ws2 ++ u16 "```" ++ []) as ->.
  { rewrite app_nil_r.
    change (u16 "```json") with (96%N :: u16 "``json").
    change (u16 "```") with (u16 "``" ++ [96%N]).
    replace ((96%N :: u16 "``json") ++ ws1 ++ j ++ ws2 ++ (u16 "``" ++ [96%N]) ++ ws3)
      with (96%N :: (u16 "``json" ++ ws1 ++ j ++ ws2 ++ u16 "``") ++ [96%N] ++ ws3)
      by (cbn; by rewrite <- !app_assoc).
    rewrite (trim_trailing 96 96) by done.
    cbn. by rewrite <- !app_assoc. }
  rewrite (cleanJson_markdown ws1 j ws2 []) by (done || constructor).
  rewrite Hp. cbn -[u16]. rewrite Ho. cbn -[u16].
  eexists. split.
  - f_equal. f_equal. f_equal. apply list_find_ext_Forall, Forall_forall.
    intros t _. cbn. rewrite bool_decide_eq_true. split; congruence.
  - unfold Trace.advanced. cbn. rewrite app_nil_r.
    split_and!; [done|done|]. by destruct (openai w).
Qed.

Lemma findBestTemplate_fenced_reply_witness :
  ∃ w', @OpenAI.findBestTemplate
          (table_parser
             [(json_text "{'bestTemplateId': 'leave'}",
               JObj {[ u16 "bestTemplateId" := JStr (u16 "leave") ]})])
          (u16 "Leave letter") [Examples.award; Examples.leave_letter]
          (Examples.world []
             [Examples.chat_reply
                (u16 "```json" ++ [10%N] ++ json_text "{'bestTemplateId': 'leave'}"
                 ++ [10%N] ++ u16 "```" ++ [])])
        = (Returned (Some Examples.leave_letter), w').
Proof.
  destruct (@findBestTemplate_fenced_reply
              (table_parser
                 [(json_text "{'bestTemplateId': 'leave'}",
                   JObj {[ u16 "bestTemplateId" := JStr (u16 "leave") ]})])
              (u16 "Leave letter") [Examples.award; Examples.leave_letter]
              (Examples.world []
                 [Examples.chat_reply
                    (u16 "```json" ++ [10%N] ++ json_text "{'bestTemplateId': 'leave'}"
                     ++ [10%N] ++ u16 "```" ++ [])])
              [10%N] (json_text "{'bestTemplateId': 'leave'}") [10%N] []
              {[ u16 "bestTemplateId" := JStr (u16 "leave") ]} (u16 "leave"))
    as (w' & Hrun & _).
  - vm_compute. reflexivity.
  - by repeat constructor.
  - by repeat constructor.
  - constructor.
  - split; [by exists (json_text "'bestTemplateId': 'leave'")|].
    apply (bool_decide_unpack _). vm_compute. exact I.
  - vm_compute. reflexivity.
  - vm_compute. reflexivity.
  - exists w'. rewrite Hrun. reflexivity.
Defined.

(** ** Field completeness *)

Section Completeness.
Context `{Runtime}.

(** The primary path, from the reply of the chat service: when the content
    of the completion parses and the parsed value can be read for
    [extractedFields], the result carries the completion of that value. *)
Lemma extractFieldsForTemplate_reply (text : jsstring)
    (template : OpenAI.DocumentType) (all : list OpenAI.DocumentType) (w : World)
    (content : jsstring) (extraction model_fields : JSValue) :
  Chat.content (next_reply (openai w)) = Some content →
  JSON_parse (OpenAI.cleanJsonResponse (trim content)) = Some extraction →
  get extraction (u16 "extractedFields") = inr model_fields →
  ∃ r w',
    OpenAI.extractFieldsForTemplate text template all w = (Returned r, w')
    ∧ OpenAI.fe_extractedFields r
      = OpenAI.ensureAllFieldsPresent model_fields template.
Proof.
  intros Hc Hp Hg.
  unfold OpenAI.extractFieldsForTemplate, try_catch, bind.
  rewrite (completion_of_content _ _ Hc), Hp. cbn -[u16]. rewrite Hg.
  cbn -[u16]. eauto.
Qed.

(** A reply without a message content makes the completion request
    throw. *)
Lemma completion_no_content (w : World) :
  Chat.content (next_reply (openai w)) = None →
  ∃ e w', OpenAI.completion w = (Thrown e, w').
Proof.
  intros Hc. unfold OpenAI.completion, bind, fetch_openai.
  cbn -[u16 get get0 OpenAI.cleanJsonResponse trim].
  unfold Chat.content in Hc.
  destruct (next_reply (openai w)) as [| | |data];
    cbn -[u16 get get0 OpenAI.cleanJsonResponse trim]; eauto.
  destruct (get data (u16 "choices")) as [|choices];
    cbn -[u16 get get0 OpenAI.cleanJsonResponse trim]; eauto.
  destruct (get0 choices) as [|choice];
    cbn -[u16 get get0 OpenAI.cleanJsonResponse trim]; eauto.
  destruct (get choice (u16 "message")) as [|message];
    cbn -[u16 get get0 OpenAI.cleanJsonResponse trim]; eauto.
  destruct (get message (u16 "content")) as [|[| | | |s| |]];
    cbn -[u16 get get0 OpenAI.cleanJsonResponse trim]; eauto.
  discriminate.
Qed.

(** The fallback path, from the reply of the chat service: no message
    content, a content that does not parse, or one that parses to null. *)
Lemma extractFieldsForTemplate_no_reply (text : jsstring)
    (template : OpenAI.DocumentType) (all : list OpenAI.DocumentType) (w : World) :
  Chat.content (next_reply (openai w)) = None
  ∨ (∃ content,
       Chat.content (next_reply (openai w)) = Some content
       ∧ (JSON_parse (OpenAI.cleanJsonResponse (trim content)) = None
          ∨ JSON_parse (OpenAI.cleanJsonResponse (trim content)) = Some JNull)) →
  ∃ w',
    OpenAI.extractFieldsForTemplate text template all w
    = (Returned (OpenAI.createFallbackFieldExtraction text template), w').
Proof.
  unfold OpenAI.extractFieldsForTemplate, try_catch, bind.
  intros [Hc|(content & Hc & [Hp|Hp])].
  - destruct (completion_no_content w Hc) as (e & w' & ->). eauto.
  - rewrite (completion_of_content _ _ Hc), Hp. eauto.
  - rewrite (completion_of_content _ _ Hc), Hp. cbn -[u16]. eauto.
Qed.

End Completeness.

(** C2 (as amended).  For every template and every text the field
    extraction returns, and its fields map contains every id of the
    template that is not a name every object inherits.  On the primary
    path, that is when the content of the chat service's reply parses to a
    value with readable [extractedFields], the completion step runs on
    those fields: the map keeps every key and value of the model as they
    are, every other id of the template that is not an inherited name
    holds its type default (empty string for text and textarea, null for
    number and date, first option or empty string for select), and there
    is no further key.  When the reply has no message content, or the
    content does not parse or parses to null, the result is the fallback
    extraction: its keys are ids of the template, every id but
    [__proto__] is among them, and each holds the type default of a field
    of that id or the trimmed text a pattern captured. *)
Theorem C2_field_completeness `{Runtime} (text : jsstring)
    (template : OpenAI.DocumentType) (all : list OpenAI.DocumentType) (w : World) :
  (∃ r w',
     OpenAI.extractFieldsForTemplate text template all w = (Returned r, w')
     ∧ ∀ k, k ∈ Spec.field_ids template → k ∉ object_prototype_names →
            k ∈ dom (OpenAI.fe_extractedFields r))
  ∧ (∀ content extraction model_fields,
       Chat.content (next_reply (openai w)) = Some content →
       JSON_parse (OpenAI.cleanJsonResponse (trim content)) = Some extraction →
       get extraction (u16 "extractedFields") = inr model_fields →
       ∃ r w',
         OpenAI.extractFieldsForTemplate text template all w = (Returned r, w')
         ∧ (∀ k v, spread model_fields !! k = Some v →
                   OpenAI.fe_extractedFields r !! k = Some v)
         ∧ (∀ k, spread model_fields !! k = None → k ∉ object_prototype_names →
                 OpenAI.fe_extractedFields r !! k
                 = Spec.completion_default template k)
         ∧ (∀ k, k ∈ dom (OpenAI.fe_extractedFields r) →
                 k ∈ dom (spread model_fields) ∨ k ∈ Spec.field_ids template))
  ∧ (Chat.content (next_reply (openai w)) = None
     ∨ (∃ content,
          Chat.content (next_reply (openai w)) = Some content
          ∧ (JSON_parse (OpenAI.cleanJsonResponse (trim content)) = None
             ∨ JSON_parse (OpenAI.cleanJsonResponse (trim content)) = Some JNull)) →
     ∃ w',
       OpenAI.extractFieldsForTemplate text template all w
       = (Returned (OpenAI.createFallbackFieldExtraction text template), w'))
  ∧ dom (OpenAI.fe_extractedFields (OpenAI.createFallbackFieldExtraction text template))
    ⊆ Spec.field_ids template
  ∧ (∀ k, k ∈ Spec.field_ids template → k ≠ u16 "__proto__" →
          k ∈ dom (OpenAI.fe_extractedFields
                     (OpenAI.createFallbackFieldExtraction text template)))
  ∧ (∀ k v,
       OpenAI.fe_extractedFields (OpenAI.createFallbackFieldExtraction text template) !! k
       = Some v →
       ∃ field, field ∈ OpenAI.template template ∧ OpenAI.field_id field = k
         ∧ (v = Spec.type_default field
            ∨ ∃ s, v = JStr s ∧ Shape.trimmed s ∧ Shape.occurs_in s text)).
Proof.
  split_and!.
  - destruct (extractFieldsForTemplate_cases text template all w)
      as (r & w' & Hrun & [(extraction & fields & Hc & Hg & Hf & _) | [_ ->]]).
    + exists r, w'. split; [done|]. intros k Hk Hnot.
      rewrite Hf. apply ensureAllFieldsPresent_dom. by right.
    + eexists _, w'. split; [done|]. intros k Hk Hnot.
      apply extractFieldsBasic_dom; [done|].
      intros ->. apply Hnot, proto_is_inherited.
  - intros content extraction model_fields Hc Hp Hg.
    destruct (extractFieldsForTemplate_reply text template all w _ _ _ Hc Hp Hg)
      as (r & w' & Hrun & Hf).
    exists r, w'. rewrite Hf. split_and!; [done| | |].
    + intros k v Hk. by rewrite ensureAllFieldsPresent_lookup, Hk.
    + intros k Hk Hnot.
      by rewrite ensureAllFieldsPresent_lookup, Hk, bool_decide_eq_false_2.
    + intros k Hk. apply ensureAllFieldsPresent_dom in Hk. tauto.
  - apply extractFieldsForTemplate_no_reply.
  - apply extractFieldsBasic_dom_ids.
  - intros k. apply extractFieldsBasic_dom.
  - intros k v Hk. cbn [OpenAI.createFallbackFieldExtraction
      OpenAI.fe_extractedFields] in Hk.
    apply extractFieldsBasic_value in Hk as (field & Hin & Hid & Hv).
    exists field. split_and!; [done|done|].
    destruct Hv as [->|(s & -> & Ht & Ho & _)].
    + left. apply type_default_spec.
    + right. eauto.
Qed.

Lemma C2_field_completeness_witness :
  ∃ r w',
    @OpenAI.extractFieldsForTemplate Examples.runtime [] Examples.leave_letter
      [Examples.leave_letter]
      (Examples.world [] [Examples.chat_reply Examples.reply_extra_key])
    = (Returned r, w')
    ∧ OpenAI.fe_extractedFields r !! u16 "remarks" = Some (JStr (u16 "urgent"))
    ∧ OpenAI.fe_extractedFields r !! u16 "officer_name" = Some (JStr []).
Proof.
  destruct (proj1 (proj2 (@C2_field_completeness Examples.runtime []
              Examples.leave_letter [Examples.leave_letter]
              (Examples.world [] [Examples.chat_reply Examples.reply_extra_key])))
              Examples.reply_extra_key
              (JObj {[ u16 "extractedFields" :=
                 JObj (list_to_map [(u16 "remarks", JStr (u16 "urgent"));
                                    (u16 "days", JStr (u16 "three"))]) ]})
              (JObj (list_to_map [(u16 "remarks", JStr (u16 "urgent"));
                                  (u16 "days", JStr (u16 "three"))])))
    as (r & w' & Hrun & Hkeep & Hfill & _).
  - vm_compute. reflexivity.
  - vm_compute. reflexivity.
  - vm_compute. reflexivity.
  - exists r, w'. split_and!; [exact Hrun| |].
    + apply Hkeep. vm_compute. reflexivity.
    + rewrite Hfill.
      * vm_compute. reflexivity.
      * vm_compute. reflexivity.
      * intros Hin. apply (bool_decide_pack _) in Hin. vm_compute in Hin.
        exact Hin.
Defined.

(** C2 as stated fails on the primary path: the model's reply carries a
    key that is no field of the template and a text for the number field;
    the key stays in the result and the number field holds the text. *)
Lemma C2_counterexample :
  ∃ r w',
    @OpenAI.extractFieldsForTemplate Examples.runtime [] Examples.leave_letter
      [Examples.leave_letter]
      (Examples.world [] [Examples.chat_reply Examples.reply_extra_key])
    = (Returned r, w')
    ∧ dom (OpenAI.fe_extractedFields r)
      = {[ u16 "officer_name"; u16 "days"; u16 "remarks" ]}
    ∧ dom (OpenAI.fe_extractedFields r) ≠ Spec.field_ids Examples.leave_letter
    ∧ OpenAI.fe_extractedFields r !! u16 "days" = Some (JStr (u16 "three"))
    ∧ ¬ Spec.conforms OpenAI.number (JStr (u16 "three")).
Proof.
  eexists _, _. split; [vm_compute; reflexivity|].
  split; [vm_compute; reflexivity|]. split.
  - intros E.
    match type of E with dom ?m = _ =>
      assert (u16 "remarks" ∈ dom m) as Hin
        by (apply elem_of_dom; eexists; vm_compute; reflexivity) end.
    rewrite E in Hin. apply elem_of_list_to_set in Hin. cbn in Hin.
    repeat (apply elem_of_cons in Hin as [Hin|Hin]; [discriminate|]).
    by apply elem_of_nil in Hin.
  - split; [vm_compute; reflexivity|]. simpl. tauto.
Qed.

(** C8 at a template with a field whose id is [__proto__].  The claim has
    every field of the template initialised to its type default, and the
    extractor says so of itself ("Initialize all fields with default
    values"); for this template, on the empty text, that is the map with
    the empty string at [__proto__] and null at [days].  The extractor
    returns a map without the key [__proto__]: the assignment
    [fields['__proto__'] = ''] reaches the accessor every object inherits,
    which ignores a string, and creates no property.  The other field is
    initialised and the confidence is 0.6. *)
Theorem C8_proto_field_not_initialised :
  u16 "__proto__" ∈ Spec.field_ids Examples.proto_template
  ∧ Spec.initial_default Examples.proto_template (u16 "__proto__") = Some (JStr [])
  ∧ OpenAI.fe_extractedFields
      (OpenAI.createFallbackFieldExtraction [] Examples.proto_template)
    !! u16 "__proto__" = None
  ∧ OpenAI.fe_extractedFields
      (OpenAI.createFallbackFieldExtraction [] Examples.proto_template)
    = {[ u16 "days" := JNull ]}
  ∧ OpenAI.fe_confidence
      (OpenAI.createFallbackFieldExtraction [] Examples.proto_template)
    = JNum 0.6.
Proof.
  split_and!.
  - apply elem_of_list_to_set, (list_elem_of_lookup_2 _ 0). reflexivity.
  - reflexivity.
  - vm_compute. reflexivity.
  - vm_compute. reflexivity.
  - reflexivity.
Qed.
